(** * The call-queue dispatcher (worker-manager): a shallow embedding

    The dispatcher turns a backlog of PENDING calls into bounded invocations
    of the voice provider, polls the RUNNING ones, reaps stale ones and stops
    itself after repeated failures.  This development embeds the worker
    module function by function and proves the documented properties of the
    outcome classifier, the dispatch/poll cycle, the stale-call reaper and
    the worker loop. *)

From Stdlib Require Import String Ascii List ZArith Bool Lia Arith DecimalString.
Import ListNotations.

Local Open Scope string_scope.
Local Open Scope Z_scope.

(** ** JavaScript strings

    A string is a sequence of code units; the model covers the code units
    U+0000..U+00FF, on which [toLowerCase] and [trim] are closed. *)

Module Js.

Definition isUpper (n : nat) : bool :=
  (((65 <=? n) && (n <=? 90)) || ((192 <=? n) && (n <=? 222) && negb (n =? 215)))%nat.

Definition lowerChar (c : ascii) : ascii :=
  let n := nat_of_ascii c in
  if isUpper n then ascii_of_nat (n + 32) else c.

(** [String.prototype.toLowerCase]. *)
Fixpoint toLowerCase (s : string) : string :=
  match s with
  | EmptyString => EmptyString
  | String c s' => String (lowerChar c) (toLowerCase s')
  end.

(** White space and line terminators removed by [trim]: TAB, LF, VT, FF, CR,
    SPACE and NBSP. *)
Definition isSpace (c : ascii) : bool :=
  let n := nat_of_ascii c in
  (((9 <=? n) && (n <=? 13)) || (n =? 32) || (n =? 160))%nat.

Definition isEmpty (s : string) : bool :=
  match s with EmptyString => true | _ => false end.

Fixpoint trimStart (s : string) : string :=
  match s with
  | EmptyString => EmptyString
  | String c s' => if isSpace c then trimStart s' else s
  end.

Fixpoint trimEnd (s : string) : string :=
  match s with
  | EmptyString => EmptyString
  | String c s' =>
      let t := trimEnd s' in
      if isSpace c && isEmpty t then EmptyString else String c t
  end.

(** [String.prototype.trim]. *)
Definition trim (s : string) : string := trimEnd (trimStart s).

(** [v.includes(k)]: [k] occurs in [v] as a contiguous substring. *)
Fixpoint includes (v k : string) : bool :=
  if prefix k v then true
  else match v with
       | EmptyString => false
       | String _ v' => includes v' k
       end.

(** Truthiness of a string: the empty string is falsy. *)
Definition truthyString (s : string) : bool := negb (isEmpty s).

Definition truthyOpt (o : option string) : bool :=
  match o with Some s => truthyString s | None => false end.

End Js.

(** ** JSON values

    The provider's responses are untyped JSON.  Numbers are carried as
    integers: the code only passes them through and compares a duration
    with zero.  An object is the list of its own properties in the order
    [Object.keys] enumerates them; keys of an object are distinct. *)

Set Warnings "-register-all".

Inductive json : Type :=
| JNull
| JBool (b : bool)
| JNum (n : Z)
| JStr (s : string)
| JArr (items : list json)
| JObj (fields : list (string * json)).

Module Json.

(** [record[key]] on the own properties of an object; [None] is
    [undefined]. *)
Fixpoint lookup (fields : list (string * json)) (key : string) : option json :=
  match fields with
  | [] => None
  | (k, v) :: rest => if String.eqb k key then Some v else lookup rest key
  end.

(** [value.key] for an arbitrary non-null value: only objects carry the
    properties the worker reads. *)
Definition getProp (value : json) (key : string) : option json :=
  match value with
  | JObj fields => lookup fields key
  | _ => None
  end.

(** JavaScript truthiness. *)
Definition truthy (value : json) : bool :=
  match value with
  | JNull => false
  | JBool b => b
  | JNum n => negb (n =? 0)
  | JStr s => Js.truthyString s
  | JArr _ | JObj _ => true
  end.

Definition truthyProp (o : option json) : bool :=
  match o with Some v => truthy v | None => false end.

(** [typeof v === "object" && v !== null]. *)
Definition isObjectNonNull (value : json) : bool :=
  match value with
  | JArr _ | JObj _ => true
  | _ => false
  end.

Definition stringOfZ (n : Z) : string := NilZero.string_of_int (Z.to_int n).

Fixpoint joinWith (sep : string) (parts : list string) : string :=
  match parts with
  | [] => ""
  | [p] => p
  | p :: rest => p ++ sep ++ joinWith sep rest
  end.

(** The message of the TypeError raised when a value cannot be converted
    to a string. *)
Definition typeError : string := "Cannot convert object to primitive value".

(** [String(value)], also the conversion made by a template literal;
    [None] when it raises a TypeError.  An object is converted through its
    [toString] property: a parsed object that has an own property of that
    name hides the inherited method behind a value that cannot be called,
    and the conversion raises.  An array is converted through [join], which
    converts every element, a null element to the empty string. *)
Fixpoint toString (value : json) : option string :=
  match value with
  | JNull => Some "null"
  | JBool true => Some "true"
  | JBool false => Some "false"
  | JNum n => Some (stringOfZ n)
  | JStr s => Some s
  | JArr items =>
      option_map (joinWith ",")
        ((fix each (l : list json) : option (list string) :=
            match l with
            | [] => Some []
            | item :: rest =>
                match (match item with
                       | JNull => Some ""
                       | _ => toString item
                       end), each rest with
                | Some text, Some texts => Some (text :: texts)
                | _, _ => None
                end
            end) items)
  | JObj fields =>
      match lookup fields "toString" with
      | Some _ => None
      | None => Some "[object Object]"
      end
  end.

End Json.

(** ** Outcome classifier *)

(** [classifyOutcome]: the keyword chain, checked in the order of the
    source. *)
Definition classifyOutcome (value : string) : option string :=
  let v := Js.trim (Js.toLowerCase value) in
  if Js.isEmpty v then None
  else if Js.includes v "canceled" || Js.includes v "cancelled" then
    Some "SYSTEM_CANCELED"
  else if Js.includes v "promise" || Js.includes v "will_pay"
          || Js.includes v "will pay" || Js.includes v "payment_promised" then
    Some "PAYMENT_PROMISED"
  else if Js.includes v "decline" || Js.includes v "refuse"
          || Js.includes v "rejected" then
    Some "DECLINED"
  else if Js.includes v "dispute" then
    Some "DISPUTED"
  else if Js.includes v "no_answer" || Js.includes v "no answer"
          || Js.includes v "unanswered" || Js.includes v "not_reached"
          || Js.includes v "not reached" then
    Some "NO_ANSWER"
  else if Js.includes v "voicemail" || Js.includes v "voice_mail"
          || Js.includes v "vm" then
    Some "VOICEMAIL"
  else if Js.includes v "wrong_number" || Js.includes v "wrong number"
          || Js.includes v "invalid" then
    Some "WRONG_NUMBER"
  else if Js.includes v "callback" || Js.includes v "call_back"
          || Js.includes v "call back" then
    Some "CALLBACK_REQUESTED"
  else None.

Record SearchResult : Type := mkSearchResult {
  callOutcome : option string;
  callDuration : option Z;
  callSummary : option string
}.

Definition noResult : SearchResult := mkSearchResult None None None.

Definition classificationFields : list string :=
  [ "classification"; "outcome"; "call_outcome"; "callOutcome";
    "result"; "call_result"; "callResult"; "disposition";
    "call_disposition"; "callDisposition"; "status_detail";
    "call_status"; "callStatus"; "category" ].

Definition summaryFields : list string :=
  [ "summary"; "call_summary"; "callSummary"; "transcript_summary";
    "notes"; "description" ].

Definition durationFields : list string :=
  [ "duration"; "call_duration"; "callDuration"; "duration_seconds";
    "call_length" ].

(** First candidate field holding a non-empty string that classifies. *)
Fixpoint findClassification (record : list (string * json))
    (fields : list string) : option string :=
  match fields with
  | [] => None
  | field :: rest =>
      match Json.lookup record field with
      | Some (JStr s) =>
          if Js.truthyString s then
            match classifyOutcome s with
            | Some classified =>
                if Js.truthyString classified then Some classified
                else findClassification record rest
            | None => findClassification record rest
            end
          else findClassification record rest
      | _ => findClassification record rest
      end
  end.

(** First candidate field holding a non-empty string. *)
Fixpoint findSummary (record : list (string * json))
    (fields : list string) : option string :=
  match fields with
  | [] => None
  | field :: rest =>
      match Json.lookup record field with
      | Some (JStr s) =>
          if Js.truthyString s then Some s else findSummary record rest
      | _ => findSummary record rest
      end
  end.

(** First candidate field holding a number. *)
Fixpoint findDuration (record : list (string * json))
    (fields : list string) : option Z :=
  match fields with
  | [] => None
  | field :: rest =>
      match Json.lookup record field with
      | Some (JNum n) => Some n
      | _ => findDuration record rest
      end
  end.

(** The three guarded assignments made after each nested search. *)
Definition mergeNested (acc nested : SearchResult) : SearchResult :=
  mkSearchResult
    (if Js.truthyOpt (callOutcome nested) && negb (Js.truthyOpt (callOutcome acc))
     then callOutcome nested else callOutcome acc)
    (match callDuration nested, callDuration acc with
     | Some d, None => Some d
     | _, _ => callDuration acc
     end)
    (if Js.truthyOpt (callSummary nested) && negb (Js.truthyOpt (callSummary acc))
     then callSummary nested else callSummary acc).

Section Traversal.

(** The search applied to nested values, one level deeper. *)
Variable search : json -> SearchResult.

(** The loop over [Object.keys(record)]: nested objects and arrays are
    searched until a classification is found.  The properties are visited
    in order; as keys are distinct, [record[key]] is the value paired with
    the key. *)
Fixpoint overKeys (entries : list (string * json)) (acc : SearchResult)
  : SearchResult :=
  match entries with
  | [] => acc
  | (_, value) :: rest =>
      if Json.isObjectNonNull value then
        let acc' := mergeNested acc (search value) in
        if Js.truthyOpt (callOutcome acc') then acc' else overKeys rest acc'
      else overKeys rest acc
  end.

(** The loop over the items of an array. *)
Fixpoint overItems (items : list json) (acc : SearchResult) : SearchResult :=
  match items with
  | [] => acc
  | item :: rest =>
      let acc' := mergeNested acc (search item) in
      if Js.truthyOpt (callOutcome acc') then acc' else overItems rest acc'
  end.

End Traversal.

(** [deepSearchForOutcome(obj, depth)]. *)
Fixpoint deepSearchForOutcome (obj : json) (depth : nat) : SearchResult :=
  if (10 <? depth)%nat then noResult
  else
    match obj with
    | JObj record =>
        let outcome := findClassification record classificationFields in
        let summary := findSummary record summaryFields in
        let duration := findDuration record durationFields in
        if Js.truthyOpt outcome then mkSearchResult outcome duration summary
        else
          overKeys (fun value => deepSearchForOutcome value (S depth))
            record (mkSearchResult outcome duration summary)
    | JArr items =>
        overItems (fun item => deepSearchForOutcome item (S depth))
          items noResult
    | _ => noResult
    end.

(** Outcome of a computation that may raise an exception. *)
Inductive Res (A : Type) : Type :=
| Ok (a : A)
| Throw (error : string).

Arguments Ok {A} a.
Arguments Throw {A} error.

Record Extracted : Type := mkExtracted {
  outcome : string;
  duration : option Z;
  summary : option string
}.

Definition isNull (value : json) : bool :=
  match value with JNull => true | _ => false end.

(** [`${value}`] for a property read that may have come back undefined. *)
Definition shown (value : option json) : option string :=
  match value with
  | Some v => Json.toString v
  | None => Some "undefined"
  end.

(** One turn of the debug loop over [fullResponse.events]: the exception
    it raises, if any.  Reading [e.type] of a null event raises; the
    template literal then converts [e.type] and
    [e.event_name || e.integration_name || "?"] to strings, in this
    order. *)
Definition eventFault (event : json) : option string :=
  if isNull event then Some "Cannot read properties of null (reading 'type')"
  else
    let name :=
      if Json.truthyProp (Json.getProp event "event_name")
      then Json.getProp event "event_name"
      else if Json.truthyProp (Json.getProp event "integration_name")
      then Json.getProp event "integration_name"
      else Some (JStr "?") in
    match shown (Json.getProp event "type"), shown name with
    | Some _, Some _ => None
    | _, _ => Some Json.typeError
    end.

(** The loop stops at the first event that raises. *)
Fixpoint eventsFault (events : list json) : option string :=
  match events with
  | [] => None
  | event :: rest =>
      match eventFault event with
      | Some message => Some message
      | None => eventsFault rest
      end
  end.

(** The message of the exception the debug logging raises, if any:
    [Object.keys] rejects null, and the loop over the events may raise. *)
Definition loggingFault (fullResponse : json) : option string :=
  if isNull fullResponse then
    Some "Cannot convert undefined or null to object"
  else
    match Json.getProp fullResponse "events" with
    | Some (JArr events) => eventsFault events
    | _ => None
    end.

(** [extractOutcome(fullResponse, runStatus)]. *)
Definition extractOutcome (fullResponse : json) (runStatus : string)
  : Res Extracted :=
  let result := deepSearchForOutcome fullResponse 0 in
  match loggingFault fullResponse with
  | Some message => Throw message
  | None =>
    let fallback :=
      match callOutcome result with
      | Some o => o
      | None => "COMPLETED_UNKNOWN"
      end in
    let connectFailed :=
      match callDuration result with
      | Some d => d =? 0
      | None => false
      end
      && (String.eqb runStatus "completed" || String.eqb runStatus "canceled")
      && negb (Js.truthyOpt (callOutcome result)) in
    Ok (mkExtracted (if connectFailed then "CONNECT_FAILED" else fallback)
          (callDuration result) (callSummary result))
  end.

(** ** The data store

    Rows of the Call and Campaign tables as the worker reads and writes
    them.  Timestamps are milliseconds since the epoch. *)

Module CallStatus.

Inductive t : Type := PENDING | RUNNING | COMPLETED | FAILED | CANCELED.

Definition eqb (a b : t) : bool :=
  match a, b with
  | PENDING, PENDING | RUNNING, RUNNING | COMPLETED, COMPLETED
  | FAILED, FAILED | CANCELED, CANCELED => true
  | _, _ => false
  end.

End CallStatus.

Module Call.

(** Modelled from the spec: the schema of the Call table is not part of the
    sources; a call has the fields the worker reads and writes, and
    [updatedAt] is the row's last-update time, refreshed by every update.
    The debtor and its invoices, read-only inputs of the trigger payload,
    stand behind [debtorPhone]. *)
Record t : Type := mk {
  id : string;
  campaignId : string;
  status : CallStatus.t;
  runId : option string;
  attemptNumber : Z;
  debtorPhone : string;
  createdAt : Z;
  updatedAt : Z;
  triggeredAt : option Z;
  completedAt : option Z;
  callOutcome : option string;
  callDuration : option Z;
  callSummary : option string;
  metadata : option string;
  errorMessage : option string
}.

(** The [data] argument of an update: [None] leaves a column as it is; for
    the nullable columns the poll phase writes, [Some None] stores null. *)
Record data : Type := mkData {
  setStatus : option CallStatus.t;
  setRunId : option string;
  setTriggeredAt : option Z;
  setCompletedAt : option Z;
  setCallOutcome : option string;
  setCallDuration : option (option Z);
  setCallSummary : option (option string);
  setMetadata : option (option string);
  setErrorMessage : option string
}.

Definition orElse {A : Type} (new : option A) (old : A) : A :=
  match new with Some a => a | None => old end.

Definition orKeep {A : Type} (new old : option A) : option A :=
  match new with Some a => Some a | None => old end.

(** The row after an update performed at time [now]. *)
Definition apply (d : data) (now : Z) (c : t) : t :=
  mk (id c) (campaignId c)
     (orElse (setStatus d) (status c))
     (orKeep (setRunId d) (runId c))
     (attemptNumber c) (debtorPhone c)
     (createdAt c) now
     (orKeep (setTriggeredAt d) (triggeredAt c))
     (orKeep (setCompletedAt d) (completedAt c))
     (orKeep (setCallOutcome d) (callOutcome c))
     (orElse (setCallDuration d) (callDuration c))
     (orElse (setCallSummary d) (callSummary c))
     (orElse (setMetadata d) (metadata c))
     (orKeep (setErrorMessage d) (errorMessage c)).

End Call.

Module Campaign.

(** Modelled from the spec: the schema of the Campaign table is not part of
    the sources; a campaign has an identity, the active and paused flags, a
    lifecycle status and start/completion timestamps. *)
Record t : Type := mk {
  id : string;
  name : string;
  isActive : bool;
  isQueuePaused : bool;
  status : string;
  startedAt : option Z;
  completedAt : option Z
}.

Record data : Type := mkData {
  setStatus : option string;
  setStartedAt : option Z;
  setCompletedAt : option Z
}.

Definition apply (d : data) (c : t) : t :=
  mk (id c) (name c) (isActive c) (isQueuePaused c)
     (Call.orElse (setStatus d) (status c))
     (Call.orKeep (setStartedAt d) (startedAt c))
     (Call.orKeep (setCompletedAt d) (completedAt c)).

End Campaign.

(** The [stats] object exposed for monitoring. *)
Module Stats.

Record t : Type := mk {
  startedAt : option Z;
  campaignId : option string;
  campaignName : option string;
  totalTriggered : Z;
  totalCompleted : Z;
  totalFailed : Z;
  lastCycleAt : option Z;
  lastError : option string;
  consecutiveErrors : Z
}.

Definition initial : t := mk None None None 0 0 0 None None 0.

Definition incTriggered (s : t) : t :=
  mk (startedAt s) (campaignId s) (campaignName s) (totalTriggered s + 1)
     (totalCompleted s) (totalFailed s) (lastCycleAt s) (lastError s)
     (consecutiveErrors s).

Definition incCompleted (s : t) : t :=
  mk (startedAt s) (campaignId s) (campaignName s) (totalTriggered s)
     (totalCompleted s + 1) (totalFailed s) (lastCycleAt s) (lastError s)
     (consecutiveErrors s).

Definition incFailed (s : t) : t :=
  mk (startedAt s) (campaignId s) (campaignName s) (totalTriggered s)
     (totalCompleted s) (totalFailed s + 1) (lastCycleAt s) (lastError s)
     (consecutiveErrors s).

Definition withLastError (e : string) (s : t) : t :=
  mk (startedAt s) (campaignId s) (campaignName s) (totalTriggered s)
     (totalCompleted s) (totalFailed s) (lastCycleAt s) (Some e)
     (consecutiveErrors s).

(** After a cycle: [lastCycleAt = new Date()], [consecutiveErrors = 0]. *)
Definition cycleDone (now : Z) (s : t) : t :=
  mk (startedAt s) (campaignId s) (campaignName s) (totalTriggered s)
     (totalCompleted s) (totalFailed s) (Some now) (lastError s) 0.

(** In the catch block: [consecutiveErrors] and [lastError]. *)
Definition cycleFailed (n : Z) (e : string) (s : t) : t :=
  mk (startedAt s) (campaignId s) (campaignName s) (totalTriggered s)
     (totalCompleted s) (totalFailed s) (lastCycleAt s) (Some e) n.

(** The reset made once the active campaign is known; [lastCycleAt] is
    not part of it. *)
Definition started (now : Z) (cid cname : string) (s : t) : t :=
  mk (Some now) (Some cid) (Some cname) 0 0 0 (lastCycleAt s) None 0.

End Stats.

(** Effects the worker performs, in the order it awaits them. *)
Inductive Event : Type :=
| EvSleep (ms : Z)
| EvTriggerFetch (callId : string)
| EvPollFetch (runId : string)
| EvCampaignFindFirstActive
| EvCampaignFindUnique (id : string)
| EvCampaignUpdate (id : string) (d : Campaign.data)
| EvCallCount (campaignId : string) (status : CallStatus.t)
| EvCallFindStale (cutoff : Z)
| EvCallFindPending (campaignId : string) (take : Z)
| EvCallFindRunning (campaignId : string)
| EvCallUpdate (id : string) (d : Call.data)
| EvCallUpdateMany (ids : list string) (d : Call.data).

(** The store, the module-level variables of the worker, the number of
    awaits performed so far and the effects performed so far (newest
    first). *)
Record World : Type := mkWorld {
  calls : list Call.t;
  campaigns : list Campaign.t;
  isRunning : bool;
  shouldStop : bool;
  consecutiveErrors : Z;
  stats : Stats.t;
  ticks : nat;
  trace : list Event
}.

Definition withCalls (cs : list Call.t) (w : World) : World :=
  mkWorld cs (campaigns w) (isRunning w) (shouldStop w)
    (consecutiveErrors w) (stats w) (ticks w) (trace w).

Definition withCampaigns (cs : list Campaign.t) (w : World) : World :=
  mkWorld (calls w) cs (isRunning w) (shouldStop w)
    (consecutiveErrors w) (stats w) (ticks w) (trace w).

Definition withIsRunning (b : bool) (w : World) : World :=
  mkWorld (calls w) (campaigns w) b (shouldStop w)
    (consecutiveErrors w) (stats w) (ticks w) (trace w).

Definition withShouldStop (b : bool) (w : World) : World :=
  mkWorld (calls w) (campaigns w) (isRunning w) b
    (consecutiveErrors w) (stats w) (ticks w) (trace w).

Definition withConsecutiveErrors (n : Z) (w : World) : World :=
  mkWorld (calls w) (campaigns w) (isRunning w) (shouldStop w)
    n (stats w) (ticks w) (trace w).

Definition withStats (s : Stats.t) (w : World) : World :=
  mkWorld (calls w) (campaigns w) (isRunning w) (shouldStop w)
    (consecutiveErrors w) s (ticks w) (trace w).

(** ** The environment of a run

    What the worker does not decide: its configuration, the clock, the
    failures of the database, the provider's answers and the stop requests
    of the control surface.  Every await of the worker advances [ticks];
    the environment is consulted at the tick of the await. *)

(** What the POST to the provider's webhook comes back with. *)
Inductive TriggerHttp : Type :=
| TriggerException (message : string)
| TriggerHttpError (status : Z) (errorText : string)
| TriggerBody (data : json).

(** What the GET of a run comes back with; a body of [None] is a body that
    does not parse as JSON. *)
Inductive PollHttp : Type :=
| PollException
| PollResponse (status : Z) (body : option json).

Record Env : Type := mkEnv {
  MAX_CONCURRENT : Z;
  HAPPYROBOT_WEBHOOK_URL : string;
  HAPPYROBOT_API_KEY : string;
  HAPPYROBOT_ORG_ID : string;
  clock : nat -> Z;
  dbFails : nat -> bool;
  triggerFetch : nat -> Call.t -> TriggerHttp;
  pollFetch : nat -> string -> PollHttp;
  stopRequested : nat -> bool;
  JSON_stringify : json -> option string;
  Date_parse : string -> option Z
}.

Definition POLL_INTERVAL : Z := 10000.
Definition PAUSED_CHECK_INTERVAL : Z := 30000.
Definition MAX_CONSECUTIVE_ERRORS : Z := 5.
Definition ERROR_BACKOFF_BASE : Z := 5000.
Definition RUNNING_CALL_TIMEOUT_MS : Z := 40 * 60 * 1000.
Definition ZOMBIE_CLEANUP_EVERY_CYCLES : Z := 20.

(** ** The monad of the worker: state and exceptions *)

Definition M (A : Type) : Type := World -> Res A * World.

Definition ret {A : Type} (a : A) : M A := fun w => (Ok a, w).

Definition bind {A B : Type} (m : M A) (f : A -> M B) : M B :=
  fun w =>
    match m w with
    | (Ok a, w') => f a w'
    | (Throw e, w') => (Throw e, w')
    end.

Definition throw {A : Type} (e : string) : M A := fun w => (Throw e, w).

(** [try { m } catch (e) { handler e }]. *)
Definition tryCatch {A : Type} (m : M A) (handler : string -> M A) : M A :=
  fun w =>
    match m w with
    | (Ok a, w') => (Ok a, w')
    | (Throw e, w') => handler e w'
    end.

Definition gets {A : Type} (f : World -> A) : M A := fun w => (Ok (f w), w).

Definition modify (f : World -> World) : M unit := fun w => (Ok tt, f w).

Declare Scope worker_scope.
Delimit Scope worker_scope with worker.
Notation "x <- m ;; k" := (bind m (fun x => k))
  (at level 61, m at next level, right associativity) : worker_scope.
Notation "m ;; k" := (bind m (fun _ => k))
  (at level 61, right associativity) : worker_scope.
Local Open Scope worker_scope.

Inductive LoopCtl : Type := Next | Break.

(** [for (const x of l) { body }] with a loop-carried state; the body says
    whether the loop goes on ([continue] or end of body) or breaks. *)
Fixpoint forOf {A S : Type} (l : list A) (s : S)
    (body : A -> S -> M (LoopCtl * S)) : M S :=
  match l with
  | [] => ret s
  | x :: rest =>
      r <- body x s ;;
      match r with
      | (Break, s') => ret s'
      | (Next, s') => forOf rest s' body
      end
  end.

(** ** Queries on the tables *)

Definition countCalls (campaignId : string) (st : CallStatus.t)
    (cs : list Call.t) : Z :=
  Z.of_nat (length (filter
    (fun c => String.eqb (Call.campaignId c) campaignId
              && CallStatus.eqb (Call.status c) st) cs)).

Definition leCutoff (t cutoff : Z) : bool := t <=? cutoff.

(** The reaper's filter: RUNNING and ([triggeredAt <= cutoff] or
    ([triggeredAt] null and [updatedAt <= cutoff])). *)
Definition isStale (cutoff : Z) (c : Call.t) : bool :=
  CallStatus.eqb (Call.status c) CallStatus.RUNNING
  && match Call.triggeredAt c with
     | Some t => leCutoff t cutoff
     | None => leCutoff (Call.updatedAt c) cutoff
     end.

Fixpoint insertByCreatedAt (c : Call.t) (l : list Call.t) : list Call.t :=
  match l with
  | [] => [c]
  | x :: rest =>
      if Call.createdAt c <=? Call.createdAt x then c :: l
      else x :: insertByCreatedAt c rest
  end.

(** [orderBy: { createdAt: "asc" }], rows of equal age in table order. *)
Definition orderByCreatedAt (l : list Call.t) : list Call.t :=
  fold_right insertByCreatedAt [] l.

Definition pendingOf (campaignId : string) (take : Z) (cs : list Call.t)
  : list Call.t :=
  firstn (Z.to_nat take)
    (orderByCreatedAt (filter
      (fun c => String.eqb (Call.campaignId c) campaignId
                && CallStatus.eqb (Call.status c) CallStatus.PENDING) cs)).

Definition hasRunId (c : Call.t) : bool :=
  match Call.runId c with Some _ => true | None => false end.

(** [where: { campaignId, status: "RUNNING", runId: { not: null } }]. *)
Definition runningOf (campaignId : string) (cs : list Call.t) : list Call.t :=
  filter (fun c => String.eqb (Call.campaignId c) campaignId
                   && CallStatus.eqb (Call.status c) CallStatus.RUNNING
                   && hasRunId c) cs.

Definition memberOf (ids : list string) (x : string) : bool :=
  existsb (String.eqb x) ids.

(** [update({ where: { id } })]: the row with this primary key; [None] when
    there is no such row (the client raises). *)
Fixpoint updateById (id : string) (f : Call.t -> Call.t) (cs : list Call.t)
  : option (list Call.t) :=
  match cs with
  | [] => None
  | c :: rest =>
      if String.eqb (Call.id c) id then Some (f c :: rest)
      else match updateById id f rest with
           | Some rest' => Some (c :: rest')
           | None => None
           end
  end.

Fixpoint updateCampaignById (id : string) (f : Campaign.t -> Campaign.t)
    (cs : list Campaign.t) : option (list Campaign.t) :=
  match cs with
  | [] => None
  | c :: rest =>
      if String.eqb (Campaign.id c) id then Some (f c :: rest)
      else match updateCampaignById id f rest with
           | Some rest' => Some (c :: rest')
           | None => None
           end
  end.

Definition findCall (id : string) (cs : list Call.t) : option Call.t :=
  find (fun c => String.eqb (Call.id c) id) cs.

Definition findCampaign (id : string) (cs : list Campaign.t)
  : option Campaign.t :=
  find (fun c => String.eqb (Campaign.id c) id) cs.

(** ** The [data] of the worker's updates *)

Definition dataTriggeredAt (now : Z) : Call.data :=
  Call.mkData None None (Some now) None None None None None None.

Definition dataRunning (runId : string) : Call.data :=
  Call.mkData (Some CallStatus.RUNNING) (Some runId)
    None None None None None None None.

Definition dataTriggerFailed (error : option string) (now : Z) : Call.data :=
  Call.mkData (Some CallStatus.FAILED) None None (Some now)
    None None None None error.

Definition dataLost (runId : string) (now : Z) : Call.data :=
  Call.mkData (Some CallStatus.FAILED) None None (Some now)
    (Some "CALL_LOST_BY_PROVIDER") None None None
    (Some ("Run not found at provider (404) for runId=" ++ runId)).

Definition dataTerminal (newStatus : CallStatus.t) (completedAt : Z)
    (x : Extracted) (metadata : option string) : Call.data :=
  Call.mkData (Some newStatus) None None (Some completedAt)
    (Some (outcome x)) (Some (duration x)) (Some (summary x))
    (Some metadata) None.

Definition dataTimeout (now : Z) : Call.data :=
  Call.mkData (Some CallStatus.FAILED) None None (Some now)
    (Some "SYSTEM_TIMEOUT") None None None
    (Some "Marked failed by worker cleanup after exceeding 40 minutes in RUNNING status").

Definition dataCampaignCompleted (now : Z) : Campaign.data :=
  Campaign.mkData (Some "COMPLETED") None (Some now).

Definition dataCampaignStarted (now : Z) : Campaign.data :=
  Campaign.mkData None (Some now) None.

Record TriggerResult : Type := mkTriggerResult {
  success : bool;
  resultRunId : option json;
  error : option string
}.

Record WorkStatus : Type := mkWorkStatus {
  pending : Z;
  running : Z;
  isPaused : bool;
  campaignStatus : string
}.

Record CycleResult : Type := mkCycleResult {
  triggered : Z;
  polled : Z;
  completed : Z
}.

Record WorkerStatus : Type := mkWorkerStatus {
  statusRunning : bool;
  statusHealthy : bool;
  statusStats : Stats.t
}.

(** [value?.[0]]. *)
Definition optIndex0 (value : option json) : option json :=
  match value with
  | Some (JArr (x :: _)) => Some x
  | Some (JStr (String c _)) => Some (JStr (String c EmptyString))
  | Some (JObj fields) => Json.lookup fields "0"
  | _ => None
  end.

(** [statusMap[runStatus]]: an own entry, a property inherited from
    [Object.prototype] (not a string), or [undefined]. *)
Inductive Mapped : Type :=
| MappedTo (s : CallStatus.t)
| Inherited.

Definition statusMap (runStatus : string) : option Mapped :=
  if String.eqb runStatus "pending" then Some (MappedTo CallStatus.RUNNING)
  else if String.eqb runStatus "running" then Some (MappedTo CallStatus.RUNNING)
  else if String.eqb runStatus "completed" then Some (MappedTo CallStatus.COMPLETED)
  else if String.eqb runStatus "failed" then Some (MappedTo CallStatus.FAILED)
  else if String.eqb runStatus "canceled" then Some (MappedTo CallStatus.CANCELED)
  else if String.eqb runStatus "constructor" then Some Inherited
  else if String.eqb runStatus "__proto__" then Some Inherited
  else None.

(** [fullResponse.length > 10000 ? fullResponse.slice(0, 10000) + "..." :
    fullResponse]. *)
Definition truncateResponse (fullResponse : string) : string :=
  if 10000 <? Z.of_nat (String.length fullResponse)
  then substring 0 (Z.to_nat 10000) fullResponse ++ "..."
  else fullResponse.

Inductive LoopEnd : Type := Finished | OutOfFuel.

Section Worker.

Variable E : Env.

(** One await: time passes, the effect is recorded, and a stop request of
    the control surface ([stopWorker]) may have come in meanwhile. *)
Definition awaited (ev : Event) (w : World) : World :=
  mkWorld (calls w) (campaigns w) (isRunning w)
    (shouldStop w || (isRunning w && stopRequested E (ticks w)))
    (consecutiveErrors w) (stats w) (S (ticks w)) (ev :: trace w).

(** [Date.now()] and [new Date()]. *)
Definition now (w : World) : Z := clock E (ticks w).

Definition newDate : M Z := gets now.

Definition sleep (ms : Z) : M unit := modify (awaited (EvSleep ms)).

(** A database operation: it is awaited, and raises when the database
    fails at that moment. *)
Definition db {A : Type} (ev : Event) (run : M A) : M A :=
  fun w =>
    if dbFails E (ticks w) then (Throw "database error", awaited ev w)
    else run (awaited ev w).

Definition campaignFindFirstActive : M (option Campaign.t) :=
  db EvCampaignFindFirstActive
    (gets (fun w => find Campaign.isActive (campaigns w))).

Definition campaignFindUnique (id : string) : M (option Campaign.t) :=
  db (EvCampaignFindUnique id) (gets (fun w => findCampaign id (campaigns w))).

Definition campaignUpdate (id : string) (d : Campaign.data) : M unit :=
  db (EvCampaignUpdate id d)
    (fun w =>
       match updateCampaignById id (Campaign.apply d) (campaigns w) with
       | Some cs => (Ok tt, withCampaigns cs w)
       | None => (Throw "Record to update not found", w)
       end).

Definition callCount (campaignId : string) (st : CallStatus.t) : M Z :=
  db (EvCallCount campaignId st)
    (gets (fun w => countCalls campaignId st (calls w))).

Definition callFindStale (cutoff : Z) : M (list string) :=
  db (EvCallFindStale cutoff)
    (gets (fun w => map Call.id (filter (isStale cutoff) (calls w)))).

Definition callFindPending (campaignId : string) (take : Z)
  : M (list Call.t) :=
  db (EvCallFindPending campaignId take)
    (gets (fun w => pendingOf campaignId take (calls w))).

Definition callFindRunning (campaignId : string) : M (list Call.t) :=
  db (EvCallFindRunning campaignId)
    (gets (fun w => runningOf campaignId (calls w))).

Definition callUpdate (id : string) (d : Call.data) : M unit :=
  db (EvCallUpdate id d)
    (fun w =>
       match updateById id (Call.apply d (now w)) (calls w) with
       | Some cs => (Ok tt, withCalls cs w)
       | None => (Throw "Record to update not found", w)
       end).

Definition callUpdateMany (ids : list string) (d : Call.data) : M unit :=
  db (EvCallUpdateMany ids d)
    (modify (fun w =>
       withCalls
         (map (fun c => if memberOf ids (Call.id c)
                        then Call.apply d (now w) c else c) (calls w)) w)).

Definition getActiveCampaign : M (option Campaign.t) :=
  campaignFindFirstActive.

(** [cleanupZombieRunningCalls]: the stale-call reaper. *)
Definition cleanupZombieRunningCalls : M Z :=
  t <- newDate ;;
  let cutoff := t - RUNNING_CALL_TIMEOUT_MS in
  staleCallIds <- callFindStale cutoff ;;
  if (length staleCallIds =? 0)%nat then ret 0
  else
    n <- newDate ;;
    callUpdateMany staleCallIds (dataTimeout n) ;;
    ret (Z.of_nat (length staleCallIds)).

(** [triggerCall]: every failure is absorbed into the result. *)
Definition triggerCall (call : Call.t) : M TriggerResult :=
  fun w =>
    let w' := awaited (EvTriggerFetch (Call.id call)) w in
    match triggerFetch E (ticks w) call with
    | TriggerException message =>
        (Ok (mkTriggerResult false None (Some message)), w')
    | TriggerHttpError st errorText =>
        (Ok (mkTriggerResult false None
               (Some ("HTTP " ++ Json.stringOfZ st ++ ": " ++ errorText))), w')
    | TriggerBody JNull =>
        (Ok (mkTriggerResult false None
               (Some "Cannot read properties of null (reading 'queued_run_ids')")),
         w')
    | TriggerBody data =>
        let runId := optIndex0 (Json.getProp data "queued_run_ids") in
        if Json.truthyProp runId
        then (Ok (mkTriggerResult true runId None), w')
        else (Ok (mkTriggerResult false None
                    (Some "No run ID returned from HappyRobot")), w')
    end.

(** [pollRunStatus]: 404 is reported as [{ status: "not_found" }]; any
    other failure as [null]. *)
Definition pollRunStatus (runId : string) : M json :=
  fun w =>
    let w' := awaited (EvPollFetch runId) w in
    match pollFetch E (ticks w) runId with
    | PollException => (Ok JNull, w')
    | PollResponse st body =>
        if st =? 404 then (Ok (JObj [("status", JStr "not_found")]), w')
        else if negb ((200 <=? st) && (st <=? 299)) then (Ok JNull, w')
        else match body with
             | Some value => (Ok value, w')
             | None => (Ok JNull, w')
             end
    end.

Definition getWorkStatus (campaignId : string) : M WorkStatus :=
  p <- callCount campaignId CallStatus.PENDING ;;
  r <- callCount campaignId CallStatus.RUNNING ;;
  campaign <- campaignFindUnique campaignId ;;
  ret (mkWorkStatus p r
         (match campaign with
          | Some c => Campaign.isQueuePaused c
          | None => false
          end)
         (match campaign with
          | Some c => Campaign.status c
          | None => "UNKNOWN"
          end)).

(** The body of the trigger loop, for one PENDING call of the batch. *)
Definition triggerStep (call : Call.t) (triggered : Z) : M (LoopCtl * Z) :=
  stop <- gets shouldStop ;;
  if stop then ret (Break, triggered)
  else
    t <- newDate ;;
    callUpdate (Call.id call) (dataTriggeredAt t) ;;
    result <- triggerCall call ;;
    if success result && Json.truthyProp (resultRunId result) then
      match resultRunId result with
      | Some (JStr runId) =>
          callUpdate (Call.id call) (dataRunning runId) ;;
          modify (fun w => withStats (Stats.incTriggered (stats w)) w) ;;
          ret (Next, triggered + 1)
      | _ => throw "Invalid value for argument runId: expected String"
      end
    else
      t' <- newDate ;;
      callUpdate (Call.id call) (dataTriggerFailed (error result) t') ;;
      modify (fun w => withStats (Stats.incFailed (stats w)) w) ;;
      ret (Next, triggered).

(** [String(status.status ?? "running").toLowerCase()]; [None] when the
    conversion raises. *)
Definition runStatusOf (status : json) : option string :=
  option_map Js.toLowerCase
    (match Json.getProp status "status" with
     | None | Some JNull => Some "running"
     | Some v => Json.toString v
     end).

(** The stored copy of the raw response. *)
Definition metadataOf (status : json) : option string :=
  match JSON_stringify E status with
  | Some fullResponse => Some (truncateResponse fullResponse)
  | None => Some "Failed to serialize response"
  end.

(** [status.completed_at ? new Date(String(status.completed_at))
    : new Date()], evaluated at time [t]: the conversion to a string may
    raise, and [Ok None] is an invalid date. *)
Definition completedAtOf (status : json) (t : Z) : Res (option Z) :=
  match Json.getProp status "completed_at" with
  | Some v =>
      if Json.truthy v then
        match Json.toString v with
        | Some text => Ok (Date_parse E text)
        | None => Throw Json.typeError
        end
      else Ok (Some t)
  | None => Ok (Some t)
  end.

(** The body of the poll loop from the provider's answer on, for an
    answer that is not null. *)
Definition pollSettle (call : Call.t) (runId : string) (status : json)
    (polled completed : Z) : M (LoopCtl * (Z * Z)) :=
  match runStatusOf status with
  | None => throw Json.typeError
  | Some runStatus =>
      if String.eqb runStatus "not_found" then
        t <- newDate ;;
        callUpdate (Call.id call) (dataLost runId t) ;;
        modify (fun w => withStats (Stats.incFailed (stats w)) w) ;;
        ret (Next, (polled, completed + 1))
      else
        match statusMap runStatus with
        | None | Some (MappedTo CallStatus.RUNNING) =>
            ret (Next, (polled, completed))
        | Some mapped =>
            match extractOutcome status runStatus with
            | Throw e => throw e
            | Ok x =>
                let metadata := metadataOf status in
                t <- newDate ;;
                match completedAtOf status t with
                | Throw e => throw e
                | Ok completedAt =>
                    match mapped, completedAt with
                    | MappedTo newStatus, Some at_ =>
                        callUpdate (Call.id call)
                          (dataTerminal newStatus at_ x metadata) ;;
                        modify (fun w =>
                          withStats (Stats.incCompleted (stats w)) w) ;;
                        ret (Next, (polled, completed + 1))
                    | _, _ =>
                        throw "Invalid value provided to call.update"
                    end
                end
            end
        end
  end.

(** The body of the poll loop, for one RUNNING call. *)
Definition pollStep (call : Call.t) (counts : Z * Z) : M (LoopCtl * (Z * Z)) :=
  let (polled, completed) := counts in
  stop <- gets shouldStop ;;
  if stop then ret (Break, (polled, completed))
  else
    match Call.runId call with
    | None => ret (Next, (polled, completed))
    | Some runId =>
        if Js.isEmpty runId then ret (Next, (polled, completed))
        else
          status <- pollRunStatus runId ;;
          let polled := polled + 1 in
          if negb (Json.truthy status) then ret (Next, (polled, completed))
          else pollSettle call runId status polled completed
    end.

(** [processQueueCycle(campaignId, isPaused)]: the trigger phase, skipped
    when paused, then the poll phase. *)
Definition processQueueCycle (campaignId : string) (paused : bool)
  : M CycleResult :=
  runningCount <- callCount campaignId CallStatus.RUNNING ;;
  nTriggered <-
    (if negb paused then
       let slotsAvailable := MAX_CONCURRENT E - runningCount in
       if 0 <? slotsAvailable then
         errors <- gets consecutiveErrors ;;
         let takeCount :=
           if 2 <? errors then Z.min slotsAvailable 5 else slotsAvailable in
         pendingCalls <- callFindPending campaignId takeCount ;;
         forOf pendingCalls 0 triggerStep
       else ret 0
     else ret 0) ;;
  runningCalls <- callFindRunning campaignId ;;
  counts <- forOf runningCalls (0, 0) pollStep ;;
  ret (mkCycleResult nTriggered (fst counts) (snd counts)).

Definition validateConfig : bool * list string :=
  let errors :=
    ((if Js.isEmpty (HAPPYROBOT_WEBHOOK_URL E)
      then ["HAPPYROBOT_ENDPOINT environment variable is not set"] else [])
     ++ (if Js.isEmpty (HAPPYROBOT_API_KEY E)
         then ["HAPPYROBOT_API_KEY environment variable is not set"] else [])
     ++ (if Js.isEmpty (HAPPYROBOT_ORG_ID E)
         then ["HAPPYROBOT_ORG_ID environment variable is not set"] else []))%list in
  ((length errors =? 0)%nat, errors).

(** [try { m } catch { }] around a step whose failure is not fatal. *)
Definition nonFatal {A : Type} (m : M A) : M unit :=
  tryCatch (m ;; ret tt) (fun _ => ret tt).

(** Runs [m] and hands back its exception, if any, as a value. *)
Definition attempt {A : Type} (m : M A) : M (string + A) :=
  tryCatch (a <- m ;; ret (inr a)) (fun e => ret (inl e)).

(** The head of the try block of a loop iteration: the reaper, every
    [ZOMBIE_CLEANUP_EVERY_CYCLES] cycles. *)
Definition cycleReap (cycleCount : Z) : M unit :=
  if cycleCount mod ZOMBIE_CLEANUP_EVERY_CYCLES =? 0
  then nonFatal cleanupZombieRunningCalls
  else ret tt.

(** Next in the try block: the re-check of the active campaign, and the
    work status.  [None] when the active campaign changed. *)
Definition cycleStatus (campaign : Campaign.t) : M (option WorkStatus) :=
  currentCampaign <- getActiveCampaign ;;
  match currentCampaign with
  | None => ret None
  | Some current =>
      if negb (String.eqb (Campaign.id current) (Campaign.id campaign))
      then ret None
      else
        status <- getWorkStatus (Campaign.id campaign) ;;
        ret (Some status)
  end.

Definition cycleObserve (campaign : Campaign.t) (cycleCount : Z)
  : M (option WorkStatus) :=
  cycleReap cycleCount ;;
  cycleStatus campaign.

(** The rest of the try block, once the work status is known. *)
Definition cycleAct (campaign : Campaign.t) (status : WorkStatus)
  : M LoopCtl :=
  if isPaused status && (running status =? 0) then
    modify (withConsecutiveErrors 0) ;;
    sleep PAUSED_CHECK_INTERVAL ;;
    ret Next
  else if negb (isPaused status) && (pending status =? 0)
          && (running status =? 0) then
    nonFatal (t <- newDate ;;
              campaignUpdate (Campaign.id campaign) (dataCampaignCompleted t)) ;;
    ret Break
  else
    result <- processQueueCycle (Campaign.id campaign) (isPaused status) ;;
    t <- newDate ;;
    modify (fun w =>
      withStats (Stats.cycleDone t (stats w)) (withConsecutiveErrors 0 w)) ;;
    newStatus <- getWorkStatus (Campaign.id campaign) ;;
    sleep (if isPaused status then POLL_INTERVAL else POLL_INTERVAL) ;;
    ret Next.

Definition cycleBody (campaign : Campaign.t) (cycleCount : Z) : M LoopCtl :=
  observed <- cycleObserve campaign cycleCount ;;
  match observed with
  | None => ret Break
  | Some status => cycleAct campaign status
  end.

(** The catch block of a loop iteration. *)
Definition cycleCatch (e : string) : M LoopCtl :=
  modify (fun w =>
    let n := consecutiveErrors w + 1 in
    withStats (Stats.cycleFailed n e (stats w)) (withConsecutiveErrors n w)) ;;
  errors <- gets consecutiveErrors ;;
  if MAX_CONSECUTIVE_ERRORS <=? errors then ret Break
  else
    sleep (Z.min (ERROR_BACKOFF_BASE * 2 ^ (errors - 1)) 60000) ;;
    ret Next.

(** One iteration of the [while] loop, [cycleCount] already incremented. *)
Definition loopIteration (campaign : Campaign.t) (cycleCount : Z)
  : M LoopCtl :=
  tryCatch (cycleBody campaign cycleCount) cycleCatch.

(** [while (!shouldStop) { ... }], for at most [fuel] iterations. *)
Fixpoint workerLoop (fuel : nat) (campaign : Campaign.t) (cycleCount : Z)
  : M LoopEnd :=
  stop <- gets shouldStop ;;
  if stop then ret Finished
  else
    match fuel with
    | O => ret OutOfFuel
    | S fuel' =>
        ctl <- loopIteration campaign (cycleCount + 1) ;;
        match ctl with
        | Break => ret Finished
        | Next => workerLoop fuel' campaign (cycleCount + 1)
        end
    end.

Definition stopped : M LoopEnd :=
  modify (withIsRunning false) ;; ret Finished.

Definition failedToStart (prefix e : string) : M LoopEnd :=
  modify (fun w => withStats (Stats.withLastError (prefix ++ e) (stats w)) w) ;;
  stopped.

(** The loop and the two assignments that follow it. *)
Definition runLoop (fuel : nat) (campaign : Campaign.t) : M LoopEnd :=
  ended <- workerLoop fuel campaign 0 ;;
  match ended with
  | Finished =>
      modify (fun w => withShouldStop false (withIsRunning false w)) ;;
      ret Finished
  | OutOfFuel => ret OutOfFuel
  end.

(** [runWorkerLoop], after its startup cleanup: configuration, the active
    campaign, the initial work status, and the loop. *)
Definition startCampaign (fuel : nat) : M LoopEnd :=
  if negb (fst validateConfig) then
    failedToStart "Config errors: " (Json.joinWith ", " (snd validateConfig))
  else
    fetched <- attempt getActiveCampaign ;;
    match fetched with
    | inl e => failedToStart "Database error: " e
    | inr None => stopped
    | inr (Some campaign) =>
        t <- newDate ;;
        modify (fun w =>
          withStats (Stats.started t (Campaign.id campaign)
                       (Campaign.name campaign) (stats w))
            (withConsecutiveErrors 0 w)) ;;
        initial <- attempt (getWorkStatus (Campaign.id campaign)) ;;
        match initial with
        | inl e => failedToStart "Database error: " e
        | inr initialStatus =>
            if (pending initialStatus =? 0) && (running initialStatus =? 0)
            then
              nonFatal (t' <- newDate ;;
                        campaignUpdate (Campaign.id campaign)
                          (dataCampaignCompleted t')) ;;
              stopped
            else
              (match Campaign.startedAt campaign with
               | None =>
                   nonFatal (t' <- newDate ;;
                             campaignUpdate (Campaign.id campaign)
                               (dataCampaignStarted t'))
               | Some _ => ret tt
               end) ;;
              runLoop fuel campaign
        end
    end.

(** [runWorkerLoop]. *)
Definition runWorkerLoop (fuel : nat) : M LoopEnd :=
  nonFatal cleanupZombieRunningCalls ;;
  startCampaign fuel.

(** [startWorker]: the loop itself runs as a task of its own. *)
Definition startWorker : M (bool * string) :=
  alreadyRunning <- gets isRunning ;;
  if alreadyRunning then ret (false, "Worker is already running")
  else
    modify (fun w => withShouldStop false (withIsRunning true w)) ;;
    ret (true, "Worker started").

(** The task started by [startWorker]:
    [runWorkerLoop().catch(() => { isRunning = false })]. *)
Definition workerTask (fuel : nat) : M LoopEnd :=
  tryCatch (runWorkerLoop fuel)
    (fun _ => modify (withIsRunning false) ;; ret Finished).

Definition stopWorker : M (bool * string) :=
  nowRunning <- gets isRunning ;;
  if negb nowRunning then ret (true, "Worker is not running")
  else
    modify (withShouldStop true) ;;
    ret (true, "Worker stop signal sent").

Definition getWorkerStatus (w : World) : WorkerStatus :=
  mkWorkerStatus (isRunning w)
    (isRunning w && (consecutiveErrors w <? MAX_CONSECUTIVE_ERRORS))
    (stats w).

End Worker.

(** * The modules around the worker

    The database client the worker imports, the access rules and the
    route handlers that start and stop the worker, and the CSV reader of
    the upload handler that queues the calls. *)

(** The character U+0022. *)
Definition doubleQuote : ascii := "034"%char.

(** ** The database client (lib/prisma) *)

Module Prisma.

(** [appendPoolParams(url)]: the pool settings appended to the database
    URL. *)
Definition appendPoolParams (url : string) : string :=
  if Js.isEmpty url then url
  else
    let separator := if Js.includes url "?" then "&" else "?" in
    url ++ separator ++ "connection_limit=5&pool_timeout=10".

End Prisma.

(** ** Roles and permissions (lib/auth) *)

Module Auth.

(** The type [Role]: the three keys of [ROLES]. *)
Inductive Role : Type := ADMIN | OPERATOR | VIEWER.

Definition ROLE_PERMISSIONS (role : Role) : list string :=
  match role with
  | ADMIN => ["view"; "operate"; "manage_users"; "manage_settings"]
  | OPERATOR => ["view"; "operate"]
  | VIEWER => ["view"]
  end.

(** [ROLE_PERMISSIONS[role]?.includes(permission) ?? false], on the roles
    of the type. *)
Definition hasPermission (role : Role) (permission : string) : bool :=
  existsb (String.eqb permission) (ROLE_PERMISSIONS role).

Definition canOperate (role : Role) : bool := hasPermission role "operate".

Definition canManageUsers (role : Role) : bool :=
  hasPermission role "manage_users".

End Auth.

(** ** Responses of the route handlers *)

(** The value handed to [NextResponse.json]: a JSON object, or the status
    of the worker with its statistics. *)
Inductive Payload : Type :=
| Body (value : json)
| WorkerState (status : string) (running : bool) (stats : Stats.t).

Record Response : Type := mkResponse {
  httpStatus : Z;
  payload : Payload
}.

Definition messageBody (message : string) : Payload :=
  Body (JObj [("message", JStr message)]).

(** ** Guards of the route handlers (lib/auth-api) *)

Module AuthApi.

Record User : Type := mkUser {
  userId : string;
  email : string;
  role : Auth.Role
}.

Inductive AuthResult : Type :=
| Authenticated (user : User)
| Unauthenticated (response : Response).

(** [requireAuth], on the session [auth()] resolves to; [None] is a
    missing session or a session without user. *)
Definition requireAuth (session : option User) : AuthResult :=
  match session with
  | None =>
      Unauthenticated
        (mkResponse 401 (Body (JObj [("error", JStr "Unauthorized")])))
  | Some user => Authenticated (mkUser (userId user) (email user) (role user))
  end.

Definition requireOperator (session : option User) : AuthResult :=
  match requireAuth session with
  | Unauthenticated response => Unauthenticated response
  | Authenticated user =>
      if negb (Auth.canOperate (role user)) then
        Unauthenticated
          (mkResponse 403
             (Body (JObj [("error",
                           JStr "Forbidden: Operator access required")])))
      else Authenticated user
  end.

Definition requireAdmin (session : option User) : AuthResult :=
  match requireAuth session with
  | Unauthenticated response => Unauthenticated response
  | Authenticated user =>
      if negb (Auth.canManageUsers (role user)) then
        Unauthenticated
          (mkResponse 403
             (Body (JObj [("error",
                           JStr "Forbidden: Admin access required")])))
      else Authenticated user
  end.

End AuthApi.

(** ** The worker's control route (api/campaign/worker) *)

Module WorkerRoute.

Local Open Scope worker_scope.

(** [POST]: starts the worker. *)
Definition POST (session : option AuthApi.User) : M Response :=
  match AuthApi.requireOperator session with
  | AuthApi.Unauthenticated response => ret response
  | AuthApi.Authenticated _ =>
      tryCatch
        (result <- startWorker ;;
         ret (mkResponse 200
                (Body (JObj
                   [ ("success", JBool (fst result));
                     ("message", JStr (snd result));
                     ("status",
                      JStr (if fst result then "running"
                            else "already_running")) ]))))
        (fun _ =>
           ret (mkResponse 500
                  (Body (JObj
                     [ ("success", JBool false);
                       ("message", JStr "Failed to start worker") ]))))
  end.

(** [GET]: the status of the worker. *)
Definition GET (session : option AuthApi.User) : M Response :=
  match AuthApi.requireAuth session with
  | AuthApi.Unauthenticated response => ret response
  | AuthApi.Authenticated _ =>
      status <- gets getWorkerStatus ;;
      ret (mkResponse 200
             (WorkerState
                (if statusRunning status then "running" else "idle")
                (statusRunning status) (statusStats status)))
  end.

(** [DELETE]: asks the worker to stop. *)
Definition DELETE (session : option AuthApi.User) : M Response :=
  match AuthApi.requireOperator session with
  | AuthApi.Unauthenticated response => ret response
  | AuthApi.Authenticated _ =>
      result <- stopWorker ;;
      ret (mkResponse 200
             (Body (JObj
                [ ("success", JBool (fst result));
                  ("message", JStr (snd result));
                  ("status", JStr "stopping") ])))
  end.

End WorkerRoute.

(** ** The campaign routes that start the worker

    A handler runs as one computation on the world: the worker takes no
    step while a request is served.  The handlers' queries are awaited and
    may fail like the worker's; they are not effects of the worker and the
    worker's record of effects does not list them. *)

Module CampaignRoutes.

Local Open Scope worker_scope.

(** One await of a handler: time passes. *)
Definition elapsed (w : World) : World :=
  mkWorld (calls w) (campaigns w) (isRunning w) (shouldStop w)
    (consecutiveErrors w) (stats w) (S (ticks w)) (trace w).

(** The update of the start route: [isQueuePaused: false],
    [status: "ACTIVE"], [startedAt: campaign.startedAt ?? new Date()]. *)
Definition resumed (startedAt : Z) (c : Campaign.t) : Campaign.t :=
  Campaign.mk (Campaign.id c) (Campaign.name c) (Campaign.isActive c) false
    "ACTIVE" (Some startedAt) (Campaign.completedAt c).

(** [updateMany({ where: { isActive: true }, data: { isActive: false } })]
    on one row. *)
Definition deactivated (c : Campaign.t) : Campaign.t :=
  if Campaign.isActive c then
    Campaign.mk (Campaign.id c) (Campaign.name c) false
      (Campaign.isQueuePaused c) (Campaign.status c) (Campaign.startedAt c)
      (Campaign.completedAt c)
  else c.

(** The update of the activate action: [isActive: true],
    [status: "ACTIVE"], [isQueuePaused: false]. *)
Definition activated (c : Campaign.t) : Campaign.t :=
  Campaign.mk (Campaign.id c) (Campaign.name c) true false "ACTIVE"
    (Campaign.startedAt c) (Campaign.completedAt c).

(** The update of the archive action: [status: "ARCHIVED"]. *)
Definition archived (c : Campaign.t) : Campaign.t :=
  Campaign.mk (Campaign.id c) (Campaign.name c) (Campaign.isActive c)
    (Campaign.isQueuePaused c) "ARCHIVED" (Campaign.startedAt c)
    (Campaign.completedAt c).

Section Handlers.

Variable E : Env.

(** A query of a handler: it is awaited, and raises when the database
    fails at that moment. *)
Definition query {A : Type} (run : M A) : M A :=
  fun w =>
    if dbFails E (ticks w) then (Throw "database error", elapsed w)
    else run (elapsed w).

Definition findFirstActive : M (option Campaign.t) :=
  query (gets (fun w => find Campaign.isActive (campaigns w))).

Definition findUnique (id : string) : M (option Campaign.t) :=
  query (gets (fun w => findCampaign id (campaigns w))).

(** [call.groupBy] by status over PENDING and RUNNING: the two counts. *)
Definition countOpenCalls (campaignId : string) : M (Z * Z) :=
  query (gets (fun w =>
    (countCalls campaignId CallStatus.PENDING (calls w),
     countCalls campaignId CallStatus.RUNNING (calls w)))).

Definition update (id : string) (f : Campaign.t -> Campaign.t) : M unit :=
  query (fun w =>
    match updateCampaignById id f (campaigns w) with
    | Some cs => (Ok tt, withCampaigns cs w)
    | None => (Throw "Record to update not found", w)
    end).

Definition deactivateAll : M unit :=
  query (modify (fun w => withCampaigns (map deactivated (campaigns w)) w)).

(** [POST /api/campaign/start]. *)
Definition start (session : option AuthApi.User) : M Response :=
  match AuthApi.requireOperator session with
  | AuthApi.Unauthenticated response => ret response
  | AuthApi.Authenticated _ =>
      tryCatch
        (active <- findFirstActive ;;
         match active with
         | None =>
             ret (mkResponse 400
                    (messageBody
                       "No active campaign. Please upload a CSV first."))
         | Some campaign =>
             counts <- countOpenCalls (Campaign.id campaign) ;;
             let pendingCalls := fst counts in
             let runningCalls := snd counts in
             if (pendingCalls =? 0) && (runningCalls =? 0) then
               ret (mkResponse 400
                      (messageBody "No calls to process in this campaign."))
             else
               t <- gets (fun w => clock E (ticks w)) ;;
               update (Campaign.id campaign)
                 (resumed (match Campaign.startedAt campaign with
                           | Some s => s
                           | None => t
                           end)) ;;
               workerResult <- startWorker ;;
               ret (mkResponse 200
                      (Body (JObj
                         [ ("success", JBool true);
                           ("message", JStr "Campaign started");
                           ("campaignId", JStr (Campaign.id campaign));
                           ("campaignName", JStr (Campaign.name campaign));
                           ("pendingCalls", JNum pendingCalls);
                           ("runningCalls", JNum runningCalls) ])))
         end)
        (fun _ =>
           ret (mkResponse 500 (messageBody "Failed to start campaign")))
  end.

(** The message [Campaign "name" what]. *)
Definition campaignMessage (campaign : Campaign.t) (what : string) : string :=
  "Campaign " ++ String doubleQuote (Campaign.name campaign)
  ++ String doubleQuote (" " ++ what).

(** [POST /api/campaigns/[id]?action=...]: [action] is the query
    parameter, [None] when it is absent. *)
Definition act (session : option AuthApi.User) (id : string)
    (action : option string) : M Response :=
  match AuthApi.requireOperator session with
  | AuthApi.Unauthenticated response => ret response
  | AuthApi.Authenticated _ =>
      tryCatch
        (found <- findUnique id ;;
         match found with
         | None => ret (mkResponse 404 (messageBody "Campaign not found"))
         | Some campaign =>
             let asked (name : string) :=
               match action with
               | Some a => String.eqb a name
               | None => false
               end in
             if asked "activate" then
               stopWorker ;;
               deactivateAll ;;
               update id activated ;;
               workerResult <- startWorker ;;
               ret (mkResponse 200
                      (Body (JObj
                         [ ("success", JBool true);
                           ("message",
                            JStr (campaignMessage campaign "activated"));
                           ("workerStarted", JBool (fst workerResult)) ])))
             else if asked "archive" then
               if Campaign.isActive campaign then
                 ret (mkResponse 400
                        (messageBody
                           "Cannot archive the active campaign. Activate another campaign first."))
               else
                 update id archived ;;
                 ret (mkResponse 200
                        (Body (JObj
                           [ ("success", JBool true);
                             ("message",
                              JStr (campaignMessage campaign "archived")) ])))
             else
               ret (mkResponse 400
                      (messageBody
                         "Invalid action. Use ?action=activate or ?action=archive"))
         end)
        (fun _ =>
           ret (mkResponse 500 (messageBody "Failed to perform action")))
  end.

End Handlers.

End CampaignRoutes.

(** ** The CSV reader of the upload route (api/upload) *)

Module Csv.

Definition isQuote (c : ascii) : bool := Ascii.eqb c doubleQuote.

Definition isComma (c : ascii) : bool := Ascii.eqb c ","%char.

(** The loop of [parseCSVLine] from position [i] on: [line] is what is
    left of the line, [inQuotes] and [current] are the loop's variables
    and [result] the fields pushed so far. *)
Fixpoint parseFrom (line : string) (inQuotes : bool) (current : string)
    (result : list string) : list string :=
  match line with
  | EmptyString => (result ++ [current])%list
  | String char rest =>
      if isQuote char then
        match rest with
        | String next rest' =>
            if inQuotes && isQuote next
            then parseFrom rest' inQuotes
                   (current ++ String doubleQuote EmptyString) result
            else parseFrom rest (negb inQuotes) current result
        | EmptyString => parseFrom rest (negb inQuotes) current result
        end
      else if isComma char && negb inQuotes then
        parseFrom rest inQuotes EmptyString (result ++ [current])%list
      else parseFrom rest inQuotes (current ++ String char EmptyString) result
  end.

(** [parseCSVLine(line)]. *)
Definition parseCSVLine (line : string) : list string :=
  parseFrom line false EmptyString [].

Definition isDigit (c : ascii) : bool :=
  let n := nat_of_ascii c in ((48 <=? n) && (n <=? 57))%nat.

Definition isPlus (c : ascii) : bool := Ascii.eqb c "+"%char.

(** [phone.replace(/[^\d+]/g, "")]. *)
Fixpoint keepDialable (phone : string) : string :=
  match phone with
  | EmptyString => EmptyString
  | String c rest =>
      if isDigit c || isPlus c then String c (keepDialable rest)
      else keepDialable rest
  end.

(** [formatPhone(phone)]. *)
Definition formatPhone (phone : string) : string :=
  let cleaned := keepDialable phone in
  if Js.truthyString cleaned then cleaned else "".

End Csv.

(** ** The classifier's vocabulary *)

(** The keywords of [classifyOutcome] with their outcome codes, in the
    order the chain checks them. *)
Definition vocabulary : list (string * string) :=
  [ ("canceled", "SYSTEM_CANCELED"); ("cancelled", "SYSTEM_CANCELED");
    ("promise", "PAYMENT_PROMISED"); ("will_pay", "PAYMENT_PROMISED");
    ("will pay", "PAYMENT_PROMISED"); ("payment_promised", "PAYMENT_PROMISED");
    ("decline", "DECLINED"); ("refuse", "DECLINED"); ("rejected", "DECLINED");
    ("dispute", "DISPUTED");
    ("no_answer", "NO_ANSWER"); ("no answer", "NO_ANSWER");
    ("unanswered", "NO_ANSWER"); ("not_reached", "NO_ANSWER");
    ("not reached", "NO_ANSWER");
    ("voicemail", "VOICEMAIL"); ("voice_mail", "VOICEMAIL"); ("vm", "VOICEMAIL");
    ("wrong_number", "WRONG_NUMBER"); ("wrong number", "WRONG_NUMBER");
    ("invalid", "WRONG_NUMBER");
    ("callback", "CALLBACK_REQUESTED"); ("call_back", "CALLBACK_REQUESTED");
    ("call back", "CALLBACK_REQUESTED") ].

(** The vocabulary as the specification words it. *)
Definition specVocabulary : list (string * string) :=
  [ ("promise", "PAYMENT_PROMISED"); ("will pay", "PAYMENT_PROMISED");
    ("decline", "DECLINED"); ("refuse", "DECLINED");
    ("no answer", "NO_ANSWER"); ("not reached", "NO_ANSWER");
    ("voicemail", "VOICEMAIL");
    ("wrong number", "WRONG_NUMBER"); ("invalid", "WRONG_NUMBER");
    ("callback", "CALLBACK_REQUESTED");
    ("dispute", "DISPUTED");
    ("cancel", "SYSTEM_CANCELED") ].

(** The entries of a vocabulary whose keyword occurs in [value], case
    ignored. *)
Definition keywordsIn (vocab : list (string * string)) (value : string)
  : list (string * string) :=
  filter (fun kw => Js.includes (Js.toLowerCase value) (fst kw)) vocab.

(** The specification's reading of the classifier over a vocabulary: an
    input holding exactly one keyword gets that keyword's outcome code. *)
Definition classifiesBy (vocab : list (string * string)) : Prop :=
  forall value keyword code,
    keywordsIn vocab value = [(keyword, code)] ->
    classifyOutcome value = Some code.

(** A keyword that neither starts nor ends with white space. *)
Fixpoint endsNonSpace (k : string) : bool :=
  match k with
  | EmptyString => false
  | String c EmptyString => negb (Js.isSpace c)
  | String _ k' => endsNonSpace k'
  end.

Definition startsNonSpace (k : string) : bool :=
  match k with
  | EmptyString => false
  | String c _ => negb (Js.isSpace c)
  end.

(** ** Sample provider responses *)

(** A response with a duration of 30 nested under "data" and the given
    text in its "outcome" field. *)
Definition nestedDuration (text : string) : json :=
  JObj [("outcome", JStr text); ("data", JObj [("duration", JNum 30)])].

Definition durationOnly : json := JObj [("call_duration", JNum 42)].

(** A response whose event list holds a null entry. *)
Definition nullEventResponse : json := JObj [("events", JArr [JNull])].

(** The specification's reading of the search: the duration returned is
    the same whether or not a classification field matches. *)
Definition collectedIndependently : Prop :=
  forall (text text' : string) (rest : list (string * json)),
    callDuration
      (deepSearchForOutcome (JObj (("outcome", JStr text) :: rest)) 0)
    = callDuration
        (deepSearchForOutcome (JObj (("outcome", JStr text') :: rest)) 0).

(** The nested objects and arrays of a record, in the order of its keys. *)
Definition nestedValues (record : list (string * json)) : list json :=
  filter Json.isObjectNonNull (map snd record).

(** The results of the nested searches that the loop over the keys takes
    into account: those up to and including the first that holds a
    classification. *)
Fixpoint visitedUntilClassified (results : list SearchResult)
  : list SearchResult :=
  match results with
  | [] => []
  | r :: rest =>
      if Js.truthyOpt (callOutcome r) then [r]
      else r :: visitedUntilClassified rest
  end.

(** The first value that is not null. *)
Fixpoint firstSome {A : Type} (candidates : list (option A)) : option A :=
  match candidates with
  | [] => None
  | Some a :: _ => Some a
  | None :: rest => firstSome rest
  end.

(** The first string that is neither null nor empty. *)
Fixpoint firstTruthy (candidates : list (option string)) : option string :=
  match candidates with
  | [] => None
  | candidate :: rest =>
      if Js.truthyOpt candidate then candidate else firstTruthy rest
  end.

(** A response with a summary at the top, a duration in its first nested
    object, a classification in its second and a duration in its third. *)
Definition layeredResponse : json :=
  JObj [ ("notes", JStr "left a message");
         ("first", JObj [("call_length", JNum 12)]);
         ("second", JObj [("result", JStr "Voicemail"); ("duration", JNum 7)]);
         ("third", JObj [("duration", JNum 99); ("summary", JStr "late")]) ].

(** ** The run-identifier invariant *)

(** A PENDING call has no run identifier; a RUNNING call has one. *)
Definition callInv (c : Call.t) : Prop :=
  match Call.status c with
  | CallStatus.PENDING => Call.runId c = None
  | CallStatus.RUNNING => Call.runId c <> None
  | _ => True
  end.

(** An update that writes a run identifier exactly when it sets RUNNING,
    and never sets PENDING. *)
Definition dataSafe (d : Call.data) : bool :=
  match Call.setStatus d, Call.setRunId d with
  | Some CallStatus.RUNNING, Some _ => true
  | Some CallStatus.RUNNING, None => false
  | Some CallStatus.PENDING, _ => false
  | Some _, None => true
  | Some _, Some _ => false
  | None, None => true
  | None, Some _ => false
  end.

(** The run identifier is written only by an update that sets RUNNING. *)
Definition eventSafe (ev : Event) : Prop :=
  match ev with
  | EvCallUpdate _ d | EvCallUpdateMany _ d => dataSafe d = true
  | _ => True
  end.

Definition storeInv (w : World) : Prop :=
  Forall callInv (calls w) /\ Forall eventSafe (trace w).

(** The provider answered the trigger request made at tick [t] for the
    call [id] with the run identifier [r]. *)
Definition triggerAnswered (E : Env) (t : nat) (id r : string) : Prop :=
  exists call data,
    Call.id call = id
    /\ triggerFetch E t call = TriggerBody data
    /\ optIndex0 (Json.getProp data "queued_run_ids") = Some (JStr r)
    /\ Js.isEmpty r = false.

(** What an effect awaited at tick [t], with the effects [older] behind
    it, has to satisfy.  An update of one call that writes a run
    identifier [r] is [dataRunning r], the update that sets status RUNNING,
    and it follows at once the trigger request of that call, which the
    provider answered with [r]; the reaper's update writes none. *)
Definition writeEarned (E : Env) (t : nat) (ev : Event) (older : list Event)
  : Prop :=
  match ev with
  | EvCallUpdate id d =>
      match Call.setRunId d with
      | Some r =>
          d = dataRunning r
          /\ match older, t with
             | EvTriggerFetch id' :: _, S t' =>
                 id' = id /\ triggerAnswered E t' id r
             | _, _ => False
             end
      | None => True
      end
  | EvCallUpdateMany _ d => Call.setRunId d = None
  | _ => True
  end.

(** Every effect of the record [tr], the newest of which was awaited at
    tick [t - 1], satisfies [writeEarned]. *)
Fixpoint runIdsEarned (E : Env) (t : nat) (tr : list Event) : Prop :=
  match tr with
  | [] => True
  | ev :: older =>
      match t with
      | O => False
      | S t' => writeEarned E t' ev older /\ runIdsEarned E t' older
      end
  end.

(** Run identifiers were persisted only on successful triggers. *)
Definition earnedInv (E : Env) (w : World) : Prop :=
  runIdsEarned E (ticks w) (trace w).

(** ** Counting *)

Definition runningCount (campaignId : string) (w : World) : Z :=
  countCalls campaignId CallStatus.RUNNING (calls w).

Definition isTriggerFetch (ev : Event) : bool :=
  match ev with EvTriggerFetch _ => true | _ => false end.

(** Number of calls the worker has asked the provider to start. *)
Definition triggerFetches (w : World) : Z :=
  Z.of_nat (length (filter isTriggerFetch (trace w))).

(** The batch the trigger phase takes: the free slots, or at most five of
    them once more than two consecutive cycles have failed. *)
Definition batchLimit (E : Env) (campaignId : string) (w : World) : Z :=
  let slots := Z.max 0 (MAX_CONCURRENT E - runningCount campaignId w) in
  if 2 <? consecutiveErrors w then Z.min slots 5 else slots.

Definition isReaperQuery (ev : Event) : bool :=
  match ev with EvCallFindStale _ => true | _ => false end.

(** Number of passes of the stale-call reaper. *)
Definition reaperRuns (w : World) : Z :=
  Z.of_nat (length (filter isReaperQuery (trace w))).

Definition isActiveLookup (ev : Event) : bool :=
  match ev with EvCampaignFindFirstActive => true | _ => false end.

(** Number of lookups of the active campaign.  The worker looks it up
    once at startup, when its configuration is complete, and once at the
    head of every cycle of its loop. *)
Definition activeLookups (w : World) : Z :=
  Z.of_nat (length (filter isActiveLookup (trace w))).

(** Number of cycles of the loop begun in a run of the worker that led
    from [w] to [w']: the lookups of the active campaign, the one of the
    startup apart. *)
Definition cyclesBegun (w w' : World) : Z :=
  Z.max 0 (activeLookups w' - activeLookups w - 1).

(** ** Provider answers and staleness *)

(** A poll on which the provider is unavailable: the request fails, the
    response is not OK (and not 404), or its body does not parse. *)
Definition pollUnavailable (answer : PollHttp) : bool :=
  match answer with
  | PollException => true
  | PollResponse st body =>
      negb (st =? 404)
      && (negb ((200 <=? st) && (st <=? 299))
          || match body with None => true | Some _ => false end)
  end.

(** The time a call is measured from: its trigger timestamp, or its
    last-update timestamp when it has none. *)
Definition runningSince (c : Call.t) : Z :=
  match Call.triggeredAt c with
  | Some t => t
  | None => Call.updatedAt c
  end.


(** Whether the reaper is due in the cycle numbered [cycleCount]. *)
Definition reaperDue (cycleCount : Z) : Z :=
  if cycleCount mod ZOMBIE_CLEANUP_EVERY_CYCLES =? 0 then 1 else 0.

(** ** The record of effects *)

(** From [w] to [w'] effects were only added. *)
Definition extends (w w' : World) : Prop :=
  exists evs, trace w' = (evs ++ trace w)%list.




(** ** Runs of raising cycles *)

(** [k] consecutive iterations of the loop, from cycle [n + 1] on, each
    entered with no stop requested and each raising an exception in its
    try block.  With [counterKept] each of them moreover leaves the
    consecutive-error counter as it found it: it raises before its
    dispatch and poll phase has returned, where the counter is reset. *)
Fixpoint raisingRun (E : Env) (counterKept : bool) (k : nat)
    (campaign : Campaign.t) (n : Z) (w : World) : Prop :=
  match k with
  | O => True
  | S k' =>
      shouldStop w = false
      /\ (exists e, fst (cycleBody E campaign (n + 1) w) = Throw e)
      /\ (counterKept = true ->
          consecutiveErrors (snd (cycleBody E campaign (n + 1) w))
          = consecutiveErrors w)
      /\ raisingRun E counterKept k' campaign (n + 1)
           (snd (loopIteration E campaign (n + 1) w))
  end.

(** The circuit breaker as the specification words it: five consecutive
    raising cycles end the loop, and the status then reports neither
    running nor healthy. *)
Definition breaksAfterFive (counterKept : bool) : Prop :=
  forall (E : Env) (campaign : Campaign.t) (w : World) (fuel : nat),
    consecutiveErrors w = 0 ->
    raisingRun E counterKept 5 campaign 0 w ->
    (5 <= fuel)%nat ->
    exists w',
      runLoop E fuel campaign w = (Ok Finished, w')
      /\ statusRunning (getWorkerStatus w') = false
      /\ statusHealthy (getWorkerStatus w') = false.

(** ** Sample runs *)

Definition sampleEnv (ceiling : Z) (dbDown : nat -> bool) (poll : PollHttp)
  : Env :=
  mkEnv ceiling "https://hooks.example/trigger" "key" "org"
    (fun t => 10000000 + 1000 * Z.of_nat t)
    dbDown
    (fun _ c =>
       TriggerBody
         (JObj [("queued_run_ids", JArr [JStr ("run-" ++ Call.id c)])]))
    (fun _ _ => poll)
    (fun _ => false)
    (fun _ => Some "{}")
    (fun _ => None).

Definition stillRunning : PollHttp :=
  PollResponse 200 (Some (JObj [("status", JStr "running")])).

Definition sampleCall (id : string) (st : CallStatus.t)
    (runId : option string) (triggeredAt : option Z) : Call.t :=
  Call.mk id "camp-1" st runId 1 "+15550100" 0 0 triggeredAt
    None None None None None None.

Definition sampleCampaign (paused : bool) : Campaign.t :=
  Campaign.mk "camp-1" "Spring collections" true paused
    (if paused then "PAUSED" else "ACTIVE") (Some 0) None.

Definition sampleWorld (cs : list Call.t) (paused : bool) (errors : Z)
  : World :=
  mkWorld cs [sampleCampaign paused] true false errors Stats.initial 0 [].

(** The database works throughout. *)
Definition dbUp (t : nat) : bool := false.

(** The database is down throughout. *)
Definition dbDown (t : nat) : bool := true.

(** The database fails at the read of the work status that follows the
    dispatch and poll phase, and only there: with one RUNNING call and
    no free slot an iteration of the loop takes nine awaits, the eighth
    of which is that read. *)
Definition dbFailsAfterCycle (t : nat) : bool := (t mod 9 =? 7)%nat.

(** One call in flight, no free slot under a ceiling of one. *)
Definition busyWorld : World :=
  sampleWorld [sampleCall "a" CallStatus.RUNNING (Some "run-a") (Some 9000000)]
    false 0.

(** A paused campaign whose calls are all settled. *)
Definition pausedSettledWorld : World :=
  sampleWorld [sampleCall "a" CallStatus.COMPLETED (Some "run-a") (Some 0)]
    true 0.

(** A paused campaign with a backlog, nothing in flight, and three
    consecutive errors on the counter. *)
Definition pausedBacklogWorld : World :=
  sampleWorld [sampleCall "a" CallStatus.PENDING None None] true 3.

(** A backlog and a call in flight. *)
Definition mixedWorld : World :=
  sampleWorld
    [ sampleCall "a" CallStatus.PENDING None None;
      sampleCall "b" CallStatus.RUNNING (Some "run-b") (Some 9000000) ]
    false 0.

(** A call triggered long ago and still RUNNING. *)
Definition staleWorld : World :=
  sampleWorld
    [ sampleCall "z" CallStatus.RUNNING (Some "run-z") (Some 0);
      sampleCall "b" CallStatus.RUNNING (Some "run-b") (Some 9000000) ]
    false 0.

(** ** Relations between the world a computation starts in and the world
    it ends in *)

(** A computation respects [Rel] when the world it ends in, whether it
    returns or raises, is related to the world it started from. *)
Definition respects (Rel : World -> World -> Prop) {A : Type} (m : M A)
  : Prop :=
  forall w, Rel w (snd (m w)).

(** The invariant is carried along. *)
Definition keepsInv (w w' : World) : Prop := storeInv w -> storeInv w'.

Definition keepsEarned (E : Env) (w w' : World) : Prop :=
  earnedInv E w -> earnedInv E w'.

(** The stop signal, once set, stays set. *)
Definition stopKept (w w' : World) : Prop :=
  shouldStop w = true -> shouldStop w' = true.

(** The row [c] stays in the store as it is. *)
Definition keepsRow (c : Call.t) (w w' : World) : Prop :=
  In c (calls w) -> In c (calls w').

(** From [w] to [w'] effects were added, none of them a poll. *)
Definition noPolls (w w' : World) : Prop :=
  exists evs,
    trace w' = (evs ++ trace w)%list
    /\ forall r, ~ In (EvPollFetch r) evs.

(** The poll phase of a cycle: the query for the RUNNING calls of the
    campaign and the loop over them. *)
Definition pollPhase (E : Env) (campaignId : string) : M (Z * Z) :=
  bind (callFindRunning E campaignId)
    (fun runningCalls => forOf runningCalls (0, 0) (pollStep E)).

(** The trigger phase of a cycle: the count of the RUNNING calls and, when
    the campaign is not paused and slots are free, the batch of PENDING
    calls and the loop over it. *)
Definition triggerPhase (E : Env) (campaignId : string) (paused : bool)
  : M Z :=
  bind (callCount E campaignId CallStatus.RUNNING)
    (fun runningCount =>
       if negb paused then
         let slotsAvailable := MAX_CONCURRENT E - runningCount in
         if 0 <? slotsAvailable then
           bind (gets consecutiveErrors)
             (fun errors =>
                let takeCount :=
                  if 2 <? errors then Z.min slotsAvailable 5
                  else slotsAvailable in
                bind (callFindPending E campaignId takeCount)
                  (fun pendingCalls => forOf pendingCalls 0 (triggerStep E)))
         else ret 0
       else ret 0).

(** The consecutive-error counter and the running flag are not written. *)
Definition sameCounter (w w' : World) : Prop :=
  consecutiveErrors w' = consecutiveErrors w /\ isRunning w' = isRunning w.

Definition inCampaign (campaignId : string) (st : CallStatus.t) (c : Call.t)
  : bool :=
  String.eqb (Call.campaignId c) campaignId
  && CallStatus.eqb (Call.status c) st.

(** An update that does not set status RUNNING. *)
Definition quiet (d : Call.data) : Prop :=
  Call.setStatus d <> Some CallStatus.RUNNING.

(** [grows c r t w w']: the RUNNING calls of campaign [c] grew by at most
    [r] and the trigger requests by at most [t]. *)
Definition grows (campaignId : string) (r t : Z) (w w' : World) : Prop :=
  runningCount campaignId w' <= runningCount campaignId w + r
  /\ triggerFetches w <= triggerFetches w' <= triggerFetches w + t.

Definition bounded (campaignId : string) (r t : Z) {A : Type} (m : M A)
  : Prop :=
  forall w, grows campaignId r t w (snd (m w)).

(** The RUNNING calls of campaign [c] stay within the ceiling, or within
    what they were if that was more. *)
Definition capped (ceiling : Z) (campaignId : string) (w w' : World) : Prop :=
  runningCount campaignId w'
  <= Z.max (runningCount campaignId w) ceiling.

(** ** Outcome codes *)

(** The codes the keyword chain of [classifyOutcome] can return. *)
Definition classifierCodes : list string :=
  [ "SYSTEM_CANCELED"; "PAYMENT_PROMISED"; "DECLINED"; "DISPUTED";
    "NO_ANSWER"; "VOICEMAIL"; "WRONG_NUMBER"; "CALLBACK_REQUESTED" ].

(** The codes [extractOutcome] can return: those of the classifier and the
    two fallbacks. *)
Definition outcomeCodes : list string :=
  "COMPLETED_UNKNOWN" :: "CONNECT_FAILED" :: classifierCodes.

Definition knownCode (o : option string) : Prop :=
  match o with
  | Some code => In code classifierCodes
  | None => True
  end.

(** [leaf] under [n] levels of objects, each with the single key "data". *)
Fixpoint nested (n : nat) (leaf : json) : json :=
  match n with
  | O => leaf
  | S n' => JObj [("data", nested n' leaf)]
  end.

(** ** More sample runs *)

(** A provider that answers every trigger request with [trigger] and
    every poll with [poll], over a working database; [stop] says whether
    the control surface is asking the worker to stop. *)
Definition providerEnv (trigger : TriggerHttp) (poll : PollHttp)
    (stop : bool) : Env :=
  mkEnv 2 "https://hooks.example/trigger" "key" "org"
    (fun t => 10000000 + 1000 * Z.of_nat t)
    dbUp
    (fun _ _ => trigger)
    (fun _ _ => poll)
    (fun _ => stop)
    (fun _ => Some "{}")
    (fun _ => None).

(** The provider reports the run completed, in capitals, with a promise
    to pay and a duration. *)
Definition completedAnswer : json :=
  JObj [ ("status", JStr "COMPLETED");
         ("outcome", JStr "Promise to pay on Friday");
         ("duration", JNum 93) ].

(** Run statuses on which the poll phase acts; any other status leaves
    the call as it is. *)
Definition actedOnStatuses : list string :=
  [ "not_found"; "completed"; "failed"; "canceled"; "constructor";
    "__proto__" ].

(** ** What a computation ensures *)

(** [m] never raises, and the value it returns and the world it ends in
    satisfy [Q]. *)
Definition ensures {A : Type} (m : M A) (Q : A -> World -> Prop) : Prop :=
  forall w,
    match m w with
    | (Ok a, w') => Q a w'
    | (Throw _, _) => False
    end.

Definition isPollFetch (ev : Event) : bool :=
  match ev with EvPollFetch _ => true | _ => false end.

(** Number of polls the worker has sent to the provider. *)
Definition pollFetches (w : World) : Z :=
  Z.of_nat (length (filter isPollFetch (trace w))).

(** From [w] to [w'] no campaign row was written. *)
Definition sameCampaigns (w w' : World) : Prop := campaigns w' = campaigns w.

(** From [w] to [w'] time did not go back, the running flag was not
    written, a stop signal was not withdrawn, and a stop request that came
    in during one of the awaits in between, while the worker was running,
    has set the signal. *)
Definition stopSeen (E : Env) (w w' : World) : Prop :=
  isRunning w' = isRunning w
  /\ (ticks w <= ticks w')%nat
  /\ (shouldStop w = true -> shouldStop w' = true)
  /\ (isRunning w = true ->
      forall t, (ticks w <= t < ticks w')%nat ->
                stopRequested E t = true ->
                shouldStop w' = true).

(** A control surface that asks the worker to stop, over a working
    database and a provider that keeps calls running. *)
Definition stoppingEnv : Env :=
  providerEnv (TriggerException "unused") stillRunning true.

(** When a run of the worker has ended, the running flag is cleared. *)
Definition workerLeft (ended : LoopEnd) (w : World) : Prop :=
  ended = Finished -> isRunning w = false.

(** The environment variables a configuration lacks. *)
Definition missingSettings (E : Env) : list string :=
  ((if Js.isEmpty (HAPPYROBOT_WEBHOOK_URL E) then ["HAPPYROBOT_ENDPOINT"] else [])
   ++ (if Js.isEmpty (HAPPYROBOT_API_KEY E) then ["HAPPYROBOT_API_KEY"] else [])
   ++ (if Js.isEmpty (HAPPYROBOT_ORG_ID E) then ["HAPPYROBOT_ORG_ID"] else []))%list.

(** A configuration without the provider's API key and organisation. *)
Definition unconfiguredEnv : Env :=
  mkEnv 2 "https://hooks.example/trigger" "" ""
    (fun t => 10000000 + 1000 * Z.of_nat t)
    dbUp
    (fun _ _ => TriggerException "unused")
    (fun _ _ => stillRunning)
    (fun _ => false)
    (fun _ => Some "{}")
    (fun _ => None).

(** ** Sample requests *)

Definition operatorUser : AuthApi.User :=
  AuthApi.mkUser "u-1" "operator@example.com" Auth.OPERATOR.

(** A second campaign, not active. *)
Definition spareCampaign : Campaign.t :=
  Campaign.mk "camp-2" "Summer collections" false true "PAUSED" None None.

(** The worker busy with the active campaign, and a second campaign. *)
Definition twoCampaignWorld : World :=
  withCampaigns [sampleCampaign false; spareCampaign] busyWorld.

(** ** CSV lines as a writer produces them *)

(** A field with every double quote doubled. *)
Fixpoint escapeQuotes (field : string) : string :=
  match field with
  | EmptyString => EmptyString
  | String c rest =>
      if Csv.isQuote c
      then String doubleQuote (String doubleQuote (escapeQuotes rest))
      else String c (escapeQuotes rest)
  end.

(** A field as a CSV writer quotes it: between double quotes, its own
    double quotes doubled. *)
Definition quoteField (field : string) : string :=
  String doubleQuote (escapeQuotes field ++ String doubleQuote EmptyString).

(** A line of quoted fields, separated by commas. *)
Definition quotedLine (fields : list string) : string :=
  Json.joinWith "," (map quoteField fields).

Fixpoint hasQuote (line : string) : bool :=
  match line with
  | EmptyString => false
  | String c rest => Csv.isQuote c || hasQuote rest
  end.

(** Every character is a digit or a plus sign. *)
Fixpoint dialable (phone : string) : bool :=
  match phone with
  | EmptyString => true
  | String c rest => (Csv.isDigit c || Csv.isPlus c) && dialable rest
  end.

(** Number of occurrences of a character. *)
Fixpoint occurrences (c : ascii) (s : string) : nat :=
  match s with
  | EmptyString => O
  | String a rest =>
      ((if Ascii.eqb a c then 1 else 0) + occurrences c rest)%nat
  end.

(** ** Calls of other campaigns *)

(** The identity of every call: its primary key and its campaign. *)
Definition callKeys (w : World) : list (string * string) :=
  map (fun c => (Call.id c, Call.campaignId c)) (calls w).

(** From [w] to [w'] no call was added, removed or moved to another
    campaign, and every call outside campaign [campaignId] is as it
    was. *)
Definition othersKept (campaignId : string) (w w' : World) : Prop :=
  callKeys w' = callKeys w
  /\ forall i c,
       nth_error (calls w) i = Some c ->
       Call.campaignId c <> campaignId ->
       nth_error (calls w') i = Some c.

(** The call with primary key [id] belongs to campaign [campaignId]. *)
Definition ownedBy (campaignId id : string) (w : World) : Prop :=
  In (id, campaignId) (callKeys w).

(** Started in a world with distinct call identifiers in which [P]
    holds, [m] keeps the calls of the other campaigns. *)
Definition isolated (campaignId : string) (P : World -> Prop) {A : Type}
    (m : M A) : Prop :=
  forall w,
    NoDup (map fst (callKeys w)) -> P w ->
    othersKept campaignId w (snd (m w)).

(** Every call of the batch belongs to the campaign. *)
Definition batchOwned (campaignId : string) (batch : list Call.t)
    (w : World) : Prop :=
  forall call, In call batch -> ownedBy campaignId (Call.id call) w.

(** A second campaign's call, in flight, beside the calls of the first. *)
Definition sharedWorld : World :=
  sampleWorld
    [ sampleCall "a" CallStatus.PENDING None None;
      Call.mk "x" "camp-2" CallStatus.RUNNING (Some "run-x") 1 "+15550111"
        0 0 (Some 9000000) None None None None None None;
      sampleCall "b" CallStatus.RUNNING (Some "run-b") (Some 9000000) ]
    false 0.

(** ** The cycle's counts and the statistics *)

(** What a computation establishes when it returns. *)
Definition post {A : Type} (m : M A) (Q : World -> A -> World -> Prop)
  : Prop :=
  forall w,
    match m w with
    | (Ok a, w') => Q w a w'
    | (Throw _, _) => True
    end.

Definition triggeredTotal (w : World) : Z := Stats.totalTriggered (stats w).

(** Calls the statistics count as settled, one way or the other. *)
Definition settledTotal (w : World) : Z :=
  Stats.totalCompleted (stats w) + Stats.totalFailed (stats w).

(** From [w] to [w'] the statistics' totals and the numbers of requests
    sent to the provider did not change. *)
Definition steady (w w' : World) : Prop :=
  triggeredTotal w' = triggeredTotal w
  /\ settledTotal w' = settledTotal w
  /\ triggerFetches w' = triggerFetches w
  /\ pollFetches w' = pollFetches w.

(** From [w] to [w']: [dt] calls more triggered, [ds] more settled, [df]
    more trigger requests and [dp] more polls. *)
Definition advanced (dt ds df dp : Z) (w w' : World) : Prop :=
  triggeredTotal w' = triggeredTotal w + dt
  /\ settledTotal w' = settledTotal w + ds
  /\ triggerFetches w' = triggerFetches w + df
  /\ pollFetches w' = pollFetches w + dp.

(** * Properties *)

(** ** Strings *)

Section StringFacts.

Local Open Scope string_scope.

Lemma prefix_cons (c a : ascii) (k s : string) :
  prefix (String c k) (String a s) = Ascii.eqb c a && prefix k s.
Proof.
  simpl. destruct (ascii_dec c a) as [->|Hne].
  - now rewrite Ascii.eqb_refl.
  - apply Ascii.eqb_neq in Hne. now rewrite Hne.
Qed.

Lemma prefix_empty_r (k : string) :
  prefix k "" = Js.isEmpty k.
Proof. now destruct k. Qed.

Lemma prefix_empty_l (s : string) : prefix "" s = true.
Proof. now destruct s. Qed.

Lemma space_differs (c a : ascii) :
  Js.isSpace c = false -> Js.isSpace a = true -> Ascii.eqb c a = false.
Proof.
  intros Hc Ha. destruct (Ascii.eqb c a) eqn:Heq; [|reflexivity].
  apply Ascii.eqb_eq in Heq. congruence.
Qed.

Lemma includes_trimStart (k s : string) :
  startsNonSpace k = true ->
  Js.includes (Js.trimStart s) k = Js.includes s k.
Proof.
  destruct k as [|c k]; [discriminate|]. cbn [startsNonSpace].
  intros Hc. apply negb_true_iff in Hc.
  induction s as [|a s IH]; [reflexivity|].
  cbn [Js.trimStart]. destruct (Js.isSpace a) eqn:Ha; [|reflexivity].
  rewrite IH. cbn [Js.includes]. rewrite prefix_cons.
  now rewrite (space_differs c a Hc Ha).
Qed.

Lemma endsNonSpace_nonempty (k : string) :
  endsNonSpace k = true -> Js.isEmpty k = false.
Proof. now destruct k. Qed.

Lemma prefix_trimEnd (k : string) :
  endsNonSpace k = true ->
  forall s, prefix k (Js.trimEnd s) = prefix k s.
Proof.
  induction k as [|c k IH]; [discriminate|].
  intros Hk s. destruct s as [|a s]; [reflexivity|].
  cbn [Js.trimEnd].
  destruct (Js.isSpace a && Js.isEmpty (Js.trimEnd s)) eqn:Hcut.
  - apply andb_true_iff in Hcut as [Ha Hempty].
    rewrite prefix_cons. cbn [prefix].
    destruct k as [|c' k'].
    + cbn [endsNonSpace] in Hk. apply negb_true_iff in Hk.
      now rewrite (space_differs c a Hk Ha).
    + assert (Hk' : endsNonSpace (String c' k') = true) by exact Hk.
      rewrite <- (IH Hk' s).
      destruct (Js.trimEnd s); [|discriminate].
      rewrite prefix_empty_r. cbn. now rewrite andb_false_r.
  - rewrite !prefix_cons. destruct k as [|c' k'].
    + now rewrite !prefix_empty_l.
    + assert (Hk' : endsNonSpace (String c' k') = true) by exact Hk.
      now rewrite (IH Hk' s).
Qed.

Lemma includes_trimEnd (k s : string) :
  endsNonSpace k = true ->
  Js.includes (Js.trimEnd s) k = Js.includes s k.
Proof.
  intros Hk. induction s as [|a s IH]; [reflexivity|].
  pose proof (prefix_trimEnd k Hk (String a s)) as Hp.
  cbn [Js.trimEnd] in Hp |- *.
  destruct (Js.isSpace a && Js.isEmpty (Js.trimEnd s)) eqn:Hcut.
  - apply andb_true_iff in Hcut as [_ Hempty].
    cbn [Js.includes]. rewrite <- Hp, <- IH.
    destruct (Js.trimEnd s); [|discriminate]. cbn [Js.includes].
    now destruct (prefix k "").
  - cbn [Js.includes]. now rewrite Hp, IH.
Qed.

Lemma includes_trim (k s : string) :
  startsNonSpace k = true -> endsNonSpace k = true ->
  Js.includes (Js.trim s) k = Js.includes s k.
Proof.
  intros Hs He. unfold Js.trim.
  now rewrite includes_trimEnd, includes_trimStart.
Qed.

Lemma includes_empty (k : string) :
  Js.isEmpty k = false -> Js.includes "" k = false.
Proof. now destruct k. Qed.

End StringFacts.

(** ** The keyword classifier *)

Lemma filter_head_find {A : Type} (f : A -> bool) (l : list A) (x : A)
    (rest : list A) :
  filter f l = x :: rest -> find f l = Some x.
Proof.
  induction l as [|a l IH]; [discriminate|].
  cbn. destruct (f a); [intros [= -> _]; reflexivity | exact IH].
Qed.

Lemma keywordsIn_head (vocab : list (string * string)) (value : string)
    (x : string * string) (rest : list (string * string)) :
  keywordsIn vocab value = x :: rest ->
  find (fun kw => Js.includes (Js.toLowerCase value) (fst kw)) vocab = Some x.
Proof. unfold keywordsIn. apply filter_head_find. Qed.

Ltac keyword v k H :=
  destruct (Js.includes v k) eqn:?;
  [ cbn in H |- *; inversion H; subst; reflexivity | cbn in H |- * ].

(** The first keyword of the chain found in the trimmed, lower-cased input
    decides the outcome. *)
Lemma classify_first_keyword (value keyword code : string) :
  find (fun kw => Js.includes (Js.trim (Js.toLowerCase value)) (fst kw))
       vocabulary = Some (keyword, code) ->
  classifyOutcome value = Some code.
Proof.
  unfold classifyOutcome.
  set (v := Js.trim (Js.toLowerCase value)). intros H.
  destruct (Js.isEmpty v) eqn:Hempty.
  - destruct v; [vm_compute in H; discriminate | discriminate].
  - clearbody v. unfold vocabulary in H. cbn [find fst] in H.
    keyword v "canceled" H. keyword v "cancelled" H.
    keyword v "promise" H. keyword v "will_pay" H.
    keyword v "will pay" H. keyword v "payment_promised" H.
    keyword v "decline" H. keyword v "refuse" H. keyword v "rejected" H.
    keyword v "dispute" H.
    keyword v "no_answer" H. keyword v "no answer" H.
    keyword v "unanswered" H. keyword v "not_reached" H.
    keyword v "not reached" H.
    keyword v "voicemail" H. keyword v "voice_mail" H. keyword v "vm" H.
    keyword v "wrong_number" H. keyword v "wrong number" H.
    keyword v "invalid" H.
    keyword v "callback" H. keyword v "call_back" H. keyword v "call back" H.
    discriminate.
Qed.

Lemma find_keyword_trim (v : string) :
  find (fun kw => Js.includes (Js.trim v) (fst kw)) vocabulary
  = find (fun kw => Js.includes v (fst kw)) vocabulary.
Proof.
  unfold vocabulary. cbn [find fst].
  now rewrite !includes_trim by reflexivity.
Qed.

(** C6 (amended): the classifier matches keywords as case-insensitive
    substrings; an input holding exactly one keyword of the code's
    vocabulary gets that keyword's outcome code, SYSTEM_CANCELED being
    keyed by "canceled" and "cancelled". *)
Theorem classifyOutcome_single_keyword (value keyword code : string) :
  keywordsIn vocabulary value = [(keyword, code)] ->
  classifyOutcome value = Some code.
Proof.
  intros H. apply keywordsIn_head in H.
  rewrite <- find_keyword_trim in H.
  exact (classify_first_keyword _ _ _ H).
Qed.

Lemma classifyOutcome_single_keyword_witness :
  keywordsIn vocabulary "  Customer WILL PAY next week "
  = [("will pay", "PAYMENT_PROMISED")]
  /\ classifyOutcome "  Customer WILL PAY next week " = Some "PAYMENT_PROMISED".
Proof.
  split; [reflexivity|].
  apply (classifyOutcome_single_keyword _ "will pay" "PAYMENT_PROMISED").
  reflexivity.
Defined.

(** C6 (as stated): with the vocabulary worded by the specification the
    property fails; "cancel" holds the single keyword "cancel" and is not
    classified. *)
Lemma classifyOutcome_cancel_unclassified :
  keywordsIn specVocabulary "cancel" = [("cancel", "SYSTEM_CANCELED")]
  /\ classifyOutcome "cancel" = None
  /\ ~ classifiesBy specVocabulary.
Proof.
  assert (Hk : keywordsIn specVocabulary "cancel"
               = [("cancel", "SYSTEM_CANCELED")]) by reflexivity.
  assert (Hc : classifyOutcome "cancel" = None) by reflexivity.
  repeat split; trivial.
  intros Hspec. specialize (Hspec _ _ _ Hk). congruence.
Qed.

(** ** The recursive search *)

Lemma findSummary_truthy (record : list (string * json)) (fields : list string)
    (s : string) :
  findSummary record fields = Some s -> Js.truthyString s = true.
Proof.
  induction fields as [|f fields IH]; [discriminate|].
  cbn [findSummary].
  destruct (Json.lookup record f) as [[| | |s'| |]|]; auto.
  destruct (Js.truthyString s') eqn:Ht; auto.
  now intros [= <-].
Qed.

Lemma findClassification_truthy (record : list (string * json))
    (fields : list string) (o : string) :
  findClassification record fields = Some o -> Js.truthyString o = true.
Proof.
  induction fields as [|f fields IH]; [discriminate|].
  cbn [findClassification].
  destruct (Json.lookup record f) as [[| | |s'| |]|]; auto.
  destruct (Js.truthyString s'); auto.
  destruct (classifyOutcome s') as [c|]; auto.
  destruct (Js.truthyString c) eqn:Ht; auto.
  now intros [= <-].
Qed.

Lemma mergeNested_duration_kept (acc nested : SearchResult) (d : Z) :
  callDuration acc = Some d -> callDuration (mergeNested acc nested) = Some d.
Proof.
  intros H. unfold mergeNested. cbn. rewrite H.
  now destruct (callDuration nested).
Qed.

Lemma mergeNested_summary_kept (acc nested : SearchResult) :
  Js.truthyOpt (callSummary acc) = true ->
  callSummary (mergeNested acc nested) = callSummary acc.
Proof.
  intros H. unfold mergeNested. cbn. rewrite H.
  now rewrite andb_false_r.
Qed.

Lemma overKeys_duration_kept (search : json -> SearchResult)
    (entries : list (string * json)) (d : Z) :
  forall acc, callDuration acc = Some d ->
              callDuration (overKeys search entries acc) = Some d.
Proof.
  induction entries as [|[key value] rest IH]; intros acc H; [exact H|].
  cbn [overKeys]. destruct (Json.isObjectNonNull value); [|now apply IH].
  pose proof (mergeNested_duration_kept acc (search value) d H) as Hm.
  destruct (Js.truthyOpt (callOutcome (mergeNested acc (search value))));
    [exact Hm | now apply IH].
Qed.

Lemma overKeys_summary_kept (search : json -> SearchResult)
    (entries : list (string * json)) :
  forall acc, Js.truthyOpt (callSummary acc) = true ->
              callSummary (overKeys search entries acc) = callSummary acc.
Proof.
  induction entries as [|[key value] rest IH]; intros acc H; [reflexivity|].
  cbn [overKeys]. destruct (Json.isObjectNonNull value); [|now apply IH].
  pose proof (mergeNested_summary_kept acc (search value) H) as Hm.
  destruct (Js.truthyOpt (callOutcome (mergeNested acc (search value))));
    [exact Hm|].
  rewrite IH; [exact Hm | now rewrite Hm].
Qed.

Lemma deepSearch_object (record : list (string * json)) (depth : nat) :
  (depth <= 10)%nat ->
  deepSearchForOutcome (JObj record) depth
  = let found :=
      mkSearchResult (findClassification record classificationFields)
        (findDuration record durationFields)
        (findSummary record summaryFields) in
    if Js.truthyOpt (callOutcome found) then found
    else overKeys (fun value => deepSearchForOutcome value (S depth))
           record found.
Proof.
  intros Hd. cbn [deepSearchForOutcome].
  assert (Hlt : (10 <? depth)%nat = false) by (apply Nat.ltb_ge; lia).
  rewrite Hlt. cbn zeta. cbn [callOutcome]. reflexivity.
Qed.

(** What the loop over the keys of a record returns, from an accumulator
    that holds no classification: the nested results are merged in the
    order of the keys, up to and including the first that holds a
    classification; of the durations and of the summaries the first one
    found is kept. *)
Lemma overKeys_collects (search : json -> SearchResult)
    (entries : list (string * json)) :
  forall acc,
    callOutcome acc = None ->
    (callSummary acc = None \/ Js.truthyOpt (callSummary acc) = true) ->
    let visited :=
      visitedUntilClassified (map search (nestedValues entries)) in
    overKeys search entries acc
    = mkSearchResult
        (firstTruthy (map callOutcome visited))
        (firstSome (callDuration acc :: map callDuration visited))
        (firstTruthy (callSummary acc :: map callSummary visited)).
Proof.
  unfold nestedValues.
  induction entries as [|[key value] rest IH]; intros acc Hout Hsum;
    destruct acc as [o d s]; cbn [callOutcome callSummary] in Hout, Hsum;
    subst o;
    assert (Hs : s = None \/ exists c t, s = Some (String c t))
      by (destruct Hsum as [->|Hs]; [now left|];
          destruct s as [[|c t]|]; try discriminate; right; eauto).
  - destruct d; destruct Hs as [->|[c [t ->]]]; reflexivity.
  - cbn [overKeys map snd filter].
    destruct (Json.isObjectNonNull value); [|now apply IH].
    cbn [map visitedUntilClassified].
    destruct (search value) as [no nd ns].
    destruct no as [[|oc ot]|], nd, d, ns as [[|nc nt]|];
      destruct Hs as [->|[c [t ->]]]; cbn; try reflexivity;
      rewrite IH; cbn; auto.
Qed.

(** C9 (amended): at an object level within the depth bound, the summary
    and the duration found through their own candidate fields are returned
    whether or not a classification is found, at that level or below; a
    classification found at that level ends the search there, with that
    level's duration and summary and nothing from below; and with no
    classification at that level the nested objects and arrays are
    searched in the order of the keys, up to and including the first in
    which a classification is found, and the first duration and the first
    summary found, at the level or in those nested values, are returned
    with that classification. *)
Theorem deepSearch_level_fields (record : list (string * json))
    (depth : nat) :
  (depth <= 10)%nat ->
  let r := deepSearchForOutcome (JObj record) depth in
  (forall d, findDuration record durationFields = Some d ->
             callDuration r = Some d)
  /\ (forall s, findSummary record summaryFields = Some s ->
                callSummary r = Some s)
  /\ (forall o, findClassification record classificationFields = Some o ->
                r = mkSearchResult (Some o)
                      (findDuration record durationFields)
                      (findSummary record summaryFields))
  /\ (findClassification record classificationFields = None ->
      let visited :=
        visitedUntilClassified
          (map (fun value => deepSearchForOutcome value (S depth))
             (nestedValues record)) in
      r = mkSearchResult
            (firstTruthy (map callOutcome visited))
            (firstSome (findDuration record durationFields
                        :: map callDuration visited))
            (firstTruthy (findSummary record summaryFields
                          :: map callSummary visited))).
Proof.
  intros Hd r. subst r. rewrite (deepSearch_object record depth Hd).
  cbn zeta. cbn [callOutcome].
  repeat split.
  - intros d H.
    destruct (Js.truthyOpt (findClassification record classificationFields));
      [exact H|].
    now apply overKeys_duration_kept.
  - intros s H.
    destruct (Js.truthyOpt (findClassification record classificationFields));
      [exact H|].
    rewrite overKeys_summary_kept; cbn [callSummary]; [exact H|].
    rewrite H. cbn. exact (findSummary_truthy _ _ _ H).
  - intros o H. rewrite H. cbn [Js.truthyOpt].
    now rewrite (findClassification_truthy _ _ _ H).
  - intros H. rewrite H. cbn [Js.truthyOpt].
    rewrite overKeys_collects; cbn [callOutcome callDuration callSummary];
      [reflexivity | reflexivity |].
    destruct (findSummary record summaryFields) as [s|] eqn:Hs;
      [right | now left].
    cbn. exact (findSummary_truthy _ _ _ Hs).
Qed.

Lemma deepSearch_level_fields_witness :
  (0 <= 10)%nat
  /\ callDuration (deepSearchForOutcome durationOnly 0) = Some 42
  /\ deepSearchForOutcome layeredResponse 0
     = mkSearchResult (Some "VOICEMAIL") (Some 12) (Some "left a message")
  /\ deepSearchForOutcome (nestedDuration "n/a") 0
     = mkSearchResult None (Some 30) None.
Proof.
  assert (H : (0 <= 10)%nat) by lia.
  split; [exact H|].
  split; [|split].
  - apply (proj1 (deepSearch_level_fields
                    [("call_duration", JNum 42)] 0 H)).
    reflexivity.
  - exact (proj2 (proj2 (proj2 (deepSearch_level_fields
             [ ("notes", JStr "left a message");
               ("first", JObj [("call_length", JNum 12)]);
               ("second", JObj [("result", JStr "Voicemail");
                                ("duration", JNum 7)]);
               ("third", JObj [("duration", JNum 99);
                               ("summary", JStr "late")]) ] 0 H)))
             eq_refl).
  - exact (proj2 (proj2 (proj2 (deepSearch_level_fields
             [ ("outcome", JStr "n/a");
               ("data", JObj [("duration", JNum 30)]) ] 0 H)))
             eq_refl).
Defined.

(** C9 (as stated): the duration returned does depend on whether a
    classification field matches; two responses that differ only in the
    text of their "outcome" field yield different durations, because the
    search stops at the first classification. *)
Lemma deepSearch_duration_depends_on_classification :
  callDuration
    (deepSearchForOutcome (nestedDuration "promise to pay") 0) = None
  /\ callDuration (deepSearchForOutcome (nestedDuration "n/a") 0) = Some 30
  /\ ~ collectedIndependently.
Proof.
  assert (H1 : callDuration
                 (deepSearchForOutcome (nestedDuration "promise to pay") 0)
               = None) by reflexivity.
  assert (H2 : callDuration (deepSearchForOutcome (nestedDuration "n/a") 0)
               = Some 30) by reflexivity.
  repeat split; trivial.
  intros Hind.
  specialize (Hind "promise to pay" "n/a"
                [("data", JObj [("duration", JNum 30)])]).
  unfold nestedDuration in H1, H2. congruence.
Qed.

(** ** Extraction *)

(** The fallback policy, on the responses whose debug logging does not
    fault: with no classification found the outcome is CONNECT_FAILED for a
    zero duration of a completed or canceled run, and COMPLETED_UNKNOWN
    otherwise. *)
Lemma extractOutcome_fallback (fullResponse : json) (runStatus : string) :
  loggingFault fullResponse = None ->
  callOutcome (deepSearchForOutcome fullResponse 0) = None ->
  exists x,
    extractOutcome fullResponse runStatus = Ok x
    /\ duration x = callDuration (deepSearchForOutcome fullResponse 0)
    /\ summary x = callSummary (deepSearchForOutcome fullResponse 0)
    /\ outcome x =
         if match duration x with Some d => d =? 0 | None => false end
            && (String.eqb runStatus "completed"
                || String.eqb runStatus "canceled")
         then "CONNECT_FAILED" else "COMPLETED_UNKNOWN".
Proof.
  intros Hlog Hnone. unfold extractOutcome. rewrite Hlog, Hnone.
  eexists. split; [reflexivity|]. cbn.
  repeat split. now rewrite andb_true_r.
Qed.

Example extractOutcome_empty_object :
  extractOutcome (JObj []) "completed"
  = Ok (mkExtracted "COMPLETED_UNKNOWN" None None).
Proof. reflexivity. Qed.

Example extractOutcome_zero_duration :
  extractOutcome (JObj [("duration", JNum 0)]) "completed"
  = Ok (mkExtracted "CONNECT_FAILED" (Some 0) None).
Proof. reflexivity. Qed.

Example extractOutcome_nested_classification :
  extractOutcome
    (JObj [("data", JObj [("call", JObj
       [("classification", JStr "Customer will pay next week")])])])
    "completed"
  = Ok (mkExtracted "PAYMENT_PROMISED" None None).
Proof. reflexivity. Qed.

(** C5: on a response whose [events] array holds a null entry no
    classification is found, yet no outcome is extracted: the debug loop
    over the events raises before the fallback is computed. *)
Theorem extractOutcome_null_event_raises :
  callOutcome (deepSearchForOutcome nullEventResponse 0) = None
  /\ extractOutcome nullEventResponse "completed"
     = Throw "Cannot read properties of null (reading 'type')".
Proof. split; reflexivity. Qed.

(** ** Relations respected by the worker's computations *)

Section Relations.

Variable Rel : World -> World -> Prop.
Hypothesis Rel_refl : forall w, Rel w w.
Hypothesis Rel_trans : forall a b c, Rel a b -> Rel b c -> Rel a c.

Local Notation "'ok' m" := (respects Rel m) (at level 10, m at level 9).

Lemma respects_ret {A : Type} (a : A) : ok (ret a).
Proof. intros w. apply Rel_refl. Qed.

Lemma respects_throw {A : Type} (e : string) : ok (@throw A e).
Proof. intros w. apply Rel_refl. Qed.

Lemma respects_gets {A : Type} (f : World -> A) : ok (gets f).
Proof. intros w. apply Rel_refl. Qed.

Lemma respects_modify (f : World -> World) :
  (forall w, Rel w (f w)) -> ok (modify f).
Proof. intros H w. apply H. Qed.

Lemma respects_bind {A B : Type} (m : M A) (f : A -> M B) :
  ok m -> (forall a, ok (f a)) -> ok (bind m f).
Proof.
  intros Hm Hf w. unfold bind. specialize (Hm w).
  destruct (m w) as [[a|e] w1]; cbn in *; [|exact Hm].
  eapply Rel_trans; [exact Hm | apply Hf].
Qed.

Lemma respects_tryCatch {A : Type} (m : M A) (h : string -> M A) :
  ok m -> (forall e, ok (h e)) -> ok (tryCatch m h).
Proof.
  intros Hm Hh w. unfold tryCatch. specialize (Hm w).
  destruct (m w) as [[a|e] w1]; cbn in *; [exact Hm|].
  eapply Rel_trans; [exact Hm | apply Hh].
Qed.

Lemma respects_forOf {A S : Type} (body : A -> S -> M (LoopCtl * S))
    (l : list A) :
  (forall x s, ok (body x s)) -> forall s, ok (forOf l s body).
Proof.
  intros Hbody. induction l as [|x l IH]; intros s; cbn [forOf].
  - apply respects_ret.
  - apply respects_bind; [apply Hbody|].
    intros [[|] s']; [apply IH | apply respects_ret].
Qed.

Lemma respects_nonFatal {A : Type} (m : M A) :
  ok m -> ok (nonFatal m).
Proof.
  intros Hm. unfold nonFatal. apply respects_tryCatch.
  - apply respects_bind; [exact Hm | intros; apply respects_ret].
  - intros; apply respects_ret.
Qed.

Lemma respects_attempt {A : Type} (m : M A) :
  ok m -> ok (attempt m).
Proof.
  intros Hm. unfold attempt. apply respects_tryCatch.
  - apply respects_bind; [exact Hm | intros; apply respects_ret].
  - intros; apply respects_ret.
Qed.

End Relations.

Lemma statusMap_terminal (runStatus : string) (s : CallStatus.t) :
  statusMap runStatus = Some (MappedTo s) ->
  s = CallStatus.RUNNING \/ (s <> CallStatus.RUNNING /\ s <> CallStatus.PENDING).
Proof.
  unfold statusMap.
  repeat match goal with
         | |- context [if ?b then _ else _] => destruct b
         end;
    intros [= <-]; (now left) || (right; split; discriminate).
Qed.

Section WorkerRelations.

Variable E : Env.
Variable Rel : World -> World -> Prop.
Hypothesis Rel_refl : forall w, Rel w w.
Hypothesis Rel_trans : forall a b c, Rel a b -> Rel b c -> Rel a c.

(** The [data] of the updates the relation admits. *)
Variable okData : Call.data -> Prop.
Hypothesis ok_triggeredAt : forall t, okData (dataTriggeredAt t).
Hypothesis ok_running : forall r, okData (dataRunning r).
Hypothesis ok_triggerFailed : forall e t, okData (dataTriggerFailed e t).
Hypothesis ok_lost : forall r t, okData (dataLost r t).
Hypothesis ok_terminal :
  forall s t x m,
    s <> CallStatus.RUNNING -> s <> CallStatus.PENDING ->
    okData (dataTerminal s t x m).

(** What the relation has to admit, primitive by primitive. *)
Hypothesis Rel_sleep : forall ms w, Rel w (awaited E (EvSleep ms) w).
Hypothesis Rel_triggerFetch :
  forall id w, Rel w (awaited E (EvTriggerFetch id) w).
Hypothesis Rel_pollFetch : forall r w, Rel w (awaited E (EvPollFetch r) w).
Hypothesis Rel_findActive : forall w, Rel w (awaited E EvCampaignFindFirstActive w).
Hypothesis Rel_findUnique :
  forall id w, Rel w (awaited E (EvCampaignFindUnique id) w).
Hypothesis Rel_count : forall c s w, Rel w (awaited E (EvCallCount c s) w).
Hypothesis Rel_findPending :
  forall c n w, Rel w (awaited E (EvCallFindPending c n) w).
Hypothesis Rel_findRunning :
  forall c w, Rel w (awaited E (EvCallFindRunning c) w).
Hypothesis Rel_findStale : forall t w, Rel w (awaited E (EvCallFindStale t) w).
Hypothesis Rel_callUpdate :
  forall id d w, okData d -> Rel w (awaited E (EvCallUpdate id d) w).
Hypothesis Rel_callUpdateMany :
  forall ids t w, Rel w (awaited E (EvCallUpdateMany ids (dataTimeout t)) w).
Hypothesis Rel_campaignUpdate :
  forall id d w, Rel w (awaited E (EvCampaignUpdate id d) w).
Hypothesis Rel_updated :
  forall id d t w cs,
    okData d ->
    updateById id (Call.apply d t) (calls w) = Some cs ->
    Rel w (withCalls cs w).
Hypothesis Rel_reaped :
  forall ids t t' w,
    Rel w (withCalls
             (map (fun c => if memberOf ids (Call.id c)
                            then Call.apply (dataTimeout t) t' c else c)
                (calls w)) w).
Hypothesis Rel_campaigns : forall cs w, Rel w (withCampaigns cs w).
Hypothesis Rel_stats : forall s w, Rel w (withStats s w).
Hypothesis Rel_errors : forall n w, Rel w (withConsecutiveErrors n w).
Hypothesis Rel_isRunning : forall b w, Rel w (withIsRunning b w).
Hypothesis Rel_shouldStop : forall b w, Rel w (withShouldStop b w).

Local Notation "'ok' m" := (respects Rel m) (at level 10, m at level 9).

Lemma ok_ret {A : Type} (a : A) : ok (ret a).
Proof. now apply respects_ret. Qed.

Lemma ok_throw {A : Type} (e : string) : ok (@throw A e).
Proof. now apply respects_throw. Qed.

Lemma ok_gets {A : Type} (f : World -> A) : ok (gets f).
Proof. now apply respects_gets. Qed.

Lemma ok_bind {A B : Type} (m : M A) (f : A -> M B) :
  ok m -> (forall a, ok (f a)) -> ok (bind m f).
Proof. now apply respects_bind. Qed.

Lemma ok_tryCatch {A : Type} (m : M A) (h : string -> M A) :
  ok m -> (forall e, ok (h e)) -> ok (tryCatch m h).
Proof. now apply respects_tryCatch. Qed.

Lemma ok_forOf {A S : Type} (body : A -> S -> M (LoopCtl * S))
    (l : list A) (s : S) :
  (forall x s', ok (body x s')) -> ok (forOf l s body).
Proof. intros H. now apply respects_forOf. Qed.

Lemma ok_nonFatal {A : Type} (m : M A) : ok m -> ok (nonFatal m).
Proof. now apply respects_nonFatal. Qed.

Lemma ok_attempt {A : Type} (m : M A) : ok m -> ok (attempt m).
Proof. now apply respects_attempt. Qed.

Ltac respect_core :=
  first
    [ apply ok_ret
    | apply ok_throw
    | apply ok_gets
    | apply ok_nonFatal
    | apply ok_attempt
    | apply ok_bind; [| intros ]
    | apply ok_tryCatch; [| intros ]
    | apply ok_forOf; intros
    | match goal with
      | |- respects _ (if ?b then _ else _) => destruct b eqn:?
      | |- respects _ (match ?x with _ => _ end) => destruct x eqn:?
      end ].

Lemma respects_db {A : Type} (ev : Event) (run : M A) :
  (forall w, Rel w (awaited E ev w)) -> ok run -> ok (db E ev run).
Proof.
  intros Hev Hrun w. unfold db.
  destruct (dbFails E (ticks w)); cbn; [apply Hev|].
  eapply Rel_trans; [apply Hev | apply Hrun].
Qed.

Lemma respects_sleep (ms : Z) : ok (sleep E ms).
Proof. intros w. apply Rel_sleep. Qed.

Lemma respects_callCount (c : string) (s : CallStatus.t) :
  ok (callCount E c s).
Proof.
  apply respects_db; [apply Rel_count | apply ok_gets].
Qed.

Lemma respects_campaignFindUnique (id : string) : ok (campaignFindUnique E id).
Proof.
  apply respects_db; [apply Rel_findUnique | apply ok_gets].
Qed.

Lemma respects_getActiveCampaign : ok (getActiveCampaign E).
Proof.
  apply respects_db; [apply Rel_findActive | apply ok_gets].
Qed.

Lemma respects_callFindPending (c : string) (n : Z) :
  ok (callFindPending E c n).
Proof.
  apply respects_db; [apply Rel_findPending | apply ok_gets].
Qed.

Lemma respects_callFindRunning (c : string) : ok (callFindRunning E c).
Proof.
  apply respects_db; [apply Rel_findRunning | apply ok_gets].
Qed.

Lemma respects_callFindStale (t : Z) : ok (callFindStale E t).
Proof.
  apply respects_db; [apply Rel_findStale | apply ok_gets].
Qed.

Lemma respects_callUpdate (id : string) (d : Call.data) :
  okData d -> ok (callUpdate E id d).
Proof.
  intros Hd. apply respects_db; [intros; now apply Rel_callUpdate|].
  intros w.
  destruct (updateById id (Call.apply d (now E w)) (calls w)) as [cs|] eqn:Hu;
    cbn; [eapply Rel_updated; eassumption | apply Rel_refl].
Qed.

Lemma respects_callUpdateMany (ids : list string) (t : Z) :
  ok (callUpdateMany E ids (dataTimeout t)).
Proof.
  apply respects_db; [intros; apply Rel_callUpdateMany|].
  intros w. apply Rel_reaped.
Qed.

Lemma respects_campaignUpdate (id : string) (d : Campaign.data) :
  ok (campaignUpdate E id d).
Proof.
  apply respects_db; [intros; apply Rel_campaignUpdate|].
  intros w.
  destruct (updateCampaignById id (Campaign.apply d) (campaigns w));
    cbn; [apply Rel_campaigns | apply Rel_refl].
Qed.

Lemma respects_triggerCall (call : Call.t) : ok (triggerCall E call).
Proof.
  intros w. unfold triggerCall.
  destruct (triggerFetch E (ticks w) call) as [m|st txt|[]]; cbn;
    try apply Rel_triggerFetch;
    match goal with
    | |- context [if ?b then _ else _] => destruct b; apply Rel_triggerFetch
    end.
Qed.

Lemma respects_pollRunStatus (runId : string) : ok (pollRunStatus E runId).
Proof.
  intros w. unfold pollRunStatus.
  destruct (pollFetch E (ticks w) runId) as [|st [body|]]; cbn;
    repeat match goal with
           | |- context [if ?b then _ else _] => destruct b
           end; apply Rel_pollFetch.
Qed.

Lemma respects_cleanup : ok (cleanupZombieRunningCalls E).
Proof.
  unfold cleanupZombieRunningCalls, newDate.
  repeat (first
    [ apply respects_callFindStale
    | apply respects_callUpdateMany
    | respect_core ]).
Qed.

Lemma respects_getWorkStatus (c : string) : ok (getWorkStatus E c).
Proof.
  unfold getWorkStatus.
  repeat (first
    [ apply respects_callCount
    | apply respects_campaignFindUnique
    | respect_core ]).
Qed.

Lemma respects_statsModify (f : Stats.t -> Stats.t) :
  ok (modify (fun w => withStats (f (stats w)) w)).
Proof. apply respects_modify. intros w. apply Rel_stats. Qed.

Lemma respects_triggerStep (call : Call.t) (n : Z) :
  ok (triggerStep E call n).
Proof.
  unfold triggerStep, newDate.
  repeat (first
    [ apply respects_triggerCall
    | apply respects_statsModify
    | (apply respects_callUpdate;
       first [apply ok_triggeredAt | apply ok_running | apply ok_triggerFailed])
    | respect_core ]).
Qed.

Lemma respects_pollSettle (call : Call.t) (runId : string) (status : json)
    (polled completed : Z) :
  ok (pollSettle E call runId status polled completed).
Proof.
  unfold pollSettle, newDate.
  destruct (runStatusOf status) as [runStatus|]; [|apply ok_throw].
  destruct (String.eqb runStatus "not_found").
  { repeat (first
    [ apply respects_statsModify
    | (apply respects_callUpdate; apply ok_lost)
    | respect_core ]). }
  destruct (statusMap runStatus) as [[s|]|] eqn:Hmap;
    [| |apply ok_ret].
  - destruct (statusMap_terminal _ _ Hmap) as [->|[Hr Hp]];
      [apply ok_ret|].
    assert (Hgoal :
      ok (match extractOutcome status runStatus with
          | Throw e => throw e
          | Ok x =>
              t <- gets (now E) ;;
              match completedAtOf E status t with
              | Throw e => throw e
              | Ok (Some at_) =>
                  callUpdate E (Call.id call)
                    (dataTerminal s at_ x (metadataOf E status)) ;;
                  modify (fun w => withStats (Stats.incCompleted (stats w)) w) ;;
                  ret (Next, (polled, completed + 1))
              | Ok None => throw "Invalid value provided to call.update"
              end
          end)).
    { repeat (first
    [ apply respects_statsModify
    | (apply respects_callUpdate; now apply ok_terminal)
    | respect_core ]). }
    destruct s; try exact Hgoal; congruence.
  - repeat respect_core; assumption.
Qed.

Lemma respects_pollStep (call : Call.t) (counts : Z * Z) :
  ok (pollStep E call counts).
Proof.
  unfold pollStep. destruct counts as [polled completed].
  apply ok_bind; [apply ok_gets|]. intros stop.
  destruct stop; [apply ok_ret|].
  destruct (Call.runId call) as [runId|]; [|apply ok_ret].
  destruct (Js.isEmpty runId); [apply ok_ret|].
  apply ok_bind; [apply respects_pollRunStatus|]. intros status.
  destruct (negb (Json.truthy status)); [apply ok_ret|].
  apply respects_pollSettle.
Qed.

Lemma respects_processQueueCycle (c : string) (paused : bool) :
  ok (processQueueCycle E c paused).
Proof.
  unfold processQueueCycle.
  repeat (first
    [ apply respects_callCount
    | apply respects_callFindPending
    | apply respects_callFindRunning
    | apply respects_triggerStep
    | apply respects_pollStep
    | respect_core ]).
Qed.

Lemma respects_cycleReap (n : Z) : ok (cycleReap E n).
Proof.
  unfold cycleReap.
  repeat (first [ apply respects_cleanup | respect_core ]).
Qed.

Lemma respects_cycleStatus (campaign : Campaign.t) :
  ok (cycleStatus E campaign).
Proof.
  unfold cycleStatus.
  repeat (first
    [ apply respects_getActiveCampaign
    | apply respects_getWorkStatus
    | respect_core ]).
Qed.

Lemma respects_cycleObserve (campaign : Campaign.t) (n : Z) :
  ok (cycleObserve E campaign n).
Proof.
  unfold cycleObserve.
  apply ok_bind; [apply respects_cycleReap|].
  intros; apply respects_cycleStatus.
Qed.

Lemma respects_errorsModify (n : Z) : ok (modify (withConsecutiveErrors n)).
Proof. apply respects_modify. intros w. apply Rel_errors. Qed.

Lemma respects_errorsStats (n : World -> Z) (f : World -> Stats.t) :
  ok (modify (fun w => withStats (f w) (withConsecutiveErrors (n w) w))).
Proof.
  apply respects_modify. intros w.
  apply (Rel_trans _ (withConsecutiveErrors (n w) w));
    [apply Rel_errors | apply Rel_stats].
Qed.

(** From here on the dispatch and poll cycle is taken as a whole: what
    follows holds of any relation the cycle of the campaign respects. *)
Lemma respects_cycleAct (campaign : Campaign.t) (status : WorkStatus) :
  (forall paused, ok (processQueueCycle E (Campaign.id campaign) paused)) ->
  ok (cycleAct E campaign status).
Proof.
  intros Hcycle. unfold cycleAct, newDate.
  repeat (first
    [ apply respects_errorsModify
    | apply respects_sleep
    | apply respects_campaignUpdate
    | apply Hcycle
    | apply respects_getWorkStatus
    | apply (respects_errorsStats (fun _ => 0))
    | respect_core ]).
Qed.

Lemma respects_cycleBody (campaign : Campaign.t) (n : Z) :
  (forall paused, ok (processQueueCycle E (Campaign.id campaign) paused)) ->
  ok (cycleBody E campaign n).
Proof.
  intros Hcycle. unfold cycleBody.
  apply ok_bind; [apply respects_cycleObserve|].
  intros [st|]; [now apply respects_cycleAct | apply ok_ret].
Qed.

Lemma respects_cycleCatch (e : string) : ok (cycleCatch E e).
Proof.
  unfold cycleCatch.
  repeat (first
    [ apply respects_sleep
    | apply (respects_errorsStats (fun w => consecutiveErrors w + 1))
    | respect_core ]).
Qed.

Lemma respects_loopIteration (campaign : Campaign.t) (n : Z) :
  (forall paused, ok (processQueueCycle E (Campaign.id campaign) paused)) ->
  ok (loopIteration E campaign n).
Proof.
  intros Hcycle. unfold loopIteration. apply ok_tryCatch.
  - now apply respects_cycleBody.
  - apply respects_cycleCatch.
Qed.

Lemma respects_workerLoop (fuel : nat) (campaign : Campaign.t) :
  (forall paused, ok (processQueueCycle E (Campaign.id campaign) paused)) ->
  forall n, ok (workerLoop E fuel campaign n).
Proof.
  intros Hcycle.
  induction fuel as [|fuel IH]; intros n; cbn [workerLoop].
  - repeat respect_core.
  - apply ok_bind; [apply ok_gets|].
    intros [|]; [apply ok_ret|].
    apply ok_bind; [now apply respects_loopIteration|].
    intros [|]; [apply IH | apply ok_ret].
Qed.

Lemma respects_stopFlags :
  ok (modify (fun w => withShouldStop false (withIsRunning false w))).
Proof.
  apply respects_modify. intros w.
  apply (Rel_trans _ (withIsRunning false w));
    [apply Rel_isRunning | apply Rel_shouldStop].
Qed.

Lemma respects_runLoop (fuel : nat) (campaign : Campaign.t) :
  (forall paused, ok (processQueueCycle E (Campaign.id campaign) paused)) ->
  ok (runLoop E fuel campaign).
Proof.
  intros Hcycle. unfold runLoop.
  apply ok_bind; [now apply respects_workerLoop|].
  intros [|]; [|apply ok_ret].
  apply ok_bind; [apply respects_stopFlags | intros; apply ok_ret].
Qed.

Lemma respects_stopped : ok stopped.
Proof.
  unfold stopped. apply ok_bind; [|intros; apply ok_ret].
  apply respects_modify. intros w. apply Rel_isRunning.
Qed.

Lemma respects_failedToStart (prefix e : string) :
  ok (failedToStart prefix e).
Proof.
  unfold failedToStart.
  apply ok_bind; [apply respects_statsModify | intros; apply respects_stopped].
Qed.

(** The startup, given what the loop it enters respects. *)
Lemma respects_startCampaign_loop (fuel : nat) :
  (forall campaign, ok (runLoop E fuel campaign)) ->
  ok (startCampaign E fuel).
Proof.
  intros Hloop. unfold startCampaign, newDate.
  repeat (first
    [ apply respects_failedToStart
    | apply respects_stopped
    | apply respects_getActiveCampaign
    | apply respects_getWorkStatus
    | apply respects_campaignUpdate
    | apply Hloop
    | apply (respects_errorsStats (fun _ => 0))
    | respect_core ]).
Qed.


Lemma respects_startCampaign (fuel : nat) :
  (forall c paused, ok (processQueueCycle E c paused)) ->
  ok (startCampaign E fuel).
Proof.
  intros Hcycle. apply respects_startCampaign_loop.
  intros campaign. apply respects_runLoop. intros; apply Hcycle.
Qed.

Lemma respects_runWorkerLoop (fuel : nat) :
  (forall c paused, ok (processQueueCycle E c paused)) ->
  ok (runWorkerLoop E fuel).
Proof.
  intros Hcycle. unfold runWorkerLoop.
  apply ok_bind; [apply ok_nonFatal; apply respects_cleanup|].
  intros; now apply respects_startCampaign.
Qed.

End WorkerRelations.

(** The two requests to the provider always return: their failures are
    part of what they return. *)
Lemma triggerCall_run (E : Env) (call : Call.t) (w : World) :
  exists result,
    triggerCall E call w
    = (Ok result, awaited E (EvTriggerFetch (Call.id call)) w).
Proof.
  unfold triggerCall.
  destruct (triggerFetch E (ticks w) call) as [message|st errorText|data];
    try (eexists; reflexivity).
  destruct data; try (eexists; reflexivity).
  destruct (Json.truthyProp _); eexists; reflexivity.
Qed.

Lemma pollRunStatus_run (E : Env) (runId : string) (w : World) :
  exists status,
    pollRunStatus E runId w = (Ok status, awaited E (EvPollFetch runId) w).
Proof.
  unfold pollRunStatus.
  destruct (pollFetch E (ticks w) runId) as [|st body];
    [eexists; reflexivity|].
  destruct (st =? 404); [eexists; reflexivity|].
  destruct (negb _); [eexists; reflexivity|].
  destruct body; eexists; reflexivity.
Qed.

(** Facts about lists and the queries. *)
Lemma In_firstn {A : Type} (n : nat) (x : A) :
  forall l, In x (firstn n l) -> In x l.
Proof.
  induction n as [|n IH]; intros [|a l]; cbn; try contradiction.
  intros [<-|Hin]; [now left | right; now apply IH].
Qed.

Lemma In_insertByCreatedAt (c x : Call.t) (l : list Call.t) :
  In x (insertByCreatedAt c l) -> x = c \/ In x l.
Proof.
  induction l as [|y l IH]; cbn [insertByCreatedAt].
  - intros [<-|[]]. now left.
  - destruct (Call.createdAt c <=? Call.createdAt y).
    + intros [<-|Hin]; [now left | now right].
    + intros [<-|Hin]; [right; now left|].
      destruct (IH Hin) as [->|Hl]; [now left | right; now right].
Qed.

Lemma In_orderByCreatedAt (x : Call.t) (l : list Call.t) :
  In x (orderByCreatedAt l) -> In x l.
Proof.
  unfold orderByCreatedAt. induction l as [|c l IH]; cbn [fold_right];
    [trivial|].
  intros Hin. apply In_insertByCreatedAt in Hin as [->|Hin];
    [now left | right; now apply IH].
Qed.

Lemma NoDup_map_injective {A B : Type} (f : A -> B) (l : list A) (a b : A) :
  NoDup (map f l) -> In a l -> In b l -> f a = f b -> a = b.
Proof.
  induction l as [|x l IH]; intros Hnd Ha Hb Hf; [contradiction|].
  cbn [map] in Hnd. inversion Hnd as [|y ys Hnotin Hnd' Heq]; subst.
  destruct Ha as [<-|Ha], Hb as [<-|Hb]; trivial.
  - exfalso. apply Hnotin. rewrite Hf. now apply in_map.
  - exfalso. apply Hnotin. rewrite <- Hf. now apply in_map.
  - now apply IH.
Qed.

Lemma updateById_keeps (id : string) (f : Call.t -> Call.t) (c : Call.t) :
  Call.id c <> id ->
  forall cs cs', updateById id f cs = Some cs' -> In c cs -> In c cs'.
Proof.
  intros Hid. induction cs as [|row cs IH]; intros cs' Hu Hin;
    [contradiction|].
  cbn [updateById] in Hu.
  destruct (String.eqb (Call.id row) id) eqn:Hrow.
  - injection Hu as <-. destruct Hin as [->|Hin]; [|now right].
    apply String.eqb_eq in Hrow. contradiction.
  - destruct (updateById id f cs) as [rest|]; [|discriminate].
    injection Hu as <-. destruct Hin as [->|Hin]; [now left|].
    right. now apply IH.
Qed.

Lemma pendingOf_spec (campaignId : string) (take : Z) (cs : list Call.t)
    (c : Call.t) :
  In c (pendingOf campaignId take cs) ->
  In c cs /\ Call.status c = CallStatus.PENDING.
Proof.
  unfold pendingOf. intros Hin.
  apply In_firstn, In_orderByCreatedAt, filter_In in Hin as [Hin Hsel].
  apply andb_true_iff in Hsel as [_ Hst].
  split; [exact Hin | now destruct (Call.status c)].
Qed.

(** ** The run-identifier invariant *)

Lemma callInv_apply (d : Call.data) (t : Z) (c : Call.t) :
  dataSafe d = true -> callInv c -> callInv (Call.apply d t c).
Proof.
  unfold dataSafe, callInv. destruct d as [st rid ? ? ? ? ? ? ?]. cbn.
  destruct st as [[]|], rid as [r|]; cbn; try discriminate; auto;
    intros _ _; discriminate.
Qed.

Lemma updateById_Forall (P : Call.t -> Prop) (id : string)
    (f : Call.t -> Call.t) :
  (forall c, P c -> P (f c)) ->
  forall cs cs', updateById id f cs = Some cs' -> Forall P cs -> Forall P cs'.
Proof.
  intros Hf. induction cs as [|c cs IH]; intros cs' Hu Hall; [discriminate|].
  cbn in Hu. inversion Hall as [|? ? Hc Hcs]; subst.
  destruct (String.eqb (Call.id c) id).
  - injection Hu as <-. constructor; auto.
  - destruct (updateById id f cs) as [rest|]; [|discriminate].
    injection Hu as <-. constructor; auto.
Qed.

Lemma map_if_Forall (P : Call.t -> Prop) (sel : Call.t -> bool)
    (f : Call.t -> Call.t) (cs : list Call.t) :
  (forall c, P c -> P (f c)) ->
  Forall P cs -> Forall P (map (fun c => if sel c then f c else c) cs).
Proof.
  intros Hf Hall. induction Hall as [|c cs Hc Hcs IH]; cbn; constructor; auto.
  destruct (sel c); auto.
Qed.

Ltac keepsInv_read :=
  intros; intros [? ?]; split; cbn; auto; constructor; cbn; auto.

Section Invariant.

Variable E : Env.

Lemma dataSafe_terminal (s : CallStatus.t) (t : Z) (x : Extracted)
    (m : option string) :
  s <> CallStatus.RUNNING -> s <> CallStatus.PENDING ->
  dataSafe (dataTerminal s t x m) = true.
Proof. destruct s; cbn; congruence. Qed.

(** Every function of the worker carries the invariant along.  The
    obligations are those of [WorkerRelations], for the updates that are
    [dataSafe]. *)
Ltac keepsInv_obligations :=
  first
    [ exact (fun w H => H)
    | exact (fun a b c Hab Hbc H => Hbc (Hab H))
    | exact dataSafe_terminal
    | (intros; reflexivity)
    | (intros id d t w cs Hd Hu [Hc Ht]; split; cbn; [|exact Ht];
       eapply updateById_Forall; [|exact Hu|exact Hc];
       intros c; now apply callInv_apply)
    | (intros ids t t' w [Hc Ht]; split; cbn; [|exact Ht];
       apply map_if_Forall; [|exact Hc]; intros c; now apply callInv_apply)
    | keepsInv_read ].

Lemma keepsInv_processQueueCycle (campaignId : string) (paused : bool) :
  respects keepsInv (processQueueCycle E campaignId paused).
Proof.
  apply (respects_processQueueCycle E keepsInv)
    with (okData := fun d => dataSafe d = true); keepsInv_obligations.
Qed.

Lemma keepsInv_runWorkerLoop (fuel : nat) :
  respects keepsInv (runWorkerLoop E fuel).
Proof.
  apply (respects_runWorkerLoop E keepsInv);
    first [exact keepsInv_processQueueCycle | keepsInv_obligations].
Qed.

Lemma keepsInv_cleanup : respects keepsInv (cleanupZombieRunningCalls E).
Proof.
  apply (respects_cleanup E keepsInv); keepsInv_obligations.
Qed.

Lemma runningOf_spec (campaignId : string) (cs : list Call.t) (c : Call.t) :
  In c (runningOf campaignId cs) ->
  In c cs /\ Call.campaignId c = campaignId
  /\ Call.status c = CallStatus.RUNNING /\ Call.runId c <> None.
Proof.
  unfold runningOf. intros H. apply filter_In in H as [Hin H].
  apply andb_true_iff in H as [H Hrun].
  apply andb_true_iff in H as [Hcid Hst].
  apply String.eqb_eq in Hcid.
  repeat split; trivial.
  - now destruct (Call.status c).
  - unfold hasRunId in Hrun. now destruct (Call.runId c).
Qed.

(** *** Run identifiers are persisted on successful triggers only *)

Lemma keepsEarned_refl (w : World) : keepsEarned E w w.
Proof. exact (fun H => H). Qed.

Lemma keepsEarned_trans (a b c : World) :
  keepsEarned E a b -> keepsEarned E b c -> keepsEarned E a c.
Proof. exact (fun Hab Hbc H => Hbc (Hab H)). Qed.

(** An effect that writes no run identifier keeps the record in order. *)
Lemma earned_awaited (ev : Event) (w : World) :
  match ev with
  | EvCallUpdate _ d | EvCallUpdateMany _ d => Call.setRunId d = None
  | _ => True
  end ->
  keepsEarned E w (awaited E ev w).
Proof.
  intros Hev Hinv. unfold earnedInv. cbn [awaited ticks trace runIdsEarned].
  split; [|exact Hinv].
  destruct ev; cbn [writeEarned]; trivial. now rewrite Hev.
Qed.

Ltac keepsEarned_obligations :=
  first
    [ exact keepsEarned_refl
    | exact keepsEarned_trans
    | (intros; reflexivity)
    | (intros; apply earned_awaited; first [exact I | reflexivity | assumption])
    | (intros; exact (fun H => H)) ].

Lemma keepsEarned_callUpdate (id : string) (d : Call.data) :
  Call.setRunId d = None -> respects (keepsEarned E) (callUpdate E id d).
Proof.
  intros Hd.
  apply (respects_callUpdate E (keepsEarned E))
    with (okData := fun d => Call.setRunId d = None);
    first [exact Hd | keepsEarned_obligations].
Qed.

Lemma keepsEarned_statsModify (f : Stats.t -> Stats.t) :
  respects (keepsEarned E) (modify (fun w => withStats (f (stats w)) w)).
Proof. intros w H. exact H. Qed.

Lemma keepsEarned_callCount (c : string) (st : CallStatus.t) :
  respects (keepsEarned E) (callCount E c st).
Proof.
  apply (respects_callCount E (keepsEarned E)); keepsEarned_obligations.
Qed.

Lemma keepsEarned_callFindPending (c : string) (n : Z) :
  respects (keepsEarned E) (callFindPending E c n).
Proof.
  apply (respects_callFindPending E (keepsEarned E)); keepsEarned_obligations.
Qed.

Lemma keepsEarned_callFindRunning (c : string) :
  respects (keepsEarned E) (callFindRunning E c).
Proof.
  apply (respects_callFindRunning E (keepsEarned E)); keepsEarned_obligations.
Qed.

Lemma keepsEarned_pollStep (call : Call.t) (counts : Z * Z) :
  respects (keepsEarned E) (pollStep E call counts).
Proof.
  apply (respects_pollStep E (keepsEarned E))
    with (okData := fun d => Call.setRunId d = None);
    keepsEarned_obligations.
Qed.

Lemma keepsEarned_cleanup :
  respects (keepsEarned E) (cleanupZombieRunningCalls E).
Proof.
  apply (respects_cleanup E (keepsEarned E)); keepsEarned_obligations.
Qed.

(** The branch of the trigger loop taken on a failed trigger. *)
Lemma keepsEarned_triggerFailed (id : string) (error : option string)
    (n : Z) :
  respects (keepsEarned E)
    (t' <- newDate E ;;
     callUpdate E id (dataTriggerFailed error t') ;;
     modify (fun w => withStats (Stats.incFailed (stats w)) w) ;;
     ret (Next, n)).
Proof.
  unfold newDate.
  apply (respects_bind _ keepsEarned_trans);
    [apply (respects_gets _ keepsEarned_refl)|]. intros t'.
  apply (respects_bind _ keepsEarned_trans);
    [now apply keepsEarned_callUpdate|]. intros _.
  apply (respects_bind _ keepsEarned_trans);
    [apply keepsEarned_statsModify|]. intros _.
  apply (respects_ret _ keepsEarned_refl).
Qed.

(** A trigger reported as successful with a run identifier was answered
    by the provider with that identifier. *)
Lemma triggerCall_success (call : Call.t) (w w1 : World)
    (result : TriggerResult) :
  triggerCall E call w = (Ok result, w1) ->
  success result = true ->
  exists data,
    triggerFetch E (ticks w) call = TriggerBody data
    /\ resultRunId result = optIndex0 (Json.getProp data "queued_run_ids").
Proof.
  unfold triggerCall.
  destruct (triggerFetch E (ticks w) call) as [message|st errorText|data];
    try (intros [= <- _]; discriminate).
  destruct data;
    try (intros [= <- _]; discriminate);
    (destruct (Json.truthyProp _);
     intros [= <- _]; [|discriminate]; intros _;
     eexists; split; reflexivity).
Qed.

(** The update that follows a trigger request answered with [r]. *)
Lemma earned_running (call : Call.t) (r : string) (w w' : World) :
  earnedInv E w ->
  triggerAnswered E (ticks w) (Call.id call) r ->
  ticks w' = S (S (ticks w)) ->
  trace w'
  = EvCallUpdate (Call.id call) (dataRunning r)
    :: EvTriggerFetch (Call.id call) :: trace w ->
  earnedInv E w'.
Proof.
  intros Hinv Hans Hticks Htrace. unfold earnedInv.
  rewrite Hticks, Htrace. cbn [runIdsEarned writeEarned].
  cbn [Call.setRunId dataRunning]. repeat split; trivial.
Qed.

(** The trigger request and what the loop does with its result. *)
Lemma keepsEarned_triggered (call : Call.t) (n : Z) :
  respects (keepsEarned E)
    (result <- triggerCall E call ;;
     if success result && Json.truthyProp (resultRunId result) then
       match resultRunId result with
       | Some (JStr runId) =>
           callUpdate E (Call.id call) (dataRunning runId) ;;
           modify (fun w => withStats (Stats.incTriggered (stats w)) w) ;;
           ret (Next, n + 1)
       | _ => throw "Invalid value for argument runId: expected String"
       end
     else
       t' <- newDate E ;;
       callUpdate E (Call.id call) (dataTriggerFailed (error result) t') ;;
       modify (fun w => withStats (Stats.incFailed (stats w)) w) ;;
       ret (Next, n)).
Proof.
  intros w Hinv. unfold bind at 1.
  destruct (triggerCall_run E call w) as [result Hrun].
  pose proof (triggerCall_success call w _ result Hrun) as Hsuccess.
  rewrite Hrun. clear Hrun.
  assert (Hfetched : earnedInv E (awaited E (EvTriggerFetch (Call.id call)) w))
    by (now apply earned_awaited).
  set (w1 := awaited E (EvTriggerFetch (Call.id call)) w) in *.
  destruct (success result && Json.truthyProp (resultRunId result)) eqn:Hok;
    [|now apply keepsEarned_triggerFailed].
  apply andb_true_iff in Hok as [Hs Ht].
  destruct (Hsuccess Hs) as [data [Hfetch Hid]].
  destruct (resultRunId result) as [[| | |r| |]|]; try exact Hfetched.
  assert (Hans : triggerAnswered E (ticks w) (Call.id call) r).
  { exists call, data. repeat split; auto.
    cbn in Ht. now destruct r. }
  unfold bind, callUpdate, db, modify, ret.
  destruct (dbFails E (ticks w1));
    [now apply (earned_running call r w)|].
  destruct (updateById _ _ _); now apply (earned_running call r w).
Qed.

Lemma keepsEarned_triggerStep (call : Call.t) (n : Z) :
  respects (keepsEarned E) (triggerStep E call n).
Proof.
  unfold triggerStep, newDate.
  apply (respects_bind _ keepsEarned_trans);
    [apply (respects_gets _ keepsEarned_refl)|]. intros stop.
  destruct stop; [apply (respects_ret _ keepsEarned_refl)|].
  apply (respects_bind _ keepsEarned_trans);
    [apply (respects_gets _ keepsEarned_refl)|]. intros t.
  apply (respects_bind _ keepsEarned_trans);
    [now apply keepsEarned_callUpdate|]. intros _.
  apply keepsEarned_triggered.
Qed.

Lemma keepsEarned_processQueueCycle (campaignId : string) (paused : bool) :
  respects (keepsEarned E) (processQueueCycle E campaignId paused).
Proof.
  unfold processQueueCycle.
  apply (respects_bind _ keepsEarned_trans);
    [apply keepsEarned_callCount|]. intros runningCount.
  apply (respects_bind _ keepsEarned_trans).
  - destruct (negb paused); [|apply (respects_ret _ keepsEarned_refl)].
    cbn zeta.
    destruct (0 <? MAX_CONCURRENT E - runningCount);
      [|apply (respects_ret _ keepsEarned_refl)].
    apply (respects_bind _ keepsEarned_trans);
      [apply (respects_gets _ keepsEarned_refl)|]. intros errors.
    apply (respects_bind _ keepsEarned_trans);
      [apply keepsEarned_callFindPending|]. intros pendingCalls.
    apply (respects_forOf _ keepsEarned_refl keepsEarned_trans).
    intros; apply keepsEarned_triggerStep.
  - intros nTriggered.
    apply (respects_bind _ keepsEarned_trans);
      [apply keepsEarned_callFindRunning|]. intros runningCalls.
    apply (respects_bind _ keepsEarned_trans).
    + apply (respects_forOf _ keepsEarned_refl keepsEarned_trans).
      intros; apply keepsEarned_pollStep.
    + intros; apply (respects_ret _ keepsEarned_refl).
Qed.

Lemma keepsEarned_runWorkerLoop (fuel : nat) :
  respects (keepsEarned E) (runWorkerLoop E fuel).
Proof.
  apply (respects_runWorkerLoop E (keepsEarned E));
    first [exact keepsEarned_processQueueCycle | keepsEarned_obligations].
Qed.

(** *** What the poll phase polls *)

Lemma noPolls_refl (w : World) : noPolls w w.
Proof. exists []. split; [reflexivity | intros r []]. Qed.

Lemma noPolls_trans (a b c : World) :
  noPolls a b -> noPolls b c -> noPolls a c.
Proof.
  intros [e1 [H1 N1]] [e2 [H2 N2]]. exists (e2 ++ e1)%list.
  split; [now rewrite H2, H1, app_assoc|].
  intros r Hin. apply in_app_or in Hin as [Hin|Hin];
    [now apply (N2 r) | now apply (N1 r)].
Qed.

Lemma noPolls_awaited (ev : Event) (w : World) :
  (forall r, ev <> EvPollFetch r) -> noPolls w (awaited E ev w).
Proof.
  intros Hev. exists [ev]. split; [reflexivity|].
  intros r [Hin|[]]. now apply (Hev r).
Qed.

Ltac noPolls_obligations :=
  first
    [ exact noPolls_refl
    | exact noPolls_trans
    | (intros; exact I)
    | (intros; apply noPolls_awaited; intros; discriminate)
    | (intros; exists []; split; [reflexivity | intros ? []]) ].

Lemma noPolls_pollSettle (call : Call.t) (runId : string) (status : json)
    (polled completed : Z) :
  respects noPolls (pollSettle E call runId status polled completed).
Proof.
  apply (respects_pollSettle E noPolls) with (okData := fun _ => True);
    noPolls_obligations.
Qed.

(** One turn of the poll loop makes at most one request, for the run
    identifier of its call. *)
Lemma pollStep_polls (call : Call.t) (counts : Z * Z) (w : World) :
  exists evs,
    trace (snd (pollStep E call counts w)) = (evs ++ trace w)%list
    /\ forall r, In (EvPollFetch r) evs -> Call.runId call = Some r.
Proof.
  destruct counts as [polled completed].
  unfold pollStep, bind at 1, gets.
  assert (Hnone : exists evs,
            trace w = (evs ++ trace w)%list
            /\ forall r, In (EvPollFetch r) evs -> Call.runId call = Some r)
    by (exists []; split; [reflexivity | intros r []]).
  destruct (shouldStop w); [exact Hnone|].
  destruct (Call.runId call) as [runId|]; [|exact Hnone].
  destruct (Js.isEmpty runId); [exact Hnone|].
  unfold bind at 1.
  destruct (pollRunStatus_run E runId w) as [status ->].
  assert (Hone : forall w',
            noPolls (awaited E (EvPollFetch runId) w) w' ->
            exists evs,
              trace w' = (evs ++ trace w)%list
              /\ forall r, In (EvPollFetch r) evs -> Some runId = Some r).
  { intros w' [evs [Ht Hn]]. exists (evs ++ [EvPollFetch runId])%list.
    split; [now rewrite Ht, <- app_assoc|].
    intros r Hin. apply in_app_or in Hin as [Hin|[Hin|[]]];
      [now apply Hn in Hin | now injection Hin as ->]. }
  destruct (negb (Json.truthy status)).
  - apply Hone, noPolls_refl.
  - apply Hone, noPolls_pollSettle.
Qed.

Lemma pollLoop_polls (batch : list Call.t) :
  forall (counts : Z * Z) (w : World),
    exists evs,
      trace (snd (forOf batch counts (pollStep E) w)) = (evs ++ trace w)%list
      /\ forall r, In (EvPollFetch r) evs ->
                   exists c, In c batch /\ Call.runId c = Some r.
Proof.
  induction batch as [|call rest IH]; intros counts w.
  - exists []. split; [reflexivity | intros r []].
  - cbn [forOf]. unfold bind.
    destruct (pollStep_polls call counts w) as [e1 [H1 P1]].
    destruct (pollStep E call counts w) as [[[ctl counts']|e] w1];
      cbn [snd] in H1.
    + destruct ctl.
      * destruct (IH counts' w1) as [e2 [H2 P2]].
        exists (e2 ++ e1)%list. split; [now rewrite H2, H1, app_assoc|].
        intros r Hin. apply in_app_or in Hin as [Hin|Hin].
        -- destruct (P2 r Hin) as [c [Hc Hr]]. exists c. split; [now right|auto].
        -- exists call. split; [now left | auto].
      * exists e1. split; [exact H1|].
        intros r Hin. exists call. split; [now left | auto].
    + exists e1. split; [exact H1|].
      intros r Hin. exists call. split; [now left | auto].
Qed.

(** The poll phase polls only run identifiers of calls that the store
    holds as RUNNING calls of the campaign. *)
Lemma pollPhase_polls (campaignId : string) (w : World) :
  exists evs,
    trace (snd (pollPhase E campaignId w)) = (evs ++ trace w)%list
    /\ forall r,
         In (EvPollFetch r) evs ->
         exists c,
           In c (calls w)
           /\ Call.campaignId c = campaignId
           /\ Call.status c = CallStatus.RUNNING
           /\ Call.runId c = Some r.
Proof.
  unfold pollPhase, bind, callFindRunning, db, gets.
  destruct (dbFails E (ticks w)).
  { exists [EvCallFindRunning campaignId]. split; [reflexivity|].
    intros r [Hin|[]]. discriminate Hin. }
  cbn [calls awaited].
  destruct (pollLoop_polls (runningOf campaignId (calls w)) (0, 0)
              (awaited E (EvCallFindRunning campaignId) w)) as [evs [Ht Hp]].
  exists (evs ++ [EvCallFindRunning campaignId])%list. split.
  - destruct (forOf _ _ _ _) as [[counts|e] w1]; cbn [snd] in *;
      now rewrite Ht, <- app_assoc.
  - intros r Hin. apply in_app_or in Hin as [Hin|[Hin|[]]];
      [|discriminate Hin].
    destruct (Hp r Hin) as [c [Hc Hr]].
    apply runningOf_spec in Hc as [Hc [Hcid [Hst _]]].
    exists c. auto.
Qed.

(** A cycle is its trigger phase followed by its poll phase. *)
Lemma processQueueCycle_phases (campaignId : string) (paused : bool)
    (w : World) :
  processQueueCycle E campaignId paused w
  = (nTriggered <- triggerPhase E campaignId paused ;;
     counts <- pollPhase E campaignId ;;
     ret (mkCycleResult nTriggered (fst counts) (snd counts))) w.
Proof.
  unfold processQueueCycle, triggerPhase, pollPhase, bind.
  destruct (callCount E campaignId CallStatus.RUNNING w) as [[rc|e] w1];
    [|reflexivity].
  match goal with
  | |- context [let (r, w') := ?m w1 in _] => destruct (m w1) as [[n|e] w2]
  end; [|reflexivity].
  destruct (callFindRunning E campaignId w2) as [[l|e] w3]; [|reflexivity].
  now destruct (forOf l (0, 0) (pollStep E) w3) as [[counts|e] w4].
Qed.

(** C2: the worker keeps the invariant that a PENDING call has no run
    identifier and a RUNNING call has one, through a whole run of the
    worker, through a dispatch/poll cycle and through a pass of the reaper,
    however they end.  A run identifier is persisted only after a
    successful trigger: every update that writes one is the update that
    sets status RUNNING, issued right after the trigger request of that
    call, which the provider answered with that identifier.  And the poll
    phase, the second half of every cycle, polls only run identifiers of
    calls that the store holds as RUNNING calls of the campaign. *)
Theorem worker_keeps_run_id_invariant (w : World) :
  storeInv w ->
  earnedInv E w ->
  (forall fuel,
      let w' := snd (runWorkerLoop E fuel w) in
      storeInv w' /\ earnedInv E w')
  /\ (forall campaignId paused,
        let w' := snd (processQueueCycle E campaignId paused w) in
        storeInv w' /\ earnedInv E w')
  /\ (let w' := snd (cleanupZombieRunningCalls E w) in
      storeInv w' /\ earnedInv E w')
  /\ (forall campaignId,
        exists evs,
          trace (snd (pollPhase E campaignId w)) = (evs ++ trace w)%list
          /\ forall r,
               In (EvPollFetch r) evs ->
               exists c,
                 In c (calls w)
                 /\ Call.campaignId c = campaignId
                 /\ Call.status c = CallStatus.RUNNING
                 /\ Call.runId c = Some r)
  /\ (forall campaignId paused,
        processQueueCycle E campaignId paused w
        = (nTriggered <- triggerPhase E campaignId paused ;;
           counts <- pollPhase E campaignId ;;
           ret (mkCycleResult nTriggered (fst counts) (snd counts))) w)
  /\ (forall campaignId c,
        In c (runningOf campaignId (calls w)) ->
        Call.status c = CallStatus.RUNNING /\ Call.runId c <> None).
Proof.
  intros Hinv Hearned.
  split; [|split; [|split; [|split; [|split]]]].
  - intros fuel. split.
    + apply (keepsInv_runWorkerLoop fuel w Hinv).
    + apply (keepsEarned_runWorkerLoop fuel w Hearned).
  - intros campaignId paused. split.
    + apply (keepsInv_processQueueCycle campaignId paused w Hinv).
    + apply (keepsEarned_processQueueCycle campaignId paused w Hearned).
  - split.
    + apply (keepsInv_cleanup w Hinv).
    + apply (keepsEarned_cleanup w Hearned).
  - intros campaignId. apply pollPhase_polls.
  - intros campaignId paused. apply processQueueCycle_phases.
  - intros campaignId c H. apply runningOf_spec in H. tauto.
Qed.

End Invariant.

(** ** Capacity: the trigger phase and the concurrency ceiling *)

Lemma countCalls_cons (campaignId : string) (st : CallStatus.t) (c : Call.t)
    (cs : list Call.t) :
  countCalls campaignId st (c :: cs)
  = (if inCampaign campaignId st c then 1 else 0)
    + countCalls campaignId st cs.
Proof.
  unfold countCalls, inCampaign. cbn [filter].
  destruct (String.eqb (Call.campaignId c) campaignId
            && CallStatus.eqb (Call.status c) st); cbn [length]; lia.
Qed.

Lemma countCalls_updateById (campaignId : string) (st : CallStatus.t)
    (id : string) (f : Call.t -> Call.t) :
  forall cs cs',
    updateById id f cs = Some cs' ->
    countCalls campaignId st cs' <= countCalls campaignId st cs + 1.
Proof.
  induction cs as [|c cs IH]; intros cs' Hu; [discriminate|].
  cbn in Hu. destruct (String.eqb (Call.id c) id).
  - injection Hu as <-. rewrite !countCalls_cons.
    destruct (inCampaign campaignId st (f c)),
             (inCampaign campaignId st c); lia.
  - destruct (updateById id f cs) as [rest|]; [|discriminate].
    injection Hu as <-. rewrite !countCalls_cons.
    specialize (IH rest eq_refl). lia.
Qed.

Lemma countCalls_updateById_quiet (campaignId : string) (st : CallStatus.t)
    (id : string) (f : Call.t -> Call.t) :
  (forall c, inCampaign campaignId st (f c) = true ->
             inCampaign campaignId st c = true) ->
  forall cs cs',
    updateById id f cs = Some cs' ->
    countCalls campaignId st cs' <= countCalls campaignId st cs.
Proof.
  intros Hf. induction cs as [|c cs IH]; intros cs' Hu; [discriminate|].
  cbn in Hu. destruct (String.eqb (Call.id c) id).
  - injection Hu as <-. rewrite !countCalls_cons.
    specialize (Hf c).
    destruct (inCampaign campaignId st (f c)),
             (inCampaign campaignId st c); lia.
  - destruct (updateById id f cs) as [rest|]; [|discriminate].
    injection Hu as <-. rewrite !countCalls_cons.
    specialize (IH rest eq_refl). lia.
Qed.

Lemma countCalls_map_quiet (campaignId : string) (st : CallStatus.t)
    (sel : Call.t -> bool) (f : Call.t -> Call.t) (cs : list Call.t) :
  (forall c, inCampaign campaignId st (f c) = true ->
             inCampaign campaignId st c = true) ->
  countCalls campaignId st (map (fun c => if sel c then f c else c) cs)
  <= countCalls campaignId st cs.
Proof.
  intros Hf. induction cs as [|c cs IH]; [reflexivity|].
  cbn [map]. rewrite !countCalls_cons.
  destruct (sel c); [|lia]. specialize (Hf c).
  destruct (inCampaign campaignId st (f c)),
           (inCampaign campaignId st c); lia.
Qed.

Lemma quiet_apply (campaignId : string) (d : Call.data) (t : Z) (c : Call.t) :
  quiet d ->
  inCampaign campaignId CallStatus.RUNNING (Call.apply d t c) = true ->
  inCampaign campaignId CallStatus.RUNNING c = true.
Proof.
  unfold quiet, inCampaign. destruct d as [st ? ? ? ? ? ? ? ?]. cbn.
  intros Hq. destruct st as [s|]; cbn; [|trivial].
  destruct s; cbn; try (rewrite andb_false_r; discriminate). congruence.
Qed.

Section Capacity.

Variable E : Env.
Variable campaignId : string.

Local Notation "'R' w" := (runningCount campaignId w) (at level 10, w at level 9).

Lemma grows_refl (w : World) : grows campaignId 0 0 w w.
Proof. unfold grows. lia. Qed.

Lemma grows_trans (r1 t1 r2 t2 : Z) (a b c : World) :
  grows campaignId r1 t1 a b -> grows campaignId r2 t2 b c ->
  grows campaignId (r1 + r2) (t1 + t2) a c.
Proof. unfold grows. lia. Qed.

Lemma grows_weaken (r t r' t' : Z) (a b : World) :
  r <= r' -> t <= t' ->
  grows campaignId r t a b -> grows campaignId r' t' a b.
Proof. unfold grows. lia. Qed.

Lemma grows_awaited (ev : Event) (w : World) :
  isTriggerFetch ev = false -> grows campaignId 0 0 w (awaited E ev w).
Proof.
  intros Hev. unfold grows, runningCount, triggerFetches. cbn.
  rewrite Hev. lia.
Qed.

Lemma grows_triggerFetch (id : string) (w : World) :
  grows campaignId 0 1 w (awaited E (EvTriggerFetch id) w).
Proof. unfold grows, runningCount, triggerFetches. cbn [awaited calls trace filter isTriggerFetch length]. lia. Qed.

Lemma bounded_ret {A : Type} (a : A) (r t : Z) :
  0 <= r -> 0 <= t -> bounded campaignId r t (ret a).
Proof. intros Hr Ht w. apply (grows_weaken 0 0); trivial. apply grows_refl. Qed.

Lemma bounded_throw {A : Type} (e : string) (r t : Z) :
  0 <= r -> 0 <= t -> bounded campaignId r t (@throw A e).
Proof. intros Hr Ht w. apply (grows_weaken 0 0); trivial. apply grows_refl. Qed.

Lemma bounded_gets {A : Type} (f : World -> A) :
  bounded campaignId 0 0 (gets f).
Proof. intros w. apply grows_refl. Qed.

Lemma bounded_stats (f : Stats.t -> Stats.t) :
  bounded campaignId 0 0 (modify (fun w => withStats (f (stats w)) w)).
Proof. intros w. unfold grows, runningCount, triggerFetches. cbn. lia. Qed.

Lemma bounded_bind {A B : Type} (r1 t1 r2 t2 r t : Z) (m : M A)
    (f : A -> M B) :
  r1 + r2 <= r -> t1 + t2 <= t -> 0 <= r2 -> 0 <= t2 ->
  bounded campaignId r1 t1 m -> (forall a, bounded campaignId r2 t2 (f a)) ->
  bounded campaignId r t (bind m f).
Proof.
  intros Hr Ht Hr2 Ht2 Hm Hf w. unfold bind. specialize (Hm w).
  destruct (m w) as [[a|e] w1]; cbn in *.
  - apply (grows_weaken (r1 + r2) (t1 + t2)); trivial.
    eapply grows_trans; [exact Hm | apply Hf].
  - apply (grows_weaken r1 t1); trivial; lia.
Qed.

Lemma bounded_callUpdate_quiet (id : string) (d : Call.data) :
  quiet d -> bounded campaignId 0 0 (callUpdate E id d).
Proof.
  intros Hq w. unfold callUpdate, db.
  destruct (dbFails E (ticks w)); cbn; [now apply grows_awaited|].
  destruct (updateById id _ _) as [cs|] eqn:Hu; cbn;
    [|now apply grows_awaited].
  unfold grows, runningCount, triggerFetches. cbn. split; [|lia].
  pose proof (countCalls_updateById_quiet campaignId CallStatus.RUNNING id _
                (fun c => quiet_apply campaignId d _ c Hq) _ _ Hu).
  lia.
Qed.

Lemma bounded_callUpdate_running (id runId : string) :
  bounded campaignId 1 0 (callUpdate E id (dataRunning runId)).
Proof.
  intros w. unfold callUpdate, db.
  destruct (dbFails E (ticks w)); cbn;
    [apply (grows_weaken 0 0); try lia; now apply grows_awaited|].
  destruct (updateById id _ _) as [cs|] eqn:Hu; cbn;
    [|apply (grows_weaken 0 0); try lia; now apply grows_awaited].
  unfold grows, runningCount, triggerFetches. cbn. split; [|lia].
  apply (countCalls_updateById campaignId CallStatus.RUNNING) in Hu. lia.
Qed.

Lemma bounded_triggerCall (call : Call.t) :
  bounded campaignId 0 1 (triggerCall E call).
Proof.
  intros w. unfold triggerCall.
  destruct (triggerFetch E (ticks w) call) as [m|st txt|[]]; cbn [snd];
    try apply grows_triggerFetch;
    match goal with
    | |- context [if ?b then _ else _] =>
        destruct b; cbn [snd]; apply grows_triggerFetch
    end.
Qed.

Ltac bstep r1 t1 r2 t2 :=
  apply (bounded_bind r1 t1 r2 t2); [lia | lia | lia | lia | | intros].

(** One step of the trigger loop asks the provider for at most one call
    and turns at most one call RUNNING. *)
Lemma bounded_triggerStep (call : Call.t) (n : Z) :
  bounded campaignId 1 1 (triggerStep E call n).
Proof.
  unfold triggerStep, newDate.
  bstep 0 0 1 1; [apply bounded_gets|].
  destruct a; [apply bounded_ret; lia|].
  bstep 0 0 1 1; [apply bounded_gets|].
  bstep 0 0 1 1; [apply bounded_callUpdate_quiet; discriminate|].
  bstep 0 1 1 0; [apply bounded_triggerCall|].
  destruct (success a1 && Json.truthyProp (resultRunId a1)).
  - destruct (resultRunId a1) as [[]|]; try (apply bounded_throw; lia).
    bstep 1 0 0 0; [apply bounded_callUpdate_running|].
    bstep 0 0 0 0; [apply bounded_stats|].
    apply bounded_ret; lia.
  - bstep 0 0 0 0; [apply bounded_gets|].
    bstep 0 0 0 0; [apply bounded_callUpdate_quiet; discriminate|].
    bstep 0 0 0 0; [apply bounded_stats|].
    apply bounded_ret; lia.
Qed.

Lemma bounded_triggerLoop (l : list Call.t) :
  forall n, bounded campaignId (Z.of_nat (length l)) (Z.of_nat (length l))
              (forOf l n (triggerStep E)).
Proof.
  induction l as [|call l IH]; intros n; cbn [forOf length].
  - apply bounded_ret; lia.
  - apply (bounded_bind 1 1 (Z.of_nat (length l)) (Z.of_nat (length l)));
      try lia; [apply bounded_triggerStep|].
    intros [[|] n']; [apply IH | apply bounded_ret; lia].
Qed.

(** The poll phase starts nothing and turns no call RUNNING. *)
Lemma quiet_pollLoop (l : list Call.t) (counts : Z * Z) :
  respects (grows campaignId 0 0) (forOf l counts (pollStep E)).
Proof.
  apply respects_forOf.
  - exact grows_refl.
  - intros a b c. apply (grows_trans 0 0 0 0).
  - apply (respects_pollStep E (grows campaignId 0 0)) with (okData := quiet).
    + exact grows_refl.
    + intros a b c. apply (grows_trans 0 0 0 0).
    + discriminate.
    + intros s t x m Hr _. unfold quiet. cbn. congruence.
    + intros; now apply grows_awaited.
    + intros; now apply grows_awaited.
    + intros id d t w cs Hq Hu. unfold grows, runningCount, triggerFetches.
      cbn. split; [|lia].
      pose proof (countCalls_updateById_quiet campaignId CallStatus.RUNNING
                    id _ (fun c => quiet_apply campaignId d _ c Hq) _ _ Hu).
      lia.
    + intros. unfold grows, runningCount, triggerFetches. cbn. lia.
Qed.

Lemma length_pendingOf (c : string) (take : Z) (cs : list Call.t) :
  0 <= take -> Z.of_nat (length (pendingOf c take cs)) <= take.
Proof.
  intros Ht. unfold pendingOf.
  pose proof (firstn_le_length (Z.to_nat take)
    (orderByCreatedAt
       (filter (fun x => String.eqb (Call.campaignId x) c
                         && CallStatus.eqb (Call.status x) CallStatus.PENDING)
          cs))).
  lia.
Qed.

Lemma length_running_nonneg (w : World) : 0 <= R w.
Proof. unfold runningCount, countCalls. lia. Qed.

Lemma bounded_pollPhase (n : Z) :
  bounded campaignId 0 0
    (runningCalls <- callFindRunning E campaignId ;;
     counts <- forOf runningCalls (0, 0) (pollStep E) ;;
     ret (mkCycleResult n (fst counts) (snd counts))).
Proof.
  bstep 0 0 0 0.
  - intros w0. unfold callFindRunning, db.
    destruct (dbFails E (ticks w0)); cbn; now apply grows_awaited.
  - bstep 0 0 0 0; [apply quiet_pollLoop | apply bounded_ret; lia].
Qed.

Lemma bounded_triggerPhase (paused : bool) (runningNow : Z) (w : World) :
  runningNow = R w ->
  grows campaignId (batchLimit E campaignId w) (batchLimit E campaignId w) w
    (snd ((if negb paused then
             let slotsAvailable := MAX_CONCURRENT E - runningNow in
             if 0 <? slotsAvailable then
               errors <- gets consecutiveErrors ;;
               let takeCount :=
                 if 2 <? errors then Z.min slotsAvailable 5
                 else slotsAvailable in
               pendingCalls <- callFindPending E campaignId takeCount ;;
               forOf pendingCalls 0 (triggerStep E)
             else ret 0
           else ret 0) w)).
Proof.
  intros ->.
  assert (Hlim : 0 <= batchLimit E campaignId w).
  { unfold batchLimit. destruct (2 <? consecutiveErrors w); lia. }
  destruct (negb paused);
    [|apply (grows_weaken 0 0); trivial; apply grows_refl].
  cbn zeta.
  destruct (0 <? MAX_CONCURRENT E - R w) eqn:Hslots;
    [|apply (grows_weaken 0 0); trivial; apply grows_refl].
  apply Z.ltb_lt in Hslots.
  unfold bind at 1, gets.
  set (take := if 2 <? consecutiveErrors w
               then Z.min (MAX_CONCURRENT E - R w) 5
               else MAX_CONCURRENT E - R w).
  assert (Htake : take = batchLimit E campaignId w).
  { unfold take, batchLimit. destruct (2 <? consecutiveErrors w); lia. }
  unfold bind, callFindPending, db.
  destruct (dbFails E (ticks w)); cbn [snd gets].
  { apply (grows_weaken 0 0); trivial. now apply grows_awaited. }
  set (w1 := awaited E (EvCallFindPending campaignId take) w).
  assert (H1 : grows campaignId 0 0 w w1) by now apply grows_awaited.
  set (l := pendingOf campaignId take (calls w1)).
  assert (Hlen : Z.of_nat (length l) <= take)
    by (apply length_pendingOf; lia).
  pose proof (bounded_triggerLoop l 0 w1) as Hloop.
  destruct (forOf l 0 (triggerStep E) w1) as [[n|e] w2]; cbn [snd] in *;
    apply (grows_weaken (0 + Z.of_nat (length l)) (0 + Z.of_nat (length l)));
    try lia; apply (grows_trans _ _ _ _ w w1); trivial.
Qed.

Lemma bounded_pausedCycle (w : World) :
  grows campaignId 0 0 w (snd (processQueueCycle E campaignId true w)).
Proof.
  unfold processQueueCycle. cbn [negb].
  revert w. change (bounded campaignId 0 0
    (runningCount' <- callCount E campaignId CallStatus.RUNNING ;;
     nTriggered <- ret 0 ;;
     runningCalls <- callFindRunning E campaignId ;;
     counts <- forOf runningCalls (0, 0) (pollStep E) ;;
     ret (mkCycleResult nTriggered (fst counts) (snd counts)))).
  bstep 0 0 0 0.
  - intros w0. unfold callCount, db.
    destruct (dbFails E (ticks w0)); cbn; now apply grows_awaited.
  - bstep 0 0 0 0; [apply bounded_ret; lia | apply bounded_pollPhase].
Qed.

Lemma bounded_cycle (paused : bool) (w : World) :
  grows campaignId (batchLimit E campaignId w) (batchLimit E campaignId w) w
    (snd (processQueueCycle E campaignId paused w)).
Proof.
  assert (Hlim : 0 <= batchLimit E campaignId w).
  { unfold batchLimit. destruct (2 <? consecutiveErrors w); lia. }
  unfold processQueueCycle, bind at 1, callCount, db.
  destruct (dbFails E (ticks w)) eqn:Hfail; cbn [snd gets].
  { apply (grows_weaken 0 0); trivial. now apply grows_awaited. }
  set (w1 := awaited E (EvCallCount campaignId CallStatus.RUNNING) w).
  assert (H1 : grows campaignId 0 0 w w1) by now apply grows_awaited.
  assert (Hb : batchLimit E campaignId w1 = batchLimit E campaignId w) by reflexivity.
  pose proof (bounded_triggerPhase paused
                (countCalls campaignId CallStatus.RUNNING (calls w1))
                w1 eq_refl) as Htrig.
  rewrite Hb in Htrig. clearbody w1.
  apply (grows_weaken (0 + batchLimit E campaignId w) (0 + batchLimit E campaignId w)); try lia.
  apply (grows_trans 0 0 _ _ w w1); [exact H1|].
  unfold bind at 1.
  match type of Htrig with
  | grows _ _ _ _ (snd (?m w1)) => destruct (m w1) as [[n|e] w2]
  end; cbn [snd] in *; [|exact Htrig].
  apply (grows_weaken (batchLimit E campaignId w + 0) (batchLimit E campaignId w + 0)); try lia.
  apply (grows_trans _ _ 0 0 w1 w2); [exact Htrig|].
  apply bounded_pollPhase.
Qed.

End Capacity.

Section Ceiling.

Variable E : Env.
Variable campaign : Campaign.t.

Local Notation "'R' w" := (runningCount (Campaign.id campaign) w)
  (at level 10, w at level 9).

Lemma batchLimit_slots (w : World) :
  0 <= batchLimit E (Campaign.id campaign) w
    <= Z.max 0 (MAX_CONCURRENT E - R w).
Proof. unfold batchLimit. destruct (2 <? consecutiveErrors w); lia. Qed.

Lemma capped_cycle (paused : bool) :
  respects (capped (MAX_CONCURRENT E) (Campaign.id campaign))
    (processQueueCycle E (Campaign.id campaign) paused).
Proof.
  intros w. unfold capped.
  pose proof (bounded_cycle E (Campaign.id campaign) paused w) as [Hr _].
  pose proof (batchLimit_slots w). lia.
Qed.

Lemma capped_reaped (ids : list string) (t t' : Z) (w : World) :
  capped (MAX_CONCURRENT E) (Campaign.id campaign) w
    (withCalls
       (map (fun c => if memberOf ids (Call.id c)
                      then Call.apply (dataTimeout t) t' c else c)
          (calls w)) w).
Proof.
  unfold capped, runningCount. cbn [calls withCalls].
  assert (Hq : quiet (dataTimeout t)) by discriminate.
  eapply Z.le_trans; [|apply Z.le_max_l].
  apply (countCalls_map_quiet (Campaign.id campaign) CallStatus.RUNNING
           (fun c => memberOf ids (Call.id c))
           (Call.apply (dataTimeout t) t')).
  intros c. now apply quiet_apply.
Qed.

Ltac capped_obligations :=
  first
    [ exact capped_cycle
    | exact capped_reaped
    | (intros a b c; unfold capped; lia)
    | (intros; unfold capped, runningCount; cbn [calls awaited withCampaigns
         withStats withConsecutiveErrors withIsRunning withShouldStop]; lia) ].

(** Through the whole loop that drives a campaign its RUNNING calls stay
    within the ceiling. *)
Lemma capped_runLoop (fuel : nat) :
  respects (capped (MAX_CONCURRENT E) (Campaign.id campaign))
    (runLoop E fuel campaign).
Proof.
  apply (respects_runLoop E (capped (MAX_CONCURRENT E) (Campaign.id campaign)));
    capped_obligations.
Qed.

(** C1: in every dispatch cycle of every campaign the trigger phase asks
    the provider to start at most (ceiling - RUNNING) calls, none when that
    is not positive or when the campaign is paused, so the RUNNING calls of
    the campaign do not come to exceed the ceiling, in the cycle and
    through the whole loop; and once the consecutive-error counter is above
    2 the batch is capped at 5. *)
Theorem trigger_phase_within_capacity (paused : bool) (w : World) :
  let w' := snd (processQueueCycle E (Campaign.id campaign) paused w) in
  let started := triggerFetches w' - triggerFetches w in
  0 <= started <= Z.max 0 (MAX_CONCURRENT E - R w)
  /\ R w' <= Z.max (R w) (MAX_CONCURRENT E)
  /\ (2 < consecutiveErrors w -> started <= 5)
  /\ (paused = true -> started = 0)
  /\ (forall fuel,
        R (snd (runLoop E fuel campaign w))
        <= Z.max (R w) (MAX_CONCURRENT E)).
Proof.
  cbn zeta.
  pose proof (bounded_cycle E (Campaign.id campaign) paused w) as [Hr Ht].
  pose proof (batchLimit_slots w) as Hslots.
  repeat split; try lia.
  - intros Herr. apply Z.ltb_lt in Herr.
    unfold batchLimit in Ht. rewrite Herr in Ht. lia.
  - intros ->.
    pose proof (bounded_pausedCycle E (Campaign.id campaign) w) as [_ Hp]. lia.
  - intros fuel. apply capped_runLoop.
Qed.

End Ceiling.

(** ** Polling one call *)

Lemma updateById_found (id : string) (f : Call.t -> Call.t) :
  (forall c, Call.id (f c) = Call.id c) ->
  forall cs row,
    findCall id cs = Some row ->
    exists cs', updateById id f cs = Some cs'
                /\ findCall id cs' = Some (f row).
Proof.
  intros Hid. unfold findCall.
  induction cs as [|c cs IH]; intros row Hfind; [discriminate|].
  cbn in Hfind |- *. destruct (String.eqb (Call.id c) id) eqn:Hc.
  - injection Hfind as <-. eexists; split; [reflexivity|].
    cbn. now rewrite Hid, Hc.
  - destruct (IH row Hfind) as [cs' [Hu Hf]]. rewrite Hu.
    eexists; split; [reflexivity|]. cbn. now rewrite Hc.
Qed.

Section Poll.

Variable E : Env.

Lemma pollRunStatus_not_found (runId : string) (body : option json)
    (w : World) :
  pollFetch E (ticks w) runId = PollResponse 404 body ->
  pollRunStatus E runId w
  = (Ok (JObj [("status", JStr "not_found")]), awaited E (EvPollFetch runId) w).
Proof. intros H. unfold pollRunStatus. now rewrite H. Qed.

Lemma pollRunStatus_unavailable (runId : string) (w : World) :
  pollUnavailable (pollFetch E (ticks w) runId) = true ->
  pollRunStatus E runId w = (Ok JNull, awaited E (EvPollFetch runId) w).
Proof.
  unfold pollRunStatus, pollUnavailable.
  destruct (pollFetch E (ticks w) runId) as [|st body]; [reflexivity|].
  intros H. apply andb_true_iff in H as [H404 H].
  apply negb_true_iff in H404. rewrite H404.
  destruct (negb ((200 <=? st) && (st <=? 299))); [reflexivity|].
  cbn in H. now destruct body.
Qed.

End Poll.

(** ** The stale-call reaper *)

Lemma memberOf_map_id (cs : list Call.t) (sel : Call.t -> bool) (c : Call.t) :
  In c cs -> sel c = true ->
  memberOf (map Call.id (filter sel cs)) (Call.id c) = true.
Proof.
  intros Hin Hsel. unfold memberOf. apply existsb_exists.
  exists (Call.id c). split; [|apply String.eqb_refl].
  apply in_map. apply filter_In. now split.
Qed.


Section Reaper.

Variable E : Env.

Lemma cleanup_run (w : World) :
  dbFails E (ticks w) = false ->
  dbFails E (S (ticks w)) = false ->
  let cutoff := now E w - RUNNING_CALL_TIMEOUT_MS in
  let ids := map Call.id (filter (isStale cutoff) (calls w)) in
  let w1 := awaited E (EvCallFindStale cutoff) w in
  cleanupZombieRunningCalls E w
  = if (length ids =? 0)%nat then (Ok 0, w1)
    else (Ok (Z.of_nat (length ids)),
          withCalls
            (map (fun c => if memberOf ids (Call.id c)
                           then Call.apply (dataTimeout (now E w1))
                                  (clock E (S (S (ticks w)))) c
                           else c) (calls w))
            (awaited E (EvCallUpdateMany ids (dataTimeout (now E w1))) w1)).
Proof.
  intros H0 H1. cbn zeta.
  unfold cleanupZombieRunningCalls, bind at 1, newDate, gets.
  unfold bind at 1, callFindStale, db, gets. rewrite H0. cbn [calls awaited].
  destruct (length _ =? 0)%nat; [reflexivity|].
  unfold bind, callUpdateMany, db, modify, gets, ret. cbn [ticks awaited].
  rewrite H1. reflexivity.
Qed.


Lemma cleanup_reaperRuns (w : World) :
  reaperRuns (snd (cleanupZombieRunningCalls E w)) = reaperRuns w + 1.
Proof.
  unfold cleanupZombieRunningCalls, bind at 1, newDate, gets.
  unfold bind at 1, callFindStale, db, gets.
  destruct (dbFails E (ticks w));
    [unfold reaperRuns; cbn [snd awaited trace filter isReaperQuery length]; lia|].
  cbn [calls awaited].
  destruct (length _ =? 0)%nat;
    [unfold reaperRuns; cbn [snd ret awaited trace filter isReaperQuery length]; lia|].
  unfold bind, callUpdateMany, db, modify, gets, ret. cbn [ticks awaited].
  destruct (dbFails E (S (ticks w)));
    unfold reaperRuns;
    cbn [snd withCalls awaited trace filter isReaperQuery length]; lia.
Qed.

Lemma nonFatal_run {A : Type} (m : M A) (w : World) :
  nonFatal m w = (Ok tt, snd (m w)).
Proof.
  unfold nonFatal, tryCatch, bind, ret. now destruct (m w) as [[a|e] w1].
Qed.

Lemma extends_refl (w : World) : extends w w.
Proof. now exists []. Qed.

Lemma extends_trans (a b c : World) :
  extends a b -> extends b c -> extends a c.
Proof.
  intros [e1 H1] [e2 H2]. exists (e2 ++ e1)%list.
  now rewrite H2, H1, app_assoc.
Qed.











Lemma cycleReap_reaperRuns (n : Z) (w : World) :
  cycleReap E n w = (Ok tt, snd (cycleReap E n w))
  /\ reaperRuns (snd (cycleReap E n w)) = reaperRuns w + reaperDue n.
Proof.
  unfold cycleReap, reaperDue.
  destruct (n mod ZOMBIE_CLEANUP_EVERY_CYCLES =? 0).
  - rewrite nonFatal_run. cbn [snd]. split; [reflexivity|].
    apply cleanup_reaperRuns.
  - cbn. split; [reflexivity | lia].
Qed.
























End Reaper.

(** ** The next cycle polls again *)

Lemma stopKept_trans (a b c : World) :
  stopKept a b -> stopKept b c -> stopKept a c.
Proof. exact (fun Hab Hbc H => Hbc (Hab H)). Qed.

Ltac stopKept_obligations :=
  first
    [ exact (fun w H => H)
    | exact stopKept_trans
    | (intros; exact I)
    | (unfold stopKept; intros; cbn [awaited shouldStop];
       first
         [ assumption
         | match goal with
           | Hstop : shouldStop _ = true |- _ => now rewrite Hstop
           end ]) ].

Ltac extends_steps :=
  first
    [ exact extends_refl
    | exact extends_trans
    | (intros; exact I)
    | (intros; eexists [_]; reflexivity)
    | (intros; exists []; reflexivity) ].

Section Retry.

Variable E : Env.

Lemma stopKept_pollStep (call : Call.t) (counts : Z * Z) :
  respects stopKept (pollStep E call counts).
Proof.
  apply (respects_pollStep E stopKept) with (okData := fun _ => True);
    stopKept_obligations.
Qed.

Lemma stopKept_pollLoop (batch : list Call.t) (counts : Z * Z) :
  respects stopKept (forOf batch counts (pollStep E)).
Proof.
  apply (respects_forOf stopKept (fun w H => H) stopKept_trans).
  intros; apply stopKept_pollStep.
Qed.

Lemma extends_pollSettle (call : Call.t) (runId : string) (status : json)
    (polled completed : Z) :
  respects extends (pollSettle E call runId status polled completed).
Proof.
  apply (respects_pollSettle E extends) with (okData := fun _ => True);
    extends_steps.
Qed.

Lemma extends_pollStep (call : Call.t) (counts : Z * Z) :
  respects extends (pollStep E call counts).
Proof.
  apply (respects_pollStep E extends) with (okData := fun _ => True);
    extends_steps.
Qed.

Lemma extends_pollLoop (batch : list Call.t) (counts : Z * Z) :
  respects extends (forOf batch counts (pollStep E)).
Proof.
  apply (respects_forOf extends extends_refl extends_trans).
  intros; apply extends_pollStep.
Qed.

Lemma extends_triggerStep (call : Call.t) (n : Z) :
  respects extends (triggerStep E call n).
Proof.
  apply (respects_triggerStep E extends) with (okData := fun _ => True);
    extends_steps.
Qed.

Lemma extends_triggerPhase (campaignId : string) (paused : bool) :
  respects extends (triggerPhase E campaignId paused).
Proof.
  unfold triggerPhase.
  apply (respects_bind _ extends_trans).
  { apply (respects_callCount E extends); extends_steps. }
  intros runningCount.
  destruct (negb paused); [|apply (respects_ret _ extends_refl)].
  cbn zeta.
  destruct (0 <? MAX_CONCURRENT E - runningCount);
    [|apply (respects_ret _ extends_refl)].
  apply (respects_bind _ extends_trans);
    [apply (respects_gets _ extends_refl)|]. intros errors.
  apply (respects_bind _ extends_trans).
  { apply (respects_callFindPending E extends); extends_steps. }
  intros pendingCalls.
  apply (respects_forOf _ extends_refl extends_trans).
  intros; apply extends_triggerStep.
Qed.

(** The part of the loop body that follows the provider's answer never
    breaks the loop. *)
Lemma pollSettle_next (call : Call.t) (runId : string) (status : json)
    (polled completed : Z) (w w' : World) (ctl : LoopCtl) (counts : Z * Z) :
  pollSettle E call runId status polled completed w = (Ok (ctl, counts), w') ->
  ctl = Next.
Proof.
  unfold pollSettle, bind, newDate, gets, modify, ret, throw.
  repeat match goal with
         | |- context [match ?x with _ => _ end] =>
             match x with
             | context [match _ with _ => _ end] => fail 1
             | _ => destruct x
             end
         | |- context [if ?b then _ else _] => destruct b
         end;
    intros H; try discriminate H; now injection H as <-.
Qed.

(** The poll loop breaks only on the stop signal. *)
Lemma pollStep_break (call : Call.t) (counts counts' : Z * Z)
    (w w' : World) :
  pollStep E call counts w = (Ok (Break, counts'), w') ->
  shouldStop w = true.
Proof.
  destruct counts as [polled completed].
  unfold pollStep, bind at 1, gets.
  destruct (shouldStop w); [reflexivity|].
  destruct (Call.runId call) as [runId|]; [|discriminate].
  destruct (Js.isEmpty runId); [discriminate|].
  unfold bind at 1.
  destruct (pollRunStatus_run E runId w) as [status ->].
  destruct (negb (Json.truthy status)); [discriminate|].
  intros H. apply pollSettle_next in H. discriminate H.
Qed.

(** A turn of the poll loop made without the stop signal, for a call
    with a run identifier, polls that identifier. *)
Lemma pollStep_issues (call : Call.t) (r : string) (counts : Z * Z)
    (w : World) :
  shouldStop w = false ->
  Call.runId call = Some r ->
  Js.isEmpty r = false ->
  exists evs,
    trace (snd (pollStep E call counts w)) = (evs ++ trace w)%list
    /\ In (EvPollFetch r) evs.
Proof.
  intros Hstop Hrun Hne. destruct counts as [polled completed].
  unfold pollStep, bind at 1, gets. rewrite Hstop, Hrun, Hne.
  unfold bind at 1.
  destruct (pollRunStatus_run E r w) as [status ->].
  assert (Hpolled : forall w',
            extends (awaited E (EvPollFetch r) w) w' ->
            exists evs,
              trace w' = (evs ++ trace w)%list /\ In (EvPollFetch r) evs).
  { intros w' [evs Ht]. exists (evs ++ [EvPollFetch r])%list.
    split; [now rewrite Ht, <- app_assoc|].
    apply in_or_app. right. now left. }
  destruct (negb (Json.truthy status)).
  - apply Hpolled, extends_refl.
  - apply Hpolled, extends_pollSettle.
Qed.

(** A poll loop that runs to its end without the stop signal polls
    every call of its batch that has a run identifier. *)
Lemma pollLoop_reaches (c : Call.t) (r : string) (batch : list Call.t) :
  Call.runId c = Some r ->
  Js.isEmpty r = false ->
  In c batch ->
  forall (counts counts' : Z * Z) (w w' : World),
    forOf batch counts (pollStep E) w = (Ok counts', w') ->
    shouldStop w' = false ->
    exists evs,
      trace w' = (evs ++ trace w)%list /\ In (EvPollFetch r) evs.
Proof.
  intros Hrun Hne. induction batch as [|x rest IH]; intros Hin; [contradiction|].
  intros counts counts' w w' Hloop Hclear.
  assert (Hstop : shouldStop w = false).
  { pose proof (stopKept_pollLoop (x :: rest) counts w) as Hkept.
    rewrite Hloop in Hkept. cbn [snd] in Hkept. unfold stopKept in Hkept.
    destruct (shouldStop w); [|reflexivity].
    rewrite (Hkept eq_refl) in Hclear. discriminate. }
  cbn [forOf] in Hloop. unfold bind in Hloop.
  pose proof (extends_pollStep x counts w) as Hext.
  pose proof (pollStep_issues x r counts w Hstop) as Hissue.
  destruct (pollStep E x counts w) as [[[ctl counts1]|e] w1] eqn:Hstep;
    [|discriminate].
  cbn [snd] in Hext, Hissue.
  destruct ctl.
  - pose proof (extends_pollLoop rest counts1 w1) as Hrest.
    rewrite Hloop in Hrest. cbn [snd] in Hrest.
    destruct Hin as [<-|Hin].
    + destruct (Hissue Hrun Hne) as [e1 [H1 Hin1]].
      destruct Hrest as [e2 H2]. exists (e2 ++ e1)%list.
      split; [now rewrite H2, H1, app_assoc|].
      apply in_or_app. now right.
    + destruct (IH Hin counts1 counts' w1 w' Hloop Hclear) as [e2 [H2 Hin2]].
      destruct Hext as [e1 H1]. exists (e2 ++ e1)%list.
      split; [now rewrite H2, H1, app_assoc|].
      apply in_or_app. now left.
  - apply pollStep_break in Hstep. congruence.
Qed.

Lemma keepsRow_trans (c : Call.t) (x y z : World) :
  keepsRow c x y -> keepsRow c y z -> keepsRow c x z.
Proof. exact (fun Hxy Hyz H => Hyz (Hxy H)). Qed.

Lemma keepsRow_callUpdate (c : Call.t) (id : string) (d : Call.data) :
  Call.id c <> id -> respects (keepsRow c) (callUpdate E id d).
Proof.
  intros Hid w Hin. unfold callUpdate, db.
  destruct (dbFails E (ticks w)); [exact Hin|].
  cbn [calls awaited].
  destruct (updateById id _ (calls w)) as [cs|] eqn:Hu; [|exact Hin].
  exact (updateById_keeps id _ c Hid _ _ Hu Hin).
Qed.

(** A turn of the trigger loop leaves the rows of the other calls as
    they are. *)
Lemma keepsRow_triggerStep (c call : Call.t) (n : Z) :
  Call.id c <> Call.id call ->
  respects (keepsRow c) (triggerStep E call n).
Proof.
  intros Hid. unfold triggerStep, newDate.
  assert (Hrefl : forall w, keepsRow c w w) by exact (fun w H => H).
  assert (Htrans := keepsRow_trans c).
  assert (Hstats : forall f,
    respects (keepsRow c)
      (modify (fun w => withStats (f (stats w)) w)))
    by (intros f w H; exact H).
  apply (respects_bind _ Htrans); [apply (respects_gets _ Hrefl)|].
  intros stop. destruct stop; [apply (respects_ret _ Hrefl)|].
  apply (respects_bind _ Htrans); [apply (respects_gets _ Hrefl)|]. intros t.
  apply (respects_bind _ Htrans); [now apply keepsRow_callUpdate|]. intros _.
  apply (respects_bind _ Htrans).
  { intros w. destruct (triggerCall_run E call w) as [result ->].
    exact (fun H => H). }
  intros result.
  destruct (success result && Json.truthyProp (resultRunId result)).
  - destruct (resultRunId result) as [[| | |runId| |]|];
      try apply (respects_throw _ Hrefl).
    apply (respects_bind _ Htrans); [now apply keepsRow_callUpdate|].
    intros _.
    apply (respects_bind _ Htrans); [apply Hstats|]. intros _.
    apply (respects_ret _ Hrefl).
  - apply (respects_bind _ Htrans); [apply (respects_gets _ Hrefl)|].
    intros t'.
    apply (respects_bind _ Htrans); [now apply keepsRow_callUpdate|].
    intros _.
    apply (respects_bind _ Htrans); [apply Hstats|]. intros _.
    apply (respects_ret _ Hrefl).
Qed.

Lemma keepsRow_triggerLoop (c : Call.t) (batch : list Call.t) :
  (forall call, In call batch -> Call.id c <> Call.id call) ->
  forall n, respects (keepsRow c) (forOf batch n (triggerStep E)).
Proof.
  induction batch as [|call rest IH]; intros Hids n.
  - exact (fun w H => H).
  - cbn [forOf]. apply (respects_bind _ (keepsRow_trans c)).
    + apply keepsRow_triggerStep, Hids. now left.
    + intros [[|] n']; [|exact (fun w H => H)].
      apply IH. intros call' Hin. apply Hids. now right.
Qed.

(** The trigger phase leaves a RUNNING call as it is: with distinct
    identifiers, it updates PENDING calls only. *)
Lemma triggerPhase_keeps (c : Call.t) (campaignId : string) (paused : bool)
    (w : World) :
  NoDup (map Call.id (calls w)) ->
  Call.status c = CallStatus.RUNNING ->
  In c (calls w) ->
  In c (calls (snd (triggerPhase E campaignId paused w))).
Proof.
  intros Hnd Hst Hin. unfold triggerPhase, bind at 1, callCount, db, gets.
  destruct (dbFails E (ticks w)); [exact Hin|].
  destruct (negb paused); [|exact Hin]. cbn zeta.
  destruct (0 <? _); [|exact Hin].
  unfold bind at 1, gets. unfold bind at 1, callFindPending, db, gets.
  cbn [ticks awaited]. destruct (dbFails E (S (ticks w))); [exact Hin|].
  cbn [calls awaited consecutiveErrors].
  apply keepsRow_triggerLoop; [|exact Hin].
  intros call Hcall Hid.
  apply pendingOf_spec in Hcall as [Hcall Hpending].
  assert (Heq : c = call)
    by exact (NoDup_map_injective Call.id _ _ _ Hnd Hin Hcall Hid).
  subst call. congruence.
Qed.

(** A call that the store holds as RUNNING with a run identifier is
    polled by every cycle of its campaign that returns with the stop
    signal clear. *)
Lemma cycle_polls_running_call (c : Call.t) (r : string) (paused : bool)
    (w w' : World) (result : CycleResult) :
  Call.runId c = Some r ->
  Js.isEmpty r = false ->
  Call.status c = CallStatus.RUNNING ->
  In c (calls w) ->
  NoDup (map Call.id (calls w)) ->
  processQueueCycle E (Call.campaignId c) paused w = (Ok result, w') ->
  shouldStop w' = false ->
  exists evs,
    trace w' = (evs ++ trace w)%list /\ In (EvPollFetch r) evs.
Proof.
  intros Hrun Hne Hst Hin Hnd Hcycle Hclear.
  rewrite processQueueCycle_phases in Hcycle. unfold bind at 1 in Hcycle.
  pose proof (triggerPhase_keeps c (Call.campaignId c) paused w Hnd Hst Hin)
    as Hkept.
  pose proof (extends_triggerPhase (Call.campaignId c) paused w) as [e0 H0].
  destruct (triggerPhase E (Call.campaignId c) paused w) as [[n|e] wa];
    [|discriminate].
  cbn [snd] in Hkept, H0.
  unfold bind at 1, pollPhase, bind at 1, callFindRunning, db, gets in Hcycle.
  destruct (dbFails E (ticks wa)); [discriminate|].
  cbn [calls awaited] in Hcycle.
  destruct (forOf (runningOf (Call.campaignId c) (calls wa)) (0, 0)
              (pollStep E) (awaited E (EvCallFindRunning (Call.campaignId c)) wa))
    as [[counts|e] wb] eqn:Hloop; [|discriminate].
  injection Hcycle as _ <-.
  assert (Hbatch : In c (runningOf (Call.campaignId c) (calls wa))).
  { unfold runningOf. apply filter_In. split; [exact Hkept|].
    unfold hasRunId. now rewrite String.eqb_refl, Hst, Hrun. }
  destruct (pollLoop_reaches c r _ Hrun Hne Hbatch _ _ _ _ Hloop Hclear)
    as [e1 [H1 Hin1]].
  exists (e1 ++ EvCallFindRunning (Call.campaignId c) :: e0)%list.
  split.
  - rewrite H1. cbn [awaited trace]. rewrite H0.
    now rewrite <- app_assoc.
  - apply in_or_app. now left.
Qed.

(** C7: polling a call whose run the provider reports as not found (HTTP
    404) makes the call FAILED with outcome CALL_LOST_BY_PROVIDER, a
    completion timestamp and an error message; a poll on which the
    provider is unavailable changes nothing in the store; and the call is
    retried: as long as the store holds it as a RUNNING call, every cycle
    of its campaign that returns with the stop signal clear polls its run
    identifier again. *)
Theorem poll_not_found_or_unavailable (call row : Call.t) (runId : string)
    (counts : Z * Z) (w : World) :
  Call.runId call = Some runId ->
  Js.isEmpty runId = false ->
  shouldStop w = false ->
  findCall (Call.id call) (calls w) = Some row ->
  (forall body,
      pollFetch E (ticks w) runId = PollResponse 404 body ->
      dbFails E (S (ticks w)) = false ->
      exists w' row',
        pollStep E call counts w
        = (Ok (Next, (fst counts + 1, snd counts + 1)), w')
        /\ findCall (Call.id call) (calls w') = Some row'
        /\ Call.status row' = CallStatus.FAILED
        /\ Call.callOutcome row' = Some "CALL_LOST_BY_PROVIDER"
        /\ Call.completedAt row' = Some (clock E (S (ticks w)))
        /\ Call.errorMessage row'
           = Some ("Run not found at provider (404) for runId=" ++ runId))
  /\ (pollUnavailable (pollFetch E (ticks w) runId) = true ->
      exists w',
        pollStep E call counts w = (Ok (Next, (fst counts + 1, snd counts)), w')
        /\ calls w' = calls w
        /\ campaigns w' = campaigns w
        /\ stats w' = stats w
        /\ (forall c, runningOf c (calls w') = runningOf c (calls w))
        /\ forall paused w1 w2 result,
             calls w1 = calls w' ->
             In call (calls w) ->
             Call.status call = CallStatus.RUNNING ->
             NoDup (map Call.id (calls w)) ->
             processQueueCycle E (Call.campaignId call) paused w1
             = (Ok result, w2) ->
             shouldStop w2 = false ->
             exists evs,
               trace w2 = (evs ++ trace w1)%list
               /\ In (EvPollFetch runId) evs)
  /\ (forall paused w1 w2 result,
        In call (calls w1) ->
        Call.status call = CallStatus.RUNNING ->
        NoDup (map Call.id (calls w1)) ->
        processQueueCycle E (Call.campaignId call) paused w1
        = (Ok result, w2) ->
        shouldStop w2 = false ->
        exists evs,
          trace w2 = (evs ++ trace w1)%list
          /\ In (EvPollFetch runId) evs).
Proof.
  intros Hrun Hne Hstop Hrow. destruct counts as [polled completed].
  split; [|split].
  - intros body H404 Hdb.
    destruct (updateById_found (Call.id call)
                (Call.apply (dataLost runId (clock E (S (ticks w))))
                   (clock E (S (S (ticks w)))))
                (fun c => eq_refl) _ _ Hrow) as [cs' [Hu Hf]].
    exists (withStats (Stats.incFailed (stats w))
              (withCalls cs'
                 (awaited E (EvCallUpdate (Call.id call)
                               (dataLost runId (clock E (S (ticks w)))))
                    (awaited E (EvPollFetch runId) w)))).
    eexists. split; [|split; [exact Hf|repeat split]].
    unfold pollStep, bind at 1, gets. rewrite Hstop, Hrun, Hne.
    unfold bind at 1. rewrite (pollRunStatus_not_found _ _ _ _ H404).
    cbn [negb Json.truthy].
    unfold pollSettle.
    change (runStatusOf (JObj [("status", JStr "not_found")]))
      with (Some "not_found").
    cbv iota. rewrite String.eqb_refl.
    unfold bind, newDate, gets, callUpdate, db, now.
    cbn [awaited ticks calls]. rewrite Hdb, Hu. reflexivity.
  - intros Hun.
    exists (awaited E (EvPollFetch runId) w).
    split; [|split; [|split; [|split; [|split]]]]; try reflexivity.
    + unfold pollStep, bind at 1, gets. rewrite Hstop, Hrun, Hne.
      unfold bind at 1. rewrite (pollRunStatus_unavailable _ _ _ Hun).
      reflexivity.
    + intros paused w1 w2 result Hcalls Hin Hst Hnd Hcycle Hclear.
      cbn [calls awaited] in Hcalls.
      apply (cycle_polls_running_call call runId paused w1 w2 result);
        trivial; now rewrite Hcalls.
  - intros paused w1 w2 result Hin Hst Hnd Hcycle Hclear.
    now apply (cycle_polls_running_call call runId paused w1 w2 result).
Qed.

End Retry.

(** ** The worker loop *)

Lemma sameCounter_trans (a b c : World) :
  sameCounter a b -> sameCounter b c -> sameCounter a c.
Proof. unfold sameCounter. intros [? ?] [? ?]. split; congruence. Qed.

Ltac sameCounter_obligations :=
  first
    [ exact (fun w => conj eq_refl eq_refl)
    | exact sameCounter_trans
    | (intros; exact I)
    | (intros; split; reflexivity) ].

Section Loop.

Variable E : Env.

Lemma sameCounter_getWorkStatus (c : string) :
  respects sameCounter (getWorkStatus E c).
Proof.
  apply (respects_getWorkStatus E sameCounter); sameCounter_obligations.
Qed.

Lemma sameCounter_processQueueCycle (c : string) (paused : bool) :
  respects sameCounter (processQueueCycle E c paused).
Proof.
  apply (respects_processQueueCycle E sameCounter)
    with (okData := fun _ => True); sameCounter_obligations.
Qed.

Lemma sameCounter_campaignUpdate (id : string) (d : Campaign.data) :
  respects sameCounter (campaignUpdate E id d).
Proof.
  apply (respects_campaignUpdate E sameCounter); sameCounter_obligations.
Qed.

(** What a paused cycle with nothing in flight does: it clears the
    counter, sleeps the paused-check interval and goes on. *)
Lemma cycleAct_paused_idle (campaign : Campaign.t) (st : WorkStatus)
    (w : World) :
  isPaused st = true -> running st = 0 ->
  cycleAct E campaign st w
  = (Ok Next,
     awaited E (EvSleep PAUSED_CHECK_INTERVAL) (withConsecutiveErrors 0 w)).
Proof.
  intros Hp Hr. unfold cycleAct. rewrite Hp, Hr. reflexivity.
Qed.

(** A cycle that comes to its end without raising and lets the loop go on
    leaves the counter at zero. *)
Lemma cycleAct_next_resets (campaign : Campaign.t) (st : WorkStatus)
    (w w' : World) :
  cycleAct E campaign st w = (Ok Next, w') -> consecutiveErrors w' = 0.
Proof.
  unfold cycleAct.
  destruct (isPaused st && (running st =? 0)).
  { intros [= <-]. reflexivity. }
  destruct (negb (isPaused st) && (pending st =? 0) && (running st =? 0)).
  { unfold bind. rewrite nonFatal_run. cbn. discriminate. }
  unfold bind at 1.
  destruct (processQueueCycle E (Campaign.id campaign) (isPaused st) w)
    as [[r|e] w1]; [|discriminate].
  unfold bind at 1, newDate, gets. unfold bind at 1, modify.
  set (w2 := withStats _ _).
  assert (H2 : consecutiveErrors w2 = 0) by reflexivity. clearbody w2.
  unfold bind at 1.
  pose proof (sameCounter_getWorkStatus (Campaign.id campaign) w2) as [Hs _].
  destruct (getWorkStatus E (Campaign.id campaign) w2) as [[s|e] w3];
    [|discriminate].
  cbn [snd] in Hs. unfold bind, sleep, modify, ret.
  intros [= <-]. cbn. congruence.
Qed.

Lemma cycleCatch_run (e : string) (w : World) :
  let n := consecutiveErrors w + 1 in
  let w1 := withStats (Stats.cycleFailed n e (stats w))
              (withConsecutiveErrors n w) in
  cycleCatch E e w
  = if MAX_CONSECUTIVE_ERRORS <=? n then (Ok Break, w1)
    else (Ok Next,
          awaited E (EvSleep (Z.min (ERROR_BACKOFF_BASE * 2 ^ (n - 1)) 60000))
            w1).
Proof.
  cbn zeta. unfold cycleCatch, bind, modify, gets.
  cbn [consecutiveErrors withStats withConsecutiveErrors].
  now destruct (MAX_CONSECUTIVE_ERRORS <=? consecutiveErrors w + 1).
Qed.

(** An iteration whose try block raises: the counter, as the try block
    left it, goes up by one; the loop breaks when it has reached the
    maximum and goes on otherwise. *)
Lemma loopIteration_raising (campaign : Campaign.t) (n : Z) (w w1 : World)
    (e : string) :
  cycleBody E campaign n w = (Throw e, w1) ->
  exists w2,
    loopIteration E campaign n w
    = (Ok (if MAX_CONSECUTIVE_ERRORS <=? consecutiveErrors w1 + 1
           then Break else Next), w2)
    /\ consecutiveErrors w2 = consecutiveErrors w1 + 1
    /\ Stats.consecutiveErrors (stats w2) = consecutiveErrors w1 + 1
    /\ isRunning w2 = isRunning w1
    /\ (consecutiveErrors w1 + 1 < MAX_CONSECUTIVE_ERRORS ->
        shouldStop w2
        = shouldStop w1 || (isRunning w1 && stopRequested E (ticks w1))).
Proof.
  intros Hbody. unfold loopIteration, tryCatch. rewrite Hbody.
  rewrite cycleCatch_run. cbn zeta.
  destruct (MAX_CONSECUTIVE_ERRORS <=? consecutiveErrors w1 + 1) eqn:Hmax;
    eexists; (split; [reflexivity|]); repeat split.
  apply Z.leb_le in Hmax. lia.
Qed.

(** C10: when the loop observes the campaign paused with no call
    RUNNING, the iteration sets the consecutive-error counter to zero and
    sleeps the paused-check interval, and nothing else: no dispatch or
    poll cycle is run, the store and the statistics are as observed, and
    the next dispatch is no longer throttled. *)
Theorem paused_wait_clears_error_counter (campaign : Campaign.t) (n : Z)
    (st : WorkStatus) (w w1 : World) (campaignId : string) :
  cycleObserve E campaign n w = (Ok (Some st), w1) ->
  isPaused st = true ->
  running st = 0 ->
  exists w2,
    loopIteration E campaign n w = (Ok Next, w2)
    /\ consecutiveErrors w2 = 0
    /\ trace w2 = EvSleep PAUSED_CHECK_INTERVAL :: trace w1
    /\ calls w2 = calls w1
    /\ campaigns w2 = campaigns w1
    /\ stats w2 = stats w1
    /\ batchLimit E campaignId w2
       = Z.max 0 (MAX_CONCURRENT E - runningCount campaignId w2).
Proof.
  intros Hobs Hp Hr.
  exists (awaited E (EvSleep PAUSED_CHECK_INTERVAL)
            (withConsecutiveErrors 0 w1)).
  split; [|repeat split].
  unfold loopIteration, tryCatch, cycleBody, bind. rewrite Hobs.
  now rewrite (cycleAct_paused_idle campaign st w1 Hp Hr).
Qed.

Lemma cycleBody_next_resets (campaign : Campaign.t) (n : Z) (w w' : World) :
  cycleBody E campaign n w = (Ok Next, w') -> consecutiveErrors w' = 0.
Proof.
  unfold cycleBody, bind.
  destruct (cycleObserve E campaign n w) as [[[st|]|e] w1];
    [|discriminate|discriminate].
  apply cycleAct_next_resets.
Qed.

Lemma workerLoop_step (fuel : nat) (campaign : Campaign.t) (n : Z)
    (w w2 : World) (ctl : LoopCtl) :
  shouldStop w = false ->
  loopIteration E campaign (n + 1) w = (Ok ctl, w2) ->
  workerLoop E (S fuel) campaign n w
  = match ctl with
    | Break => (Ok Finished, w2)
    | Next => workerLoop E fuel campaign (n + 1) w2
    end.
Proof.
  intros Hstop Hit. cbn [workerLoop]. unfold bind at 1, gets.
  rewrite Hstop. unfold bind at 1. rewrite Hit. now destruct ctl.
Qed.

(** [k] raising cycles that keep the counter below the maximum are [k]
    turns of the loop. *)
Lemma workerLoop_raising (campaign : Campaign.t) (j : nat) :
  forall (k : nat) (n : Z) (w : World),
    raisingRun E true (k + j) campaign n w ->
    consecutiveErrors w + Z.of_nat k < MAX_CONSECUTIVE_ERRORS ->
    exists wk,
      (forall fuel,
          workerLoop E (k + fuel) campaign n w
          = workerLoop E fuel campaign (n + Z.of_nat k) wk)
      /\ consecutiveErrors wk = consecutiveErrors w + Z.of_nat k
      /\ raisingRun E true j campaign (n + Z.of_nat k) wk.
Proof.
  induction k as [|k IH]; intros n w Hrun Hlt.
  - exists w. cbn [Nat.add Z.of_nat]. rewrite Z.add_0_r.
    repeat split; trivial. lia.
  - cbn [Nat.add raisingRun] in Hrun.
    destruct Hrun as [Hstop [[e He] [Hkept Hrest]]].
    specialize (Hkept eq_refl).
    destruct (cycleBody E campaign (n + 1) w) as [r w1] eqn:Hbody.
    cbn [fst snd] in He, Hkept. subst r.
    destruct (loopIteration_raising campaign (n + 1) w w1 e Hbody)
      as [w2 [Hit [Hce _]]].
    rewrite Hit in Hrest. cbn [snd] in Hrest.
    assert (Hnext : (MAX_CONSECUTIVE_ERRORS <=? consecutiveErrors w1 + 1)
                    = false) by (apply Z.leb_gt; lia).
    rewrite Hnext in Hit.
    destruct (IH (n + 1) w2 Hrest) as [wk [Hloop [Hcek Hrunk]]]; [lia|].
    replace (n + Z.of_nat (S k)) with (n + 1 + Z.of_nat k) by lia.
    exists wk. repeat split; trivial; [|lia].
    intros fuel. cbn [Nat.add].
    rewrite (workerLoop_step _ _ _ _ _ _ Hstop Hit). apply Hloop.
Qed.

(** A cycle whose dispatch and poll phase returns and whose read of the
    work status, the next statement of the try block, raises: the counter
    has been reset in between, so the catch block counts this failure as
    the first, whatever the counter was, and the loop goes on. *)
Lemma loopIteration_late_failure (campaign : Campaign.t) (n : Z)
    (st : WorkStatus) (result : CycleResult) (w w1 w2 w3 : World)
    (e : string) :
  cycleObserve E campaign n w = (Ok (Some st), w1) ->
  isPaused st && (running st =? 0) = false ->
  negb (isPaused st) && (pending st =? 0) && (running st =? 0) = false ->
  processQueueCycle E (Campaign.id campaign) (isPaused st) w1
  = (Ok result, w2) ->
  getWorkStatus E (Campaign.id campaign)
    (withStats (Stats.cycleDone (now E w2) (stats w2))
       (withConsecutiveErrors 0 w2))
  = (Throw e, w3) ->
  exists w4,
    loopIteration E campaign n w = (Ok Next, w4)
    /\ consecutiveErrors w4 = 1.
Proof.
  intros Hobs Hwait Hdone Hcycle Hread.
  pose proof (sameCounter_getWorkStatus (Campaign.id campaign)
                (withStats (Stats.cycleDone (now E w2) (stats w2))
                   (withConsecutiveErrors 0 w2))) as [Hzero _].
  rewrite Hread in Hzero. cbn in Hzero.
  assert (Hbody : cycleBody E campaign n w = (Throw e, w3)).
  { unfold cycleBody, bind at 1. rewrite Hobs.
    unfold cycleAct. rewrite Hwait, Hdone.
    unfold bind at 1. rewrite Hcycle.
    unfold bind at 1, newDate, gets. unfold bind at 1, modify.
    unfold bind at 1. now rewrite Hread. }
  destruct (loopIteration_raising campaign n w w3 e Hbody)
    as [w4 [Hit [Hce _]]].
  exists w4. rewrite Hit, Hce, Hzero. split; reflexivity.
Qed.

(** The circuit breaker on cycles that fail early.  An iteration whose
    try block raises increments the consecutive-error counter as the try
    block left it; five consecutive raising cycles that leave the counter
    as they found it, starting from zero, end the loop at the fifth and not
    before, and the status then reports running = false and
    healthy = false; a cycle that ends without raising and lets the loop go
    on leaves the counter at zero. *)
Theorem circuit_breaker (campaign : Campaign.t) (w : World) :
  consecutiveErrors w = 0 ->
  raisingRun E true 5 campaign 0 w ->
  (forall fuel,
      (5 <= fuel)%nat ->
      exists w',
        runLoop E fuel campaign w = (Ok Finished, w')
        /\ consecutiveErrors w' = MAX_CONSECUTIVE_ERRORS
        /\ statusRunning (getWorkerStatus w') = false
        /\ statusHealthy (getWorkerStatus w') = false)
  /\ (forall fuel,
        (fuel < 5)%nat -> fst (runLoop E fuel campaign w) = Ok OutOfFuel)
  /\ (forall n w0 w1 e,
        cycleBody E campaign n w0 = (Throw e, w1) ->
        consecutiveErrors (snd (loopIteration E campaign n w0))
        = consecutiveErrors w1 + 1)
  /\ (forall n w0 w1,
        cycleBody E campaign n w0 = (Ok Next, w1) ->
        consecutiveErrors w1 = 0).
Proof.
  intros Hzero Hrun. split; [|split; [|split]].
  - intros fuel Hfuel.
    destruct (workerLoop_raising campaign 1 4 0 w Hrun)
      as [w4 [Hloop [Hce Hlast]]]; [rewrite Hzero; reflexivity|].
    cbn [raisingRun] in Hlast.
    destruct Hlast as [Hstop [[e He] [Hkept _]]].
    specialize (Hkept eq_refl).
    destruct (cycleBody E campaign (0 + Z.of_nat 4 + 1) w4) as [r w5] eqn:Hbody.
    cbn [fst snd] in He, Hkept. subst r.
    destruct (loopIteration_raising campaign _ w4 w5 e Hbody)
      as [w6 [Hit [Hce6 [_ [Hrun6 _]]]]].
    assert (Hbreak : (MAX_CONSECUTIVE_ERRORS <=? consecutiveErrors w5 + 1)
                     = true).
    { apply Z.leb_le. rewrite Hkept, Hce, Hzero. reflexivity. }
    rewrite Hbreak in Hit.
    exists (withShouldStop false (withIsRunning false w6)).
    replace fuel with (4 + S (fuel - 5))%nat by lia.
    unfold runLoop, bind at 1. rewrite Hloop.
    rewrite (workerLoop_step _ _ _ _ _ _ Hstop Hit).
    repeat split. cbn. rewrite Hce6, Hkept, Hce, Hzero. reflexivity.
  - intros fuel Hfuel.
    assert (Hsplit : raisingRun E true (fuel + (5 - fuel)) campaign 0 w).
    { replace (fuel + (5 - fuel))%nat with 5%nat by lia. exact Hrun. }
    destruct (workerLoop_raising campaign (5 - fuel) fuel 0 w Hsplit)
      as [wk [Hloop [Hce Hrest]]]; [rewrite Hzero; unfold MAX_CONSECUTIVE_ERRORS; lia|].
    destruct (5 - fuel)%nat as [|rest] eqn:Hleft; [lia|].
    cbn [raisingRun] in Hrest. destruct Hrest as [Hstop _].
    unfold runLoop, bind at 1.
    replace fuel with (fuel + 0)%nat at 1 by lia. rewrite Hloop.
    cbn [workerLoop]. unfold bind at 1, gets. rewrite Hstop. reflexivity.
  - intros n w0 w1 e Hbody.
    destruct (loopIteration_raising campaign n w0 w1 e Hbody)
      as [w2 [Hit [Hce _]]].
    now rewrite Hit.
  - intros n w0 w1. apply cycleBody_next_resets.
Qed.

End Loop.

(** ** The properties on sample runs *)

Example cycle_respects_ceiling_of_two :
  let w := sampleWorld
             [ sampleCall "a" CallStatus.PENDING None None;
               sampleCall "b" CallStatus.PENDING None None;
               sampleCall "c" CallStatus.PENDING None None ] false 0 in
  let r := processQueueCycle (sampleEnv 2 dbUp stillRunning) "camp-1" false w in
  fst r = Ok (mkCycleResult 2 2 0)
  /\ map Call.status (calls (snd r))
     = [CallStatus.RUNNING; CallStatus.RUNNING; CallStatus.PENDING].
Proof. split; reflexivity. Qed.

Example degraded_cycle_takes_five :
  let w := sampleWorld
             (map (fun id => sampleCall id CallStatus.PENDING None None)
                ["a"; "b"; "c"; "d"; "e"; "f"; "g"]) false 3 in
  let r := processQueueCycle (sampleEnv 50 dbUp stillRunning) "camp-1" false w in
  fst r = Ok (mkCycleResult 5 5 0)
  /\ triggerFetches (snd r) = 5
  /\ runningCount "camp-1" (snd r) = 5.
Proof. repeat split. Qed.

Example unavailable_poll_changes_nothing :
  let env := sampleEnv 2 dbUp (PollResponse 503 None) in
  let r := processQueueCycle env "camp-1" true mixedWorld in
  fst r = Ok (mkCycleResult 0 1 0) /\ calls (snd r) = calls mixedWorld.
Proof. split; reflexivity. Qed.

(** Two cycles in a row on which the provider is unavailable: the call
    in flight is polled in both and is left as it was. *)
Example unavailable_poll_is_retried :
  let env := sampleEnv 2 dbUp (PollResponse 503 None) in
  let w1 := snd (processQueueCycle env "camp-1" true mixedWorld) in
  let w2 := snd (processQueueCycle env "camp-1" true w1) in
  calls w2 = calls mixedWorld
  /\ filter isPollFetch (trace w1) = [EvPollFetch "run-b"]
  /\ filter isPollFetch (trace w2)
     = [EvPollFetch "run-b"; EvPollFetch "run-b"].
Proof. cbn zeta. repeat split. Qed.

Lemma worker_keeps_run_id_invariant_witness :
  let env := sampleEnv 2 dbUp stillRunning in
  let w' := snd (processQueueCycle env "camp-1" false mixedWorld) in
  storeInv mixedWorld
  /\ earnedInv env mixedWorld
  /\ map Call.runId (calls w') = [Some "run-a"; Some "run-b"]
  /\ storeInv w'
  /\ earnedInv env w'.
Proof.
  cbn zeta.
  assert (H : storeInv mixedWorld).
  { split; repeat constructor. cbn. discriminate. }
  assert (H' : earnedInv (sampleEnv 2 dbUp stillRunning) mixedWorld)
    by exact I.
  split; [exact H|]. split; [exact H'|]. split; [reflexivity|].
  exact (proj1 (proj2 (worker_keeps_run_id_invariant
                         (sampleEnv 2 dbUp stillRunning) mixedWorld H H'))
           "camp-1" false).
Defined.

Lemma poll_not_found_or_unavailable_witness :
  let call := sampleCall "b" CallStatus.RUNNING (Some "run-b") (Some 9000000) in
  let env := sampleEnv 2 dbUp (PollResponse 404 None) in
  let down := sampleEnv 2 dbUp (PollResponse 503 None) in
  Call.runId call = Some "run-b"
  /\ findCall "b" (calls mixedWorld) = Some call
  /\ (exists w' row',
        pollStep env call (0, 0) mixedWorld = (Ok (Next, (0 + 1, 0 + 1)), w')
        /\ findCall "b" (calls w') = Some row'
        /\ Call.status row' = CallStatus.FAILED
        /\ Call.callOutcome row' = Some "CALL_LOST_BY_PROVIDER"
        /\ Call.completedAt row' = Some 10001000
        /\ Call.errorMessage row'
           = Some "Run not found at provider (404) for runId=run-b")
  /\ processQueueCycle down "camp-1" true mixedWorld
     = (Ok (mkCycleResult 0 1 0),
        snd (processQueueCycle down "camp-1" true mixedWorld))
  /\ exists evs,
       trace (snd (processQueueCycle down "camp-1" true mixedWorld))
       = (evs ++ trace mixedWorld)%list
       /\ In (EvPollFetch "run-b") evs.
Proof.
  cbn zeta. split; [reflexivity|]. split; [reflexivity|]. split.
  - exact (proj1 (poll_not_found_or_unavailable
                    (sampleEnv 2 dbUp (PollResponse 404 None))
                    (sampleCall "b" CallStatus.RUNNING (Some "run-b")
                       (Some 9000000))
                    (sampleCall "b" CallStatus.RUNNING (Some "run-b")
                       (Some 9000000))
                    "run-b" (0, 0) mixedWorld
                    eq_refl eq_refl eq_refl eq_refl)
             None eq_refl eq_refl).
  - assert (Hcycle :
      processQueueCycle (sampleEnv 2 dbUp (PollResponse 503 None)) "camp-1"
        true mixedWorld
      = (Ok (mkCycleResult 0 1 0),
         snd (processQueueCycle (sampleEnv 2 dbUp (PollResponse 503 None))
                "camp-1" true mixedWorld)))
      by (vm_compute; reflexivity).
    split; [exact Hcycle|].
    assert (Hnd : NoDup (map Call.id (calls mixedWorld))).
    { repeat constructor; cbn; intros H;
        repeat (destruct H as [H|H]; [discriminate H|]); exact H. }
    exact (proj2 (proj2 (poll_not_found_or_unavailable
                           (sampleEnv 2 dbUp (PollResponse 503 None))
                           (sampleCall "b" CallStatus.RUNNING (Some "run-b")
                              (Some 9000000))
                           (sampleCall "b" CallStatus.RUNNING (Some "run-b")
                              (Some 9000000))
                           "run-b" (0, 0) mixedWorld
                           eq_refl eq_refl eq_refl eq_refl))
             true mixedWorld _ (mkCycleResult 0 1 0)
             (or_intror (or_introl eq_refl)) eq_refl Hnd Hcycle eq_refl).
Defined.


(** The schedule of the reaper on a run with one call in flight: once
    at startup, and again in the cycles 20 and 40. *)
Example reaper_runs_every_twenty_cycles :
  let run (fuel : nat) :=
    snd (runWorkerLoop (sampleEnv 1 dbUp stillRunning) fuel busyWorld) in
  cyclesBegun busyWorld (run 19%nat) = 19
  /\ reaperRuns (run 19%nat) = 1
  /\ reaperRuns (run 20%nat) = 2
  /\ reaperRuns (run 39%nat) = 2
  /\ cyclesBegun busyWorld (run 40%nat) = 40
  /\ reaperRuns (run 40%nat) = 3.
Proof. cbn zeta. repeat split; vm_compute; reflexivity. Qed.

Lemma paused_wait_clears_error_counter_witness :
  let env := sampleEnv 2 dbUp stillRunning in
  consecutiveErrors pausedBacklogWorld = 3
  /\ exists w2,
       loopIteration env (sampleCampaign true) 1 pausedBacklogWorld
       = (Ok Next, w2)
       /\ consecutiveErrors w2 = 0.
Proof.
  cbn zeta. split; [reflexivity|].
  destruct (paused_wait_clears_error_counter
              (sampleEnv 2 dbUp stillRunning) (sampleCampaign true) 1
              (mkWorkStatus 1 0 true "PAUSED") pausedBacklogWorld
              (snd (cycleObserve (sampleEnv 2 dbUp stillRunning)
                      (sampleCampaign true) 1 pausedBacklogWorld))
              "camp-1" eq_refl eq_refl eq_refl)
    as [w2 [Hit [Hzero _]]].
  exists w2. split; [exact Hit | exact Hzero].
Defined.

Lemma raisingRun_database_down :
  raisingRun (sampleEnv 1 dbDown stillRunning) true 5 (sampleCampaign false)
    0 busyWorld.
Proof.
  vm_compute.
  repeat split; try reflexivity; eexists; reflexivity.
Defined.

Lemma circuit_breaker_witness :
  let env := sampleEnv 1 dbDown stillRunning in
  consecutiveErrors busyWorld = 0
  /\ exists w',
       runLoop env 5 (sampleCampaign false) busyWorld = (Ok Finished, w')
       /\ consecutiveErrors w' = MAX_CONSECUTIVE_ERRORS
       /\ statusRunning (getWorkerStatus w') = false
       /\ statusHealthy (getWorkerStatus w') = false.
Proof.
  cbn zeta. split; [reflexivity|].
  exact (proj1 (circuit_breaker (sampleEnv 1 dbDown stillRunning)
                  (sampleCampaign false) busyWorld eq_refl
                  raisingRun_database_down)
           5%nat (le_n 5)).
Defined.

(** C3: five consecutive cycles that each raise do not end the loop
    when they raise late.  With the database failing only at the read of
    the work status that follows the dispatch and poll phase, every cycle
    raises and is counted, yet each has already reset the counter: it
    stands at 1 after every cycle, the loop goes on after the fifth, and
    the status reports the worker running and healthy. *)
Theorem late_failures_never_trip_breaker :
  let env := sampleEnv 1 dbFailsAfterCycle stillRunning in
  let r := runLoop env 5 (sampleCampaign false) busyWorld in
  raisingRun env false 5 (sampleCampaign false) 0 busyWorld
  /\ fst r = Ok OutOfFuel
  /\ consecutiveErrors (snd r) = 1
  /\ Stats.consecutiveErrors (stats (snd r)) = 1
  /\ statusRunning (getWorkerStatus (snd r)) = true
  /\ statusHealthy (getWorkerStatus (snd r)) = true
  /\ ~ breaksAfterFive false.
Proof.
  cbn zeta.
  assert (Hrun : raisingRun (sampleEnv 1 dbFailsAfterCycle stillRunning)
                   false 5 (sampleCampaign false) 0 busyWorld).
  { vm_compute.
    repeat split; try reflexivity; try discriminate; eexists; reflexivity. }
  split; [exact Hrun|]. repeat split.
  intros Hspec.
  destruct (Hspec (sampleEnv 1 dbFailsAfterCycle stillRunning)
              (sampleCampaign false) busyWorld 5%nat eq_refl Hrun (le_n 5))
    as [w' [Hend _]].
  vm_compute in Hend. discriminate Hend.
Qed.

(** C4: started on a paused campaign whose calls are all settled, the
    worker marks the campaign COMPLETED and stops, where the loop, observing
    the same state in a cycle, waits for the campaign to be resumed. *)
Theorem startup_completes_paused_campaign (fuel : nat) :
  let env := sampleEnv 2 dbUp stillRunning in
  let r := runWorkerLoop env fuel pausedSettledWorld in
  map Campaign.isQueuePaused (campaigns pausedSettledWorld) = [true]
  /\ fst r = Ok Finished
  /\ map Campaign.status (campaigns (snd r)) = ["COMPLETED"]
  /\ isRunning (snd r) = false
  /\ loopIteration env (sampleCampaign true) 1 pausedSettledWorld
     = (Ok Next,
        awaited env (EvSleep PAUSED_CHECK_INTERVAL)
          (withConsecutiveErrors 0
             (snd (cycleObserve env (sampleCampaign true) 1
                     pausedSettledWorld)))).
Proof. cbn zeta. repeat split. Qed.

(** * Further properties of the worker *)

(** ** The classifier and the search, continued *)

(** X1: the classifier returns the outcome code of the first keyword of
    its chain, in the order [canceled, cancelled, promise, ...], that
    occurs in the lower-cased input, and null when none occurs; trimming
    changes nothing, since no keyword starts or ends with white space. *)
Theorem classifyOutcome_first_keyword_wins (value : string) :
  classifyOutcome value
  = option_map snd
      (find (fun kw => Js.includes (Js.toLowerCase value) (fst kw))
         vocabulary).
Proof.
  rewrite <- find_keyword_trim. unfold classifyOutcome.
  set (v := Js.trim (Js.toLowerCase value)).
  destruct (Js.isEmpty v) eqn:Hempty.
  - destruct v; [reflexivity | discriminate].
  - clearbody v. unfold vocabulary. cbn [find fst].
    repeat match goal with
           | |- context [Js.includes v ?k] =>
               destruct (Js.includes v k); cbn [orb option_map snd];
               [reflexivity|]
           end.
    reflexivity.
Qed.

(** Induction on JSON values, through arrays and objects. *)
Lemma json_induction (P : json -> Prop) :
  P JNull ->
  (forall b, P (JBool b)) ->
  (forall n, P (JNum n)) ->
  (forall s, P (JStr s)) ->
  (forall items, Forall P items -> P (JArr items)) ->
  (forall fields, Forall (fun kv => P (snd kv)) fields -> P (JObj fields)) ->
  forall value, P value.
Proof.
  intros Hnull Hbool Hnum Hstr Harr Hobj.
  fix IH 1. intros [ | b | n | s | items | fields ].
  - exact Hnull.
  - apply Hbool.
  - apply Hnum.
  - apply Hstr.
  - apply Harr. induction items as [|item items IHitems];
      constructor; [apply IH | exact IHitems].
  - apply Hobj. induction fields as [|[key value] fields IHfields];
      constructor; [apply IH | exact IHfields].
Qed.

Ltac known_code :=
  cbn [knownCode classifierCodes In];
  repeat (try (left; reflexivity); right).

Lemma classifyOutcome_code (value : string) :
  knownCode (classifyOutcome value).
Proof.
  unfold classifyOutcome.
  set (v := Js.trim (Js.toLowerCase value)). clearbody v.
  destruct (Js.isEmpty v); [exact I|].
  repeat match goal with
         | |- knownCode (if ?b then _ else _) =>
             destruct b; [known_code|]
         end.
  exact I.
Qed.

Lemma findClassification_code (record : list (string * json))
    (fields : list string) :
  knownCode (findClassification record fields).
Proof.
  induction fields as [|field rest IH]; [exact I|].
  cbn [findClassification].
  destruct (Json.lookup record field) as [[ | | |s| | ]|]; try exact IH.
  destruct (Js.truthyString s); [|exact IH].
  pose proof (classifyOutcome_code s) as Hs.
  destruct (classifyOutcome s) as [classified|]; [|exact IH].
  destruct (Js.truthyString classified); [exact Hs | exact IH].
Qed.

Lemma mergeNested_code (acc nested : SearchResult) :
  knownCode (callOutcome acc) -> knownCode (callOutcome nested) ->
  knownCode (callOutcome (mergeNested acc nested)).
Proof.
  intros Ha Hn. unfold mergeNested. cbn [callOutcome].
  now destruct (Js.truthyOpt (callOutcome nested)
                && negb (Js.truthyOpt (callOutcome acc))).
Qed.

Lemma overKeys_code (search : json -> SearchResult)
    (entries : list (string * json)) :
  Forall (fun kv => knownCode (callOutcome (search (snd kv)))) entries ->
  forall acc, knownCode (callOutcome acc) ->
              knownCode (callOutcome (overKeys search entries acc)).
Proof.
  induction 1 as [|[key value] rest Hvalue _ IH]; intros acc Hacc;
    [exact Hacc|].
  cbn [overKeys]. cbn [snd] in Hvalue.
  destruct (Json.isObjectNonNull value); [|now apply IH].
  pose proof (mergeNested_code acc (search value) Hacc Hvalue) as Hm.
  destruct (Js.truthyOpt _); [exact Hm | now apply IH].
Qed.

Lemma overItems_code (search : json -> SearchResult) (items : list json) :
  Forall (fun item => knownCode (callOutcome (search item))) items ->
  forall acc, knownCode (callOutcome acc) ->
              knownCode (callOutcome (overItems search items acc)).
Proof.
  induction 1 as [|item rest Hitem _ IH]; intros acc Hacc; [exact Hacc|].
  cbn [overItems].
  pose proof (mergeNested_code acc (search item) Hacc Hitem) as Hm.
  destruct (Js.truthyOpt _); [exact Hm | now apply IH].
Qed.

Lemma deepSearch_array (items : list json) (depth : nat) :
  (depth <= 10)%nat ->
  deepSearchForOutcome (JArr items) depth
  = overItems (fun item => deepSearchForOutcome item (S depth)) items noResult.
Proof.
  intros Hd. cbn [deepSearchForOutcome].
  assert (Hlt : (10 <? depth)%nat = false) by (apply Nat.ltb_ge; lia).
  rewrite Hlt. reflexivity.
Qed.

Lemma deepSearch_too_deep (obj : json) (depth : nat) :
  (10 < depth)%nat -> deepSearchForOutcome obj depth = noResult.
Proof.
  intros Hd. apply Nat.ltb_lt in Hd.
  destruct obj; cbn [deepSearchForOutcome]; rewrite Hd; reflexivity.
Qed.

(** Whatever the response, a classification found by the search is one of
    the classifier's codes. *)
Lemma deepSearch_code (obj : json) :
  forall depth, knownCode (callOutcome (deepSearchForOutcome obj depth)).
Proof.
  induction obj as [ | b | n | s | items IH | fields IH ]
    using json_induction; intros depth;
    destruct (Nat.le_gt_cases depth 10) as [Hd|Hd];
    try (rewrite (deepSearch_too_deep _ _ Hd); exact I);
    try (cbn [deepSearchForOutcome]; destruct (10 <? depth)%nat; exact I).
  - rewrite (deepSearch_array _ _ Hd).
    apply overItems_code; [|exact I].
    eapply Forall_impl; [|exact IH]. intros item Hitem. apply Hitem.
  - rewrite (deepSearch_object _ _ Hd). cbn zeta. cbn [callOutcome].
    pose proof (findClassification_code fields classificationFields) as Hc.
    destruct (Js.truthyOpt (findClassification fields classificationFields));
      [exact Hc|].
    apply overKeys_code; [|exact Hc].
    eapply Forall_impl; [|exact IH]. intros kv Hkv. apply Hkv.
Qed.

(** X2: whatever the provider's response and run status, the outcome
    [extractOutcome] returns is one of ten codes: the eight of the
    classifier, COMPLETED_UNKNOWN or CONNECT_FAILED. *)
Theorem extractOutcome_known_code (fullResponse : json) (runStatus : string)
    (x : Extracted) :
  extractOutcome fullResponse runStatus = Ok x ->
  In (outcome x) outcomeCodes.
Proof.
  unfold extractOutcome.
  destruct (loggingFault fullResponse); [discriminate|].
  pose proof (deepSearch_code fullResponse 0) as Hcode.
  destruct (callOutcome (deepSearchForOutcome fullResponse 0)) as [o|] eqn:Ho;
    intros [= <-]; cbn [outcome].
  - match goal with
    | |- In (if ?b then _ else _) _ => destruct b
    end; [right; left; reflexivity|].
    right. right. exact Hcode.
  - match goal with
    | |- In (if ?b then _ else _) _ => destruct b
    end; [right; left; reflexivity | left; reflexivity].
Qed.

Lemma extractOutcome_known_code_witness :
  extractOutcome (JObj [("result", JStr "Left a VoiceMail")]) "completed"
  = Ok (mkExtracted "VOICEMAIL" None None)
  /\ In "VOICEMAIL" outcomeCodes.
Proof.
  split; [reflexivity|].
  exact (extractOutcome_known_code
           (JObj [("result", JStr "Left a VoiceMail")]) "completed"
           (mkExtracted "VOICEMAIL" None None) eq_refl).
Defined.

(** An object whose only key is "data" holds no classification, summary
    or duration field of its own: the search passes on what it finds
    inside. *)
Lemma deepSearch_wrapper (fields : list (string * json)) (depth : nat) :
  (depth <= 10)%nat ->
  deepSearchForOutcome (JObj [("data", JObj fields)]) depth
  = mergeNested noResult (deepSearchForOutcome (JObj fields) (S depth)).
Proof.
  intros Hd. rewrite (deepSearch_object _ _ Hd).
  set (inner := JObj fields).
  replace (findClassification [("data", inner)] classificationFields)
    with (@None string) by reflexivity.
  replace (findDuration [("data", inner)] durationFields)
    with (@None Z) by reflexivity.
  replace (findSummary [("data", inner)] summaryFields)
    with (@None string) by reflexivity.
  cbn zeta. cbn [callOutcome Js.truthyOpt overKeys].
  unfold inner at 1. cbn [Json.isObjectNonNull].
  fold noResult.
  now destruct (Js.truthyOpt (callOutcome (mergeNested noResult _))).
Qed.

Lemma nested_object (n : nat) (record : list (string * json)) :
  exists fields, nested n (JObj record) = JObj fields.
Proof. destruct n; eexists; reflexivity. Qed.

Lemma deepSearch_nested (record : list (string * json)) (o : string) :
  findClassification record classificationFields = Some o ->
  forall n depth,
    callOutcome (deepSearchForOutcome (nested n (JObj record)) depth)
    = if (n + depth <=? 10)%nat then Some o else None.
Proof.
  intros Hfound. pose proof (findClassification_truthy _ _ _ Hfound) as Ho.
  induction n as [|n IH]; intros depth.
  - cbn [nested Nat.add].
    destruct (Nat.le_gt_cases depth 10) as [Hd|Hd].
    + rewrite (deepSearch_object _ _ Hd), Hfound. cbn zeta.
      cbn [callOutcome Js.truthyOpt]. rewrite Ho.
      apply Nat.leb_le in Hd. now rewrite Hd.
    + rewrite (deepSearch_too_deep _ _ Hd).
      apply Nat.leb_gt in Hd. now rewrite Hd.
  - cbn [nested].
    destruct (nested_object n record) as [fields Hfields].
    specialize (IH (S depth)). rewrite Hfields in IH |- *.
    destruct (Nat.le_gt_cases depth 10) as [Hd|Hd].
    + rewrite (deepSearch_wrapper _ _ Hd). unfold mergeNested.
      cbn [callOutcome noResult Js.truthyOpt negb andb]. rewrite IH.
      replace (S n + depth)%nat with (n + S depth)%nat by lia.
      destruct (n + S depth <=? 10)%nat; [|reflexivity].
      cbn [Js.truthyOpt]. now rewrite Ho.
    + rewrite (deepSearch_too_deep _ _ Hd).
      assert (Hn : (S n + depth <=? 10)%nat = false)
        by (apply Nat.leb_gt; lia).
      now rewrite Hn.
Qed.

(** X3: the search gives up below ten levels of nesting: a classification
    held by an object wrapped in [n] objects is found when [n] is at most
    10 and is not found when [n] is larger. *)
Theorem deepSearch_depth_limit (record : list (string * json)) (o : string)
    (n : nat) :
  findClassification record classificationFields = Some o ->
  callOutcome (deepSearchForOutcome (nested n (JObj record)) 0)
  = if (n <=? 10)%nat then Some o else None.
Proof.
  intros Hfound. rewrite (deepSearch_nested record o Hfound n 0).
  now rewrite Nat.add_0_r.
Qed.

Lemma deepSearch_depth_limit_witness :
  findClassification [("outcome", JStr "disputed")] classificationFields
  = Some "DISPUTED"
  /\ callOutcome
       (deepSearchForOutcome
          (nested 11 (JObj [("outcome", JStr "disputed")])) 0)
     = None.
Proof.
  split; [reflexivity|].
  exact (deepSearch_depth_limit [("outcome", JStr "disputed")] "DISPUTED" 11
           eq_refl).
Defined.

(** ** Triggering one call *)

Lemma bind_ok {A B : Type} (m : M A) (f : A -> M B) (w w1 : World) (a : A) :
  m w = (Ok a, w1) -> bind m f w = f a w1.
Proof. intros H. unfold bind. now rewrite H. Qed.

Lemma bind_throw {A B : Type} (m : M A) (f : A -> M B) (w w1 : World)
    (e : string) :
  m w = (Throw e, w1) -> bind m f w = (Throw e, w1).
Proof. intros H. unfold bind. now rewrite H. Qed.

Section Dispatch.

Variable E : Env.

(** An update of an existing row while the database works. *)
Lemma callUpdate_run (id : string) (d : Call.data) (w : World)
    (row : Call.t) :
  dbFails E (ticks w) = false ->
  findCall id (calls w) = Some row ->
  exists cs,
    callUpdate E id d w
    = (Ok tt, withCalls cs (awaited E (EvCallUpdate id d) w))
    /\ findCall id cs = Some (Call.apply d (clock E (S (ticks w))) row).
Proof.
  intros Hdb Hrow.
  destruct (updateById_found id (Call.apply d (clock E (S (ticks w))))
              (fun c => eq_refl) _ _ Hrow) as [cs [Hu Hf]].
  exists cs. split; [|exact Hf].
  unfold callUpdate, db, now. rewrite Hdb. cbn [awaited ticks calls].
  now rewrite Hu.
Qed.

(** X4: [triggerCall] absorbs every failure of the request: it never
    raises, it makes exactly one request and writes nothing, and its
    result is either a success carrying a truthy run identifier and no
    error, or a failure carrying an error message and no run identifier. *)
Theorem triggerCall_absorbs_failures (call : Call.t) (w : World) :
  exists result,
    triggerCall E call w
    = (Ok result, awaited E (EvTriggerFetch (Call.id call)) w)
    /\ (success result = true ->
        Json.truthyProp (resultRunId result) = true /\ error result = None)
    /\ (success result = false ->
        resultRunId result = None
        /\ exists message, error result = Some message).
Proof.
  unfold triggerCall.
  destruct (triggerFetch E (ticks w) call) as [message|st errorText|data].
  - eexists. split; [reflexivity|]. cbn. split; [discriminate|eauto].
  - eexists. split; [reflexivity|]. cbn. split; [discriminate|eauto].
  - destruct data;
      try (eexists; split; [reflexivity|]; cbn; split;
           [discriminate|eauto]).
    set (runId := optIndex0 _).
    destruct (Json.truthyProp runId) eqn:Htruthy;
      eexists; (split; [reflexivity|]); cbn; split;
      first [discriminate | eauto].
Qed.

(** X5: a PENDING call whose trigger request succeeds: its trigger
    timestamp is written before the request is made, and after the
    request one update makes it RUNNING and stores the run identifier;
    the counters of triggered calls go up by one and the batch goes on. *)
Theorem trigger_success_marks_call_running (call row : Call.t) (data : json)
    (runId : string) (triggered : Z) (w : World) :
  shouldStop w = false ->
  findCall (Call.id call) (calls w) = Some row ->
  dbFails E (ticks w) = false ->
  triggerFetch E (S (ticks w)) call = TriggerBody data ->
  optIndex0 (Json.getProp data "queued_run_ids") = Some (JStr runId) ->
  Js.isEmpty runId = false ->
  dbFails E (S (S (ticks w))) = false ->
  exists w' row',
    triggerStep E call triggered w = (Ok (Next, triggered + 1), w')
    /\ findCall (Call.id call) (calls w') = Some row'
    /\ Call.status row' = CallStatus.RUNNING
    /\ Call.runId row' = Some runId
    /\ Call.triggeredAt row' = Some (clock E (ticks w))
    /\ Stats.totalTriggered (stats w') = Stats.totalTriggered (stats w) + 1
    /\ trace w'
       = EvCallUpdate (Call.id call) (dataRunning runId)
         :: EvTriggerFetch (Call.id call)
         :: EvCallUpdate (Call.id call) (dataTriggeredAt (clock E (ticks w)))
         :: trace w.
Proof.
  intros Hstop Hrow Hdb0 Hfetch Hrun Hne Hdb2.
  destruct (callUpdate_run (Call.id call)
              (dataTriggeredAt (clock E (ticks w))) w row Hdb0 Hrow)
    as [cs1 [Hu1 Hf1]].
  set (w1 := withCalls cs1 _) in Hu1.
  assert (Hcall : triggerCall E call w1
                  = (Ok (mkTriggerResult true (Some (JStr runId)) None),
                     awaited E (EvTriggerFetch (Call.id call)) w1)).
  { unfold triggerCall. replace (ticks w1) with (S (ticks w)) by reflexivity.
    rewrite Hfetch.
    destruct data; try discriminate Hrun; rewrite Hrun;
      cbn [Json.truthyProp Json.truthy]; unfold Js.truthyString;
      rewrite Hne; reflexivity. }
  set (w2 := awaited E _ w1) in Hcall.
  destruct (callUpdate_run (Call.id call) (dataRunning runId) w2 _ Hdb2 Hf1)
    as [cs2 [Hu2 Hf2]].
  do 2 eexists. split.
  - unfold triggerStep. unfold bind at 1, gets. rewrite Hstop.
    unfold bind at 1, newDate, gets, now.
    rewrite (bind_ok _ _ _ _ _ Hu1).
    rewrite (bind_ok _ _ _ _ _ Hcall).
    cbn [success resultRunId Json.truthyProp Json.truthy andb].
    unfold Js.truthyString. rewrite Hne. cbn [negb].
    rewrite (bind_ok _ _ _ _ _ Hu2).
    reflexivity.
  - split; [exact Hf2 | repeat split].
Qed.

(** X6: a PENDING call whose trigger request fails (the request raises,
    the response is not OK, or it carries no run identifier) is marked
    FAILED with the error message and a completion timestamp; it gets no
    run identifier, the counter of failed calls goes up by one and the
    batch goes on with the next call. *)
Theorem trigger_failure_marks_call_failed (call row : Call.t) (triggered : Z)
    (w : World) :
  shouldStop w = false ->
  findCall (Call.id call) (calls w) = Some row ->
  dbFails E (ticks w) = false ->
  dbFails E (S (S (ticks w))) = false ->
  let failedWith (message : string) :=
    exists w' row',
      triggerStep E call triggered w = (Ok (Next, triggered), w')
      /\ findCall (Call.id call) (calls w') = Some row'
      /\ Call.status row' = CallStatus.FAILED
      /\ Call.errorMessage row' = Some message
      /\ Call.completedAt row' = Some (clock E (S (S (ticks w))))
      /\ Call.runId row' = Call.runId row
      /\ Stats.totalFailed (stats w') = Stats.totalFailed (stats w) + 1
      /\ Stats.totalTriggered (stats w') = Stats.totalTriggered (stats w) in
  (forall message,
      triggerFetch E (S (ticks w)) call = TriggerException message ->
      failedWith message)
  /\ (forall st errorText,
        triggerFetch E (S (ticks w)) call = TriggerHttpError st errorText ->
        failedWith ("HTTP " ++ Json.stringOfZ st ++ ": " ++ errorText))
  /\ (forall data,
        triggerFetch E (S (ticks w)) call = TriggerBody data ->
        data <> JNull ->
        Json.truthyProp (optIndex0 (Json.getProp data "queued_run_ids"))
        = false ->
        failedWith "No run ID returned from HappyRobot").
Proof.
  intros Hstop Hrow Hdb0 Hdb2 failedWith.
  destruct (callUpdate_run (Call.id call)
              (dataTriggeredAt (clock E (ticks w))) w row Hdb0 Hrow)
    as [cs1 [Hu1 Hf1]].
  set (w1 := withCalls cs1 _) in Hu1.
  set (w2 := awaited E (EvTriggerFetch (Call.id call)) w1).
  assert (Hfail : forall message,
             triggerCall E call w1
             = (Ok (mkTriggerResult false None (Some message)), w2) ->
             failedWith message).
  { intros message Hcall.
    destruct (callUpdate_run (Call.id call)
                (dataTriggerFailed (Some message) (clock E (S (S (ticks w)))))
                w2 _ Hdb2 Hf1) as [cs2 [Hu2 Hf2]].
    do 2 eexists. split.
    - unfold triggerStep. unfold bind at 1, gets. rewrite Hstop.
      unfold bind at 1, newDate, gets, now.
      rewrite (bind_ok _ _ _ _ _ Hu1).
      rewrite (bind_ok _ _ _ _ _ Hcall).
      cbn [success resultRunId error andb].
      unfold bind at 1.
      rewrite (bind_ok _ _ _ _ _ Hu2).
      reflexivity.
    - split; [exact Hf2 | repeat split]. }
  split; [|split].
  - intros message Hfetch. apply Hfail.
    unfold triggerCall. replace (ticks w1) with (S (ticks w)) by reflexivity.
    now rewrite Hfetch.
  - intros st errorText Hfetch. apply Hfail.
    unfold triggerCall. replace (ticks w1) with (S (ticks w)) by reflexivity.
    now rewrite Hfetch.
  - intros data Hfetch Hnull Hfalsy. apply Hfail.
    unfold triggerCall. replace (ticks w1) with (S (ticks w)) by reflexivity.
    rewrite Hfetch.
    destruct data; try contradiction; now rewrite Hfalsy.
Qed.

End Dispatch.

Lemma trigger_success_marks_call_running_witness :
  let env := sampleEnv 2 dbUp stillRunning in
  let call := sampleCall "a" CallStatus.PENDING None None in
  findCall "a" (calls mixedWorld) = Some call
  /\ exists w' row',
       triggerStep env call 0 mixedWorld = (Ok (Next, 0 + 1), w')
       /\ findCall "a" (calls w') = Some row'
       /\ Call.status row' = CallStatus.RUNNING
       /\ Call.runId row' = Some "run-a"
       /\ Call.triggeredAt row' = Some 10000000
       /\ Stats.totalTriggered (stats w') = 0 + 1
       /\ trace w'
          = [ EvCallUpdate "a" (dataRunning "run-a");
              EvTriggerFetch "a";
              EvCallUpdate "a" (dataTriggeredAt 10000000) ].
Proof.
  cbn zeta. split; [reflexivity|].
  exact (trigger_success_marks_call_running
           (sampleEnv 2 dbUp stillRunning)
           (sampleCall "a" CallStatus.PENDING None None)
           (sampleCall "a" CallStatus.PENDING None None)
           (JObj [("queued_run_ids", JArr [JStr "run-a"])])
           "run-a" 0 mixedWorld
           eq_refl eq_refl eq_refl eq_refl eq_refl eq_refl eq_refl).
Defined.

Lemma trigger_failure_marks_call_failed_witness :
  let env := providerEnv (TriggerHttpError 503 "Service Unavailable")
               stillRunning false in
  let call := sampleCall "a" CallStatus.PENDING None None in
  findCall "a" (calls mixedWorld) = Some call
  /\ exists w' row',
       triggerStep env call 0 mixedWorld = (Ok (Next, 0), w')
       /\ findCall "a" (calls w') = Some row'
       /\ Call.status row' = CallStatus.FAILED
       /\ Call.errorMessage row' = Some "HTTP 503: Service Unavailable"
       /\ Call.completedAt row' = Some 10002000
       /\ Call.runId row' = None
       /\ Stats.totalFailed (stats w') = 0 + 1
       /\ Stats.totalTriggered (stats w') = 0.
Proof.
  cbn zeta. split; [reflexivity|].
  exact (proj1 (proj2
           (trigger_failure_marks_call_failed
              (providerEnv (TriggerHttpError 503 "Service Unavailable")
                 stillRunning false)
              (sampleCall "a" CallStatus.PENDING None None)
              (sampleCall "a" CallStatus.PENDING None None)
              0 mixedWorld eq_refl eq_refl eq_refl eq_refl))
           503 "Service Unavailable" eq_refl).
Defined.

(** ** Polling one call, continued *)

Section PollOutcomes.

Variable E : Env.

Lemma pollRunStatus_body (runId : string) (st : Z) (status : json)
    (w : World) :
  pollFetch E (ticks w) runId = PollResponse st (Some status) ->
  200 <= st <= 299 ->
  pollRunStatus E runId w = (Ok status, awaited E (EvPollFetch runId) w).
Proof.
  intros Hfetch Hst. unfold pollRunStatus. rewrite Hfetch.
  assert (H404 : (st =? 404) = false) by (apply Z.eqb_neq; lia).
  assert (Hok : (200 <=? st) && (st <=? 299) = true).
  { apply andb_true_iff. split; apply Z.leb_le; lia. }
  now rewrite H404, Hok.
Qed.

(** X7: a poll that reports a terminal status (completed, failed or
    canceled, in any letter case) and from whose answer an outcome is
    extracted settles the call in one update: the mapped status, the
    outcome, duration and summary extracted from the response, the stored
    copy of the response, and as completion time the provider's
    [completed_at] when it carries one that converts to a string and
    parses as a date, the time of the poll's return when it carries none.
    The counter of completed calls goes up by one whatever the terminal
    status is. *)
Theorem poll_terminal_status_recorded (call row : Call.t) (runId : string)
    (st : Z) (status : json) (runStatus : string) (newStatus : CallStatus.t)
    (x : Extracted) (completedAt : Z) (counts : Z * Z) (w : World) :
  Call.runId call = Some runId ->
  Js.isEmpty runId = false ->
  shouldStop w = false ->
  findCall (Call.id call) (calls w) = Some row ->
  pollFetch E (ticks w) runId = PollResponse st (Some status) ->
  200 <= st <= 299 ->
  Json.truthy status = true ->
  runStatusOf status = Some runStatus ->
  statusMap runStatus = Some (MappedTo newStatus) ->
  newStatus <> CallStatus.RUNNING ->
  extractOutcome status runStatus = Ok x ->
  match Json.getProp status "completed_at" with
  | Some v =>
      if Json.truthy v
      then exists text,
             Json.toString v = Some text
             /\ Date_parse E text = Some completedAt
      else completedAt = clock E (S (ticks w))
  | None => completedAt = clock E (S (ticks w))
  end ->
  dbFails E (S (ticks w)) = false ->
  exists w' row',
    pollStep E call counts w
    = (Ok (Next, (fst counts + 1, snd counts + 1)), w')
    /\ findCall (Call.id call) (calls w') = Some row'
    /\ Call.status row' = newStatus
    /\ Call.callOutcome row' = Some (outcome x)
    /\ Call.callDuration row' = duration x
    /\ Call.callSummary row' = summary x
    /\ Call.metadata row' = metadataOf E status
    /\ Call.completedAt row' = Some completedAt
    /\ Call.runId row' = Call.runId row
    /\ Stats.totalCompleted (stats w')
       = Stats.totalCompleted (stats w) + 1.
Proof.
  intros Hrun Hne Hstop Hrow Hfetch Hst Htruthy Hstatus Hmap Hterminal Hx Hat
    Hdb.
  destruct counts as [polled completed].
  destruct (callUpdate_run E (Call.id call)
              (dataTerminal newStatus completedAt x (metadataOf E status))
              (awaited E (EvPollFetch runId) w) row Hdb Hrow)
    as [cs [Hu Hf]].
  assert (Hcompleted :
    completedAtOf E status (clock E (S (ticks w))) = Ok (Some completedAt)).
  { unfold completedAtOf.
    destruct (Json.getProp status "completed_at") as [v|]; [|now rewrite Hat].
    destruct (Json.truthy v); [|now rewrite Hat].
    destruct Hat as [text [-> ->]]. reflexivity. }
  do 2 eexists. split.
  - unfold pollStep, bind at 1, gets. rewrite Hstop, Hrun, Hne.
    rewrite (bind_ok _ _ _ _ _ (pollRunStatus_body _ _ _ _ Hfetch Hst)).
    rewrite Htruthy. cbn [negb]. unfold pollSettle. rewrite Hstatus.
    destruct (String.eqb runStatus "not_found") eqn:Hnf.
    { apply String.eqb_eq in Hnf. rewrite Hnf in Hmap. discriminate. }
    rewrite Hmap, Hx.
    destruct newStatus; try contradiction; cbv beta;
      try (unfold bind at 1, newDate, gets, now);
      cbn [ticks awaited]; rewrite Hcompleted;
      rewrite (bind_ok _ _ _ _ _ Hu); reflexivity.
  - split; [exact Hf | repeat split].
Qed.

Lemma statusMap_in_progress (runStatus : string) :
  ~ In runStatus actedOnStatuses ->
  statusMap runStatus = None
  \/ statusMap runStatus = Some (MappedTo CallStatus.RUNNING).
Proof.
  intros Hout. unfold statusMap.
  repeat match goal with
         | |- context [String.eqb runStatus ?k] =>
             destruct (String.eqb runStatus k) eqn:?
         end;
    try (right; reflexivity); try (left; reflexivity);
    exfalso; apply Hout;
    repeat match goal with
           | H : String.eqb _ _ = true |- _ => apply String.eqb_eq in H
           end;
    subst runStatus; cbn; tauto.
Qed.

(** X8: a poll whose answer carries a status that converts to a string
    other than not_found, completed, failed or canceled (a status still
    in progress, an unknown one, or none at all) counts as polled and
    changes nothing: no row and no statistic is written. *)
Theorem poll_in_progress_leaves_call (call : Call.t) (runId : string)
    (st : Z) (status : json) (runStatus : string) (counts : Z * Z)
    (w : World) :
  Call.runId call = Some runId ->
  Js.isEmpty runId = false ->
  shouldStop w = false ->
  pollFetch E (ticks w) runId = PollResponse st (Some status) ->
  200 <= st <= 299 ->
  Json.truthy status = true ->
  runStatusOf status = Some runStatus ->
  ~ In runStatus actedOnStatuses ->
  pollStep E call counts w
  = (Ok (Next, (fst counts + 1, snd counts)),
     awaited E (EvPollFetch runId) w).
Proof.
  intros Hrun Hne Hstop Hfetch Hst Htruthy Hstatus Hout.
  destruct counts as [polled completed].
  unfold pollStep, bind at 1, gets. rewrite Hstop, Hrun, Hne.
  rewrite (bind_ok _ _ _ _ _ (pollRunStatus_body _ _ _ _ Hfetch Hst)).
  rewrite Htruthy. cbn [negb]. unfold pollSettle. rewrite Hstatus.
  destruct (String.eqb runStatus "not_found") eqn:Hnf.
  { apply String.eqb_eq in Hnf. exfalso. apply Hout. rewrite Hnf.
    left. reflexivity. }
  destruct (statusMap_in_progress _ Hout) as [Hmap|Hmap]; rewrite Hmap;
    reflexivity.
Qed.

(** What the poll of one call does when the provider's answer cannot be
    printed: the conversion of [status.status], or of a field of an event
    in the debug log, raises a TypeError, and the exception leaves the
    loop body with nothing written. *)
Lemma pollStep_conversion_raises (call : Call.t) (runId : string) (st : Z)
    (status : json) (counts : Z * Z) (w : World) :
  Call.runId call = Some runId ->
  Js.isEmpty runId = false ->
  shouldStop w = false ->
  pollFetch E (ticks w) runId = PollResponse st (Some status) ->
  200 <= st <= 299 ->
  Json.truthy status = true ->
  (runStatusOf status = None ->
   pollStep E call counts w
   = (Throw Json.typeError, awaited E (EvPollFetch runId) w))
  /\ (forall runStatus newStatus message,
        runStatusOf status = Some runStatus ->
        statusMap runStatus = Some (MappedTo newStatus) ->
        newStatus <> CallStatus.RUNNING ->
        loggingFault status = Some message ->
        pollStep E call counts w
        = (Throw message, awaited E (EvPollFetch runId) w)).
Proof.
  intros Hrun Hne Hstop Hfetch Hst Htruthy.
  destruct counts as [polled completed].
  split.
  - intros Hstatus.
    unfold pollStep, bind at 1, gets. rewrite Hstop, Hrun, Hne.
    rewrite (bind_ok _ _ _ _ _ (pollRunStatus_body _ _ _ _ Hfetch Hst)).
    rewrite Htruthy. cbn [negb]. unfold pollSettle. now rewrite Hstatus.
  - intros runStatus newStatus message Hstatus Hmap Hterminal Hfault.
    unfold pollStep, bind at 1, gets. rewrite Hstop, Hrun, Hne.
    rewrite (bind_ok _ _ _ _ _ (pollRunStatus_body _ _ _ _ Hfetch Hst)).
    rewrite Htruthy. cbn [negb]. unfold pollSettle. rewrite Hstatus.
    destruct (String.eqb runStatus "not_found") eqn:Hnf.
    { apply String.eqb_eq in Hnf. rewrite Hnf in Hmap. discriminate. }
    rewrite Hmap. unfold extractOutcome. rewrite Hfault.
    destruct newStatus; try contradiction; reflexivity.
Qed.

End PollOutcomes.

Lemma poll_terminal_status_recorded_witness :
  let env := providerEnv (TriggerException "unused")
               (PollResponse 200 (Some completedAnswer)) false in
  let call := sampleCall "b" CallStatus.RUNNING (Some "run-b") (Some 9000000) in
  runStatusOf completedAnswer = Some "completed"
  /\ findCall "b" (calls mixedWorld) = Some call
  /\ exists w' row',
       pollStep env call (0, 0) mixedWorld = (Ok (Next, (0 + 1, 0 + 1)), w')
       /\ findCall "b" (calls w') = Some row'
       /\ Call.status row' = CallStatus.COMPLETED
       /\ Call.callOutcome row' = Some "PAYMENT_PROMISED"
       /\ Call.callDuration row' = Some 93
       /\ Call.callSummary row' = None
       /\ Call.metadata row' = Some "{}"
       /\ Call.completedAt row' = Some 10001000
       /\ Call.runId row' = Some "run-b"
       /\ Stats.totalCompleted (stats w') = 0 + 1.
Proof.
  cbn zeta. split; [reflexivity|]. split; [reflexivity|].
  assert (Hst : 200 <= 200 <= 299) by lia.
  exact (poll_terminal_status_recorded
           (providerEnv (TriggerException "unused")
              (PollResponse 200 (Some completedAnswer)) false)
           (sampleCall "b" CallStatus.RUNNING (Some "run-b") (Some 9000000))
           (sampleCall "b" CallStatus.RUNNING (Some "run-b") (Some 9000000))
           "run-b" 200 completedAnswer "completed" CallStatus.COMPLETED
           (mkExtracted "PAYMENT_PROMISED" (Some 93) None)
           10001000 (0, 0) mixedWorld
           eq_refl eq_refl eq_refl eq_refl eq_refl Hst eq_refl eq_refl
           eq_refl (fun H => match H with end) eq_refl eq_refl eq_refl).
Defined.

Lemma poll_in_progress_leaves_call_witness :
  let answer := JObj [("status", JStr "Queued")] in
  let env := providerEnv (TriggerException "unused")
               (PollResponse 200 (Some answer)) false in
  let call := sampleCall "b" CallStatus.RUNNING (Some "run-b") (Some 9000000) in
  runStatusOf answer = Some "queued"
  /\ ~ In "queued" actedOnStatuses
  /\ pollStep env call (0, 0) mixedWorld
     = (Ok (Next, (0 + 1, 0)), awaited env (EvPollFetch "run-b") mixedWorld).
Proof.
  cbn zeta.
  assert (Hout : ~ In "queued" actedOnStatuses).
  { cbn. intros H. repeat (destruct H as [H|H]; [discriminate H|]).
    exact H. }
  assert (Hst : 200 <= 200 <= 299) by lia.
  split; [reflexivity|]. split; [exact Hout|].
  exact (poll_in_progress_leaves_call
           (providerEnv (TriggerException "unused")
              (PollResponse 200 (Some (JObj [("status", JStr "Queued")])))
              false)
           (sampleCall "b" CallStatus.RUNNING (Some "run-b") (Some 9000000))
           "run-b" 200 (JObj [("status", JStr "Queued")]) "queued" (0, 0)
           mixedWorld
           eq_refl eq_refl eq_refl eq_refl Hst eq_refl eq_refl Hout).
Defined.

(** Two answers that cannot be printed: a status that is an object with
    an own [toString] property, and an event whose type is one.  On both
    the poll raises, where an answer with a printable status of the same
    shape is left for the next cycle. *)
Example poll_unprintable_answers_raise :
  let call := sampleCall "b" CallStatus.RUNNING (Some "run-b") (Some 9000000) in
  let poll (answer : json) :=
    fst (pollStep
           (providerEnv (TriggerException "unused")
              (PollResponse 200 (Some answer)) false)
           call (0, 0) mixedWorld) in
  poll (JObj [("status", JObj [("toString", JNum 1)])])
  = Throw Json.typeError
  /\ poll (JObj [("status", JStr "completed");
                ("events", JArr [JObj [("type", JObj [("toString", JNum 1)])]])])
     = Throw Json.typeError
  /\ poll (JObj [("status", JObj [("valueOf", JNum 1)])])
     = Ok (Next, (1, 0))
  /\ Json.toString (JArr [JNull; JNum 7; JArr [JStr "a"; JObj []]])
     = Some ",7,a,[object Object]".
Proof. cbn zeta. repeat split. Qed.

(** ** The stored copy of the response *)

Lemma length_append (a b : string) :
  String.length (a ++ b) = (String.length a + String.length b)%nat.
Proof. induction a as [|c a IH]; cbn; [reflexivity | now rewrite IH]. Qed.

Lemma length_substring_head (n : nat) (s : string) :
  String.length (substring 0 n s) = Nat.min n (String.length s).
Proof.
  revert s. induction n as [|n IH]; intros [|c s]; cbn; try reflexivity.
  now rewrite IH.
Qed.

Lemma substring_head_prefix (n : nat) (s : string) :
  prefix (substring 0 n s) s = true.
Proof.
  revert s. induction n as [|n IH]; intros [|c s]; cbn [substring];
    try reflexivity.
  now rewrite prefix_cons, Ascii.eqb_refl, IH.
Qed.

Lemma truncateResponse_spec (fullResponse : string) :
  Z.of_nat (String.length (truncateResponse fullResponse)) <= 10003
  /\ (Z.of_nat (String.length fullResponse) <= 10000 ->
      truncateResponse fullResponse = fullResponse)
  /\ (10000 < Z.of_nat (String.length fullResponse) ->
      exists head,
        truncateResponse fullResponse = head ++ "..."
        /\ Z.of_nat (String.length head) = 10000
        /\ prefix head fullResponse = true).
Proof.
  unfold truncateResponse.
  set (limit := Z.to_nat 10000).
  assert (Hlimit : Z.of_nat limit = 10000) by (subst limit; lia).
  clearbody limit.
  destruct (10000 <? Z.of_nat (String.length fullResponse)) eqn:Hlong.
  - apply Z.ltb_lt in Hlong.
    assert (Hlen : String.length (substring 0 limit fullResponse) = limit).
    { rewrite length_substring_head. lia. }
    split; [|split].
    + rewrite length_append, Hlen. cbn [String.length]. lia.
    + lia.
    + intros _. exists (substring 0 limit fullResponse).
      split; [reflexivity|]. split; [lia|]. apply substring_head_prefix.
  - apply Z.ltb_ge in Hlong. split; [lia|]. split; [reflexivity | lia].
Qed.

(** X9: the copy of the provider's response stored with a settled call
    is never null and never longer than 10003 characters: a response
    that serialises to at most 10000 characters is stored whole, a longer
    one as its first 10000 characters followed by three dots, and one that
    does not serialise as a fixed note. *)
Theorem metadataOf_bounded (E : Env) (status : json) :
  exists stored,
    metadataOf E status = Some stored
    /\ Z.of_nat (String.length stored) <= 10003
    /\ (forall fullResponse,
          JSON_stringify E status = Some fullResponse ->
          (Z.of_nat (String.length fullResponse) <= 10000 ->
           stored = fullResponse)
          /\ (10000 < Z.of_nat (String.length fullResponse) ->
              exists head,
                stored = head ++ "..."
                /\ Z.of_nat (String.length head) = 10000
                /\ prefix head fullResponse = true))
    /\ (JSON_stringify E status = None ->
        stored = "Failed to serialize response").
Proof.
  unfold metadataOf.
  destruct (JSON_stringify E status) as [fullResponse|].
  - destruct (truncateResponse_spec fullResponse) as [Hlen [Hshort Hlong]].
    eexists. split; [reflexivity|]. split; [exact Hlen|].
    split; [|discriminate].
    intros s [= <-]. split; assumption.
  - eexists. split; [reflexivity|]. split; [cbn; lia|].
    split; [discriminate | reflexivity].
Qed.

(** ** The stale-call reaper, continued *)

Lemma isStale_fresh (nowMs : Z) (c : Call.t) :
  Call.status c <> CallStatus.RUNNING
  \/ nowMs - runningSince c < RUNNING_CALL_TIMEOUT_MS ->
  isStale (nowMs - RUNNING_CALL_TIMEOUT_MS) c = false.
Proof.
  unfold isStale, runningSince, leCutoff. intros [Hst|Hfresh].
  - destruct (Call.status c); try reflexivity. contradiction.
  - apply andb_false_iff. right.
    destruct (Call.triggeredAt c); apply Z.leb_gt; lia.
Qed.

Lemma isStale_due (nowMs : Z) (c : Call.t) :
  Call.status c = CallStatus.RUNNING ->
  RUNNING_CALL_TIMEOUT_MS <= nowMs - runningSince c ->
  isStale (nowMs - RUNNING_CALL_TIMEOUT_MS) c = true.
Proof.
  unfold isStale, runningSince, leCutoff. intros -> H.
  cbn [CallStatus.eqb andb].
  destruct (Call.triggeredAt c); apply Z.leb_le; lia.
Qed.

(** With distinct primary keys, the identifiers selected by a filter
    select back exactly the rows that pass it. *)
Lemma memberOf_filtered (cs : list Call.t) (sel : Call.t -> bool)
    (c : Call.t) :
  NoDup (map Call.id cs) -> In c cs ->
  memberOf (map Call.id (filter sel cs)) (Call.id c) = sel c.
Proof.
  intros Hnd Hin. destruct (sel c) eqn:Hsel.
  - now apply memberOf_map_id.
  - unfold memberOf. apply not_true_is_false. intros Hex.
    apply existsb_exists in Hex as [id [Hid Heq]].
    apply String.eqb_eq in Heq. subst id.
    apply in_map_iff in Hid as [c' [Hsame Hc']].
    apply filter_In in Hc' as [Hin' Hsel'].
    assert (c' = c) by (eapply NoDup_map_injective; eassumption).
    subst c'. congruence.
Qed.

Section ReaperExact.

Variable E : Env.

(** X10: what a pass of the reaper leaves alone and where its boundary
    lies.  With distinct call identifiers, a call that is not RUNNING, or
    that has been RUNNING for less than the timeout, is left exactly as it
    is, whether the database works or not; while the database works, a
    call RUNNING for exactly the timeout is already reaped, the number
    returned is the number of calls reaped, and calls of every campaign
    are reaped alike. *)
Theorem reaper_pass_boundary (w : World) :
  NoDup (map Call.id (calls w)) ->
  (forall i c,
      nth_error (calls w) i = Some c ->
      Call.status c <> CallStatus.RUNNING
      \/ now E w - runningSince c < RUNNING_CALL_TIMEOUT_MS ->
      nth_error (calls (snd (cleanupZombieRunningCalls E w))) i = Some c)
  /\ (dbFails E (ticks w) = false ->
      dbFails E (S (ticks w)) = false ->
      exists n w',
        cleanupZombieRunningCalls E w = (Ok n, w')
        /\ n = Z.of_nat
                 (length (filter
                    (fun c =>
                       CallStatus.eqb (Call.status c) CallStatus.RUNNING
                       && (runningSince c
                           <=? now E w - RUNNING_CALL_TIMEOUT_MS))
                    (calls w)))
        /\ forall i c,
             nth_error (calls w) i = Some c ->
             Call.status c = CallStatus.RUNNING ->
             RUNNING_CALL_TIMEOUT_MS <= now E w - runningSince c ->
             exists c',
               nth_error (calls w') i = Some c'
               /\ Call.id c' = Call.id c
               /\ Call.campaignId c' = Call.campaignId c
               /\ Call.status c' = CallStatus.FAILED
               /\ Call.callOutcome c' = Some "SYSTEM_TIMEOUT").
Proof.
  intros Hnd.
  set (cutoff := now E w - RUNNING_CALL_TIMEOUT_MS).
  set (ids := map Call.id (filter (isStale cutoff) (calls w))).
  assert (Hsel : forall i c,
             nth_error (calls w) i = Some c ->
             memberOf ids (Call.id c) = isStale cutoff c).
  { intros i c Hnth. apply memberOf_filtered; [exact Hnd|].
    eapply nth_error_In; eassumption. }
  split.
  - intros i c Hnth Hfresh.
    assert (Hkept : memberOf ids (Call.id c) = false).
    { rewrite (Hsel i c Hnth). now apply isStale_fresh. }
    unfold cleanupZombieRunningCalls, bind at 1, newDate, gets.
    unfold bind at 1, callFindStale, db, gets.
    destruct (dbFails E (ticks w)); [exact Hnth|].
    cbn [calls awaited]. fold cutoff. fold ids.
    destruct (length ids =? 0)%nat; [exact Hnth|].
    unfold bind, callUpdateMany, db, modify, gets, ret.
    cbn [ticks awaited].
    destruct (dbFails E (S (ticks w))); [exact Hnth|].
    cbn [snd calls withCalls awaited].
    rewrite nth_error_map, Hnth. cbn [option_map]. now rewrite Hkept.
  - intros H0 H1. rewrite (cleanup_run E w H0 H1). cbn zeta.
    fold cutoff. fold ids.
    assert (Hcount :
      Z.of_nat (length ids)
      = Z.of_nat
          (length (filter
             (fun c =>
                CallStatus.eqb (Call.status c) CallStatus.RUNNING
                && (runningSince c <=? cutoff)) (calls w)))).
    { subst ids. rewrite length_map. f_equal. f_equal.
      apply filter_ext. intros c. unfold isStale, runningSince, leCutoff.
      now destruct (Call.triggeredAt c). }
    destruct (length ids =? 0)%nat eqn:Hlen.
    + do 2 eexists. split; [reflexivity|]. split.
      * rewrite <- Hcount. apply Nat.eqb_eq in Hlen. now rewrite Hlen.
      * intros i c Hnth Hst Hdue.
        assert (Hin : memberOf ids (Call.id c) = true).
        { rewrite (Hsel i c Hnth). now apply isStale_due. }
        apply Nat.eqb_eq in Hlen. destruct ids; discriminate.
    + do 2 eexists. split; [reflexivity|]. split; [exact Hcount|].
      intros i c Hnth Hst Hdue.
      assert (Hin : memberOf ids (Call.id c) = true).
      { rewrite (Hsel i c Hnth). now apply isStale_due. }
      eexists. split.
      * cbn [calls withCalls]. rewrite nth_error_map, Hnth.
        cbn [option_map]. rewrite Hin. reflexivity.
      * repeat split.
Qed.

End ReaperExact.

Lemma reaper_pass_boundary_witness :
  let env := sampleEnv 2 dbUp stillRunning in
  let fresh := sampleCall "b" CallStatus.RUNNING (Some "run-b") (Some 9000000) in
  NoDup (map Call.id (calls staleWorld))
  /\ now env staleWorld - runningSince fresh < RUNNING_CALL_TIMEOUT_MS
  /\ nth_error (calls (snd (cleanupZombieRunningCalls env staleWorld))) 1
     = Some fresh.
Proof.
  cbn zeta.
  assert (Hnd : NoDup (map Call.id (calls staleWorld))).
  { repeat constructor; cbn; intros H;
      repeat (destruct H as [H|H]; [discriminate H|]); exact H. }
  assert (Hfresh :
    now (sampleEnv 2 dbUp stillRunning) staleWorld
    - runningSince
        (sampleCall "b" CallStatus.RUNNING (Some "run-b") (Some 9000000))
    < RUNNING_CALL_TIMEOUT_MS) by reflexivity.
  split; [exact Hnd|]. split; [exact Hfresh|].
  exact (proj1 (reaper_pass_boundary (sampleEnv 2 dbUp stillRunning)
                  staleWorld Hnd)
           1%nat
           (sampleCall "b" CallStatus.RUNNING (Some "run-b") (Some 9000000))
           eq_refl (or_intror Hfresh)).
Defined.

(** ** The worker loop, continued *)

Lemma stopSeen_refl (E : Env) (w : World) : stopSeen E w w.
Proof. unfold stopSeen. repeat split; trivial; intros; lia. Qed.

Lemma stopSeen_trans (E : Env) (a b c : World) :
  stopSeen E a b -> stopSeen E b c -> stopSeen E a c.
Proof.
  unfold stopSeen. intros [Hr1 [Ht1 [Hs1 Hq1]]] [Hr2 [Ht2 [Hs2 Hq2]]].
  repeat split; try congruence; try lia; auto.
  intros Hrun t Ht Hreq.
  destruct (Nat.lt_ge_cases t (ticks b)) as [Hlt|Hge].
  - apply Hs2. apply (Hq1 Hrun t); [lia | exact Hreq].
  - apply (Hq2 (eq_trans Hr1 Hrun) t); [lia | exact Hreq].
Qed.

Lemma stopSeen_awaited (E : Env) (ev : Event) (w : World) :
  stopSeen E w (awaited E ev w).
Proof.
  unfold stopSeen. cbn [awaited isRunning ticks shouldStop].
  repeat split; try lia.
  - intros ->. reflexivity.
  - intros Hrun t Ht Hreq. assert (t = ticks w) by lia. subst t.
    rewrite Hrun, Hreq. apply orb_true_r.
Qed.

Ltac stopSeen_obligations :=
  first
    [ exact (stopSeen_refl _)
    | exact (stopSeen_trans _)
    | (intros; exact I)
    | (intros; apply stopSeen_awaited)
    | (intros; unfold stopSeen; cbn; repeat split; trivial; intros; lia) ].

Section LoopControl.

Variable E : Env.

Lemma stopSeen_processQueueCycle (c : string) (paused : bool) :
  respects (stopSeen E) (processQueueCycle E c paused).
Proof.
  apply (respects_processQueueCycle E (stopSeen E))
    with (okData := fun _ => True); stopSeen_obligations.
Qed.

Lemma stopSeen_loopIteration (campaign : Campaign.t) (n : Z) :
  respects (stopSeen E) (loopIteration E campaign n).
Proof.
  apply (respects_loopIteration E (stopSeen E));
    first [ (intros; apply stopSeen_processQueueCycle)
          | stopSeen_obligations ].
Qed.

(** An iteration of the loop never raises: its catch block does not. *)
Lemma loopIteration_returns (campaign : Campaign.t) (n : Z) (w : World) :
  exists ctl, fst (loopIteration E campaign n w) = Ok ctl.
Proof.
  unfold loopIteration, tryCatch.
  destruct (cycleBody E campaign n w) as [[ctl|e] w1]; [now exists ctl|].
  rewrite cycleCatch_run. cbn zeta.
  destruct (MAX_CONSECUTIVE_ERRORS <=? consecutiveErrors w1 + 1);
    eexists; reflexivity.
Qed.

(** X11: a stop request that comes in during any await of an iteration,
    while the worker is running, ends the loop with that iteration: the
    loop does not start another one, whatever the iteration did, and the
    worker leaves with the running flag and the stop signal both
    cleared. *)
Theorem stop_request_ends_loop (campaign : Campaign.t) (fuel : nat) (n : Z)
    (t : nat) (w : World) :
  shouldStop w = false ->
  isRunning w = true ->
  (ticks w <= t < ticks (snd (loopIteration E campaign (n + 1) w)))%nat ->
  stopRequested E t = true ->
  let w1 := snd (loopIteration E campaign (n + 1) w) in
  workerLoop E (S fuel) campaign n w = (Ok Finished, w1)
  /\ (n = 0 ->
      runLoop E (S fuel) campaign w
      = (Ok Finished, withShouldStop false (withIsRunning false w1))).
Proof.
  intros Hstop Hrun Ht Hreq.
  destruct (stopSeen_loopIteration campaign (n + 1) w) as [_ [_ [_ Hseen]]].
  specialize (Hseen Hrun t Ht Hreq).
  destruct (loopIteration_returns campaign (n + 1) w) as [ctl Hctl].
  destruct (loopIteration E campaign (n + 1) w) as [r w1] eqn:Hit.
  cbn [fst snd] in *. subst r.
  assert (Hloop : workerLoop E (S fuel) campaign n w = (Ok Finished, w1)).
  { rewrite (workerLoop_step E fuel campaign n w w1 ctl Hstop Hit).
    destruct ctl; [|reflexivity].
    destruct fuel; cbn [workerLoop]; unfold bind, gets;
      rewrite Hseen; reflexivity. }
  split; [exact Hloop|].
  intros ->. unfold runLoop. rewrite (bind_ok _ _ _ _ _ Hloop). reflexivity.
Qed.

End LoopControl.

Lemma stop_request_ends_loop_witness :
  let campaign := sampleCampaign false in
  let w1 := snd (loopIteration stoppingEnv campaign (0 + 1) busyWorld) in
  (ticks busyWorld <= 3 < ticks w1)%nat
  /\ workerLoop stoppingEnv 7 campaign 0 busyWorld = (Ok Finished, w1)
  /\ runLoop stoppingEnv 7 campaign busyWorld
     = (Ok Finished, withShouldStop false (withIsRunning false w1)).
Proof.
  cbn zeta.
  assert (Ht : (ticks busyWorld <= 3
                < ticks (snd (loopIteration stoppingEnv (sampleCampaign false)
                                (0 + 1) busyWorld)))%nat).
  { vm_compute. split; repeat constructor. }
  split; [exact Ht|].
  pose proof (stop_request_ends_loop stoppingEnv (sampleCampaign false) 6 0 3
                busyWorld eq_refl eq_refl Ht eq_refl) as [Hloop Hrun].
  split; [exact Hloop | exact (Hrun eq_refl)].
Defined.

(** ** Startup and shutdown of the worker *)

Lemma ensures_ret {A : Type} (a : A) (Q : A -> World -> Prop) :
  (forall w, Q a w) -> ensures (ret a) Q.
Proof. intros H w. apply H. Qed.

Lemma ensures_bind {A B : Type} (m : M A) (f : A -> M B)
    (Q : B -> World -> Prop) :
  ensures m (fun _ _ => True) -> (forall a, ensures (f a) Q) ->
  ensures (bind m f) Q.
Proof.
  intros Hm Hf w. unfold bind. specialize (Hm w).
  destruct (m w) as [[a|e] w1]; [apply Hf | contradiction].
Qed.

Lemma ensures_weaken {A : Type} (m : M A) (Q Q' : A -> World -> Prop) :
  ensures m Q -> (forall a w, Q a w -> Q' a w) -> ensures m Q'.
Proof.
  intros Hm Himp w. specialize (Hm w).
  destruct (m w) as [[a|e] w1]; [now apply Himp | contradiction].
Qed.

Lemma ensures_gets {A : Type} (f : World -> A) :
  ensures (gets f) (fun _ _ => True).
Proof. intros w. exact I. Qed.

Lemma ensures_modify (f : World -> World) :
  ensures (modify f) (fun _ _ => True).
Proof. intros w. exact I. Qed.

Lemma ensures_nonFatal {A : Type} (m : M A) :
  ensures (nonFatal m) (fun _ _ => True).
Proof. intros w. now rewrite nonFatal_run. Qed.

Lemma ensures_attempt {A : Type} (m : M A) :
  ensures (attempt m) (fun _ _ => True).
Proof.
  intros w. unfold attempt, tryCatch, bind, ret.
  now destruct (m w) as [[a|e] w1].
Qed.

Section Startup.

Variable E : Env.

Lemma ensures_stopped : ensures stopped workerLeft.
Proof. intros w _. reflexivity. Qed.

Lemma ensures_failedToStart (prefix e : string) :
  ensures (failedToStart prefix e) workerLeft.
Proof. intros w _. reflexivity. Qed.

Lemma ensures_workerLoop (campaign : Campaign.t) (fuel : nat) :
  forall n, ensures (workerLoop E fuel campaign n) (fun _ _ => True).
Proof.
  induction fuel as [|fuel IH]; intros n w; cbn [workerLoop];
    unfold bind at 1, gets; destruct (shouldStop w); try exact I.
  unfold bind.
  destruct (loopIteration_returns E campaign (n + 1) w) as [ctl Hctl].
  destruct (loopIteration E campaign (n + 1) w) as [r w1].
  cbn [fst] in Hctl. subst r. destruct ctl; [apply IH | exact I].
Qed.

Lemma ensures_runLoop (campaign : Campaign.t) (fuel : nat) :
  ensures (runLoop E fuel campaign) workerLeft.
Proof.
  intros w. unfold runLoop, bind.
  pose proof (ensures_workerLoop campaign fuel 0 w) as Hloop.
  destruct (workerLoop E fuel campaign 0 w) as [[[|]|e] w1];
    [| |contradiction]; cbn; unfold workerLeft; [reflexivity | discriminate].
Qed.

Lemma ensures_startCampaign (fuel : nat) :
  ensures (startCampaign E fuel) workerLeft.
Proof.
  unfold startCampaign.
  destruct (negb (fst (validateConfig E))); [apply ensures_failedToStart|].
  apply ensures_bind; [apply ensures_attempt|].
  intros [e|[campaign|]];
    [apply ensures_failedToStart | | apply ensures_stopped].
  apply ensures_bind; [apply ensures_gets|]. intros t.
  apply ensures_bind; [apply ensures_modify|]. intros _.
  apply ensures_bind; [apply ensures_attempt|].
  intros [e|initialStatus]; [apply ensures_failedToStart|].
  destruct ((pending initialStatus =? 0) && (running initialStatus =? 0)).
  - apply ensures_bind; [apply ensures_nonFatal|]. intros _.
    apply ensures_stopped.
  - apply ensures_bind; [|intros _; apply ensures_runLoop].
    destruct (Campaign.startedAt campaign);
      [intros w; exact I | apply ensures_nonFatal].
Qed.

Lemma ensures_runWorkerLoop (fuel : nat) :
  ensures (runWorkerLoop E fuel) workerLeft.
Proof.
  unfold runWorkerLoop. apply ensures_bind; [apply ensures_nonFatal|].
  intros _. apply ensures_startCampaign.
Qed.

(** X12: a run of the worker never raises, whatever the database and the
    provider do, so the task started by [startWorker] ends through
    [runWorkerLoop] itself and never through its fallback handler; and
    whenever a run has ended, for whatever reason, the running flag is
    cleared, so that [startWorker] accepts the next start. *)
Theorem worker_run_never_raises (fuel : nat) (w : World) :
  exists ended w',
    runWorkerLoop E fuel w = (Ok ended, w')
    /\ workerTask E fuel w = (Ok ended, w')
    /\ (ended = Finished ->
        isRunning w' = false
        /\ startWorker w'
           = (Ok (true, "Worker started"),
              withShouldStop false (withIsRunning true w'))).
Proof.
  pose proof (ensures_runWorkerLoop fuel w) as Hrun.
  unfold workerTask, tryCatch.
  destruct (runWorkerLoop E fuel w) as [[ended|e] w']; [|contradiction].
  exists ended, w'. split; [reflexivity|]. split; [reflexivity|].
  intros Hended. specialize (Hrun Hended). split; [exact Hrun|].
  unfold startWorker, bind, gets, modify, ret. now rewrite Hrun.
Qed.

(** X13: with one of the three provider settings missing, a run of the
    worker ends right after its startup pass of the reaper: it looks up
    no campaign and contacts no provider, clears the running flag, and
    leaves in [lastError] a message that names every missing
    environment variable. *)
Theorem invalid_config_stops_startup (fuel : nat) (w : World) :
  missingSettings E <> [] ->
  let w1 := snd (cleanupZombieRunningCalls E w) in
  exists message,
    runWorkerLoop E fuel w
    = (Ok Finished,
       withIsRunning false
         (withStats
            (Stats.withLastError ("Config errors: " ++ message) (stats w1))
            w1))
    /\ forall name,
         In name (missingSettings E) -> Js.includes message name = true.
Proof.
  intros Hmissing. cbn zeta.
  exists (Json.joinWith ", " (snd (validateConfig E))). split.
  - unfold runWorkerLoop, bind. rewrite nonFatal_run. cbn [fst snd].
    unfold startCampaign.
    replace (fst (validateConfig E)) with false; [reflexivity|].
    unfold validateConfig, missingSettings in *.
    destruct (Js.isEmpty (HAPPYROBOT_WEBHOOK_URL E)),
      (Js.isEmpty (HAPPYROBOT_API_KEY E)),
      (Js.isEmpty (HAPPYROBOT_ORG_ID E)); try reflexivity.
    now contradiction Hmissing.
  - unfold validateConfig, missingSettings in *.
    destruct (Js.isEmpty (HAPPYROBOT_WEBHOOK_URL E)),
      (Js.isEmpty (HAPPYROBOT_API_KEY E)),
      (Js.isEmpty (HAPPYROBOT_ORG_ID E));
      intros name Hin; cbn [app In] in Hin;
      repeat (destruct Hin as [<-|Hin]; [vm_compute; reflexivity|]);
      contradiction.
Qed.

Lemma sameCampaigns_cleanup :
  respects sameCampaigns (cleanupZombieRunningCalls E).
Proof.
  apply (respects_cleanup E sameCampaigns);
    first [ exact (fun w => eq_refl)
          | (intros a b c Hab Hbc; unfold sameCampaigns in *; congruence)
          | (intros; reflexivity) ].
Qed.

Lemma validateConfig_complete :
  missingSettings E = [] -> fst (validateConfig E) = true.
Proof.
  unfold validateConfig, missingSettings.
  destruct (Js.isEmpty (HAPPYROBOT_WEBHOOK_URL E)),
    (Js.isEmpty (HAPPYROBOT_API_KEY E)),
    (Js.isEmpty (HAPPYROBOT_ORG_ID E)); try discriminate. reflexivity.
Qed.

(** X14: with a complete configuration and no active campaign, a run of
    the worker ends after its startup pass of the reaper and one lookup:
    it clears the running flag and changes nothing else, the statistics
    of an earlier run included; and when that lookup fails, the run ends
    the same way and records the database error in [lastError]. *)
Theorem startup_without_active_campaign (fuel : nat) (w : World) :
  missingSettings E = [] ->
  let w1 := snd (cleanupZombieRunningCalls E w) in
  (dbFails E (ticks w1) = false ->
   find Campaign.isActive (campaigns w) = None ->
   runWorkerLoop E fuel w
   = (Ok Finished, withIsRunning false (awaited E EvCampaignFindFirstActive w1)))
  /\ (dbFails E (ticks w1) = true ->
      exists e,
        runWorkerLoop E fuel w
        = (Ok Finished,
           withIsRunning false
             (withStats
                (Stats.withLastError ("Database error: " ++ e) (stats w1))
                (awaited E EvCampaignFindFirstActive w1)))).
Proof.
  intros Hconfig. cbn zeta.
  pose proof (sameCampaigns_cleanup w) as Hsame. unfold sameCampaigns in Hsame.
  split.
  - intros Hdb Hnone.
    unfold runWorkerLoop, bind at 1. rewrite nonFatal_run. cbn [fst snd].
    unfold startCampaign. rewrite (validateConfig_complete Hconfig).
    cbn [negb].
    unfold bind at 1, attempt, tryCatch, bind, getActiveCampaign,
      campaignFindFirstActive, db, gets.
    rewrite Hdb. cbn [awaited campaigns]. rewrite Hsame, Hnone. reflexivity.
  - intros Hdb. exists "database error".
    unfold runWorkerLoop, bind at 1. rewrite nonFatal_run. cbn [fst snd].
    unfold startCampaign. rewrite (validateConfig_complete Hconfig).
    cbn [negb].
    unfold bind at 1, attempt, tryCatch, bind, getActiveCampaign,
      campaignFindFirstActive, db, gets.
    rewrite Hdb. reflexivity.
Qed.

End Startup.

Lemma invalid_config_stops_startup_witness :
  let w1 := snd (cleanupZombieRunningCalls unconfiguredEnv mixedWorld) in
  missingSettings unconfiguredEnv = ["HAPPYROBOT_API_KEY"; "HAPPYROBOT_ORG_ID"]
  /\ exists message,
       runWorkerLoop unconfiguredEnv 3 mixedWorld
       = (Ok Finished,
          withIsRunning false
            (withStats
               (Stats.withLastError ("Config errors: " ++ message) (stats w1))
               w1))
       /\ forall name,
            In name (missingSettings unconfiguredEnv) ->
            Js.includes message name = true.
Proof.
  cbn zeta. split; [reflexivity|].
  assert (Hmissing : missingSettings unconfiguredEnv <> [])
    by (vm_compute; discriminate).
  exact (invalid_config_stops_startup unconfiguredEnv 3 mixedWorld Hmissing).
Defined.

Lemma startup_without_active_campaign_witness :
  let env := sampleEnv 2 dbUp stillRunning in
  let w := mkWorld [] [] true false 0 Stats.initial 0 [] in
  let w1 := snd (cleanupZombieRunningCalls env w) in
  missingSettings env = []
  /\ runWorkerLoop env 3 w
     = (Ok Finished,
        withIsRunning false (awaited env EvCampaignFindFirstActive w1)).
Proof.
  cbn zeta. split; [reflexivity|].
  exact (proj1 (startup_without_active_campaign (sampleEnv 2 dbUp stillRunning)
                  3 (mkWorld [] [] true false 0 Stats.initial 0 []) eq_refl)
           eq_refl eq_refl).
Defined.

(** ** The iterations of the loop *)

Lemma updateCampaignById_found (id : string) (f : Campaign.t -> Campaign.t) :
  (forall c, Campaign.id (f c) = Campaign.id c) ->
  forall cs row,
    findCampaign id cs = Some row ->
    exists cs', updateCampaignById id f cs = Some cs'
                /\ findCampaign id cs' = Some (f row).
Proof.
  intros Hid. unfold findCampaign.
  induction cs as [|c cs IH]; intros row Hfind; [discriminate|].
  cbn in Hfind |- *. destruct (String.eqb (Campaign.id c) id) eqn:Hc.
  - injection Hfind as <-. eexists; split; [reflexivity|].
    cbn. now rewrite Hid, Hc.
  - destruct (IH row Hfind) as [cs' [Hu Hf]]. rewrite Hu.
    eexists; split; [reflexivity|]. cbn. now rewrite Hc.
Qed.

Lemma sameCampaigns_trans (a b c : World) :
  sameCampaigns a b -> sameCampaigns b c -> sameCampaigns a c.
Proof. unfold sameCampaigns. congruence. Qed.

Ltac sameCampaigns_obligations :=
  first
    [ exact (fun w => eq_refl)
    | exact sameCampaigns_trans
    | (intros; exact I)
    | (intros; reflexivity) ].

Section Cycle.

Variable E : Env.

(** X15: the backoff after a failed cycle.  While the counter stays below
    the maximum, the [n]-th consecutive failure is followed by a sleep of
    5000 * 2^(n-1) milliseconds: 5, 10, 20 and 40 seconds, so the cap of
    60 seconds is never reached; the failure that brings the counter to
    the maximum breaks the loop without sleeping. *)
Theorem backoff_doubles_below_cap (e : string) (w : World) :
  0 <= consecutiveErrors w ->
  let n := consecutiveErrors w + 1 in
  (n < MAX_CONSECUTIVE_ERRORS ->
   exists w',
     cycleCatch E e w = (Ok Next, w')
     /\ trace w' = EvSleep (ERROR_BACKOFF_BASE * 2 ^ (n - 1)) :: trace w
     /\ ERROR_BACKOFF_BASE * 2 ^ (n - 1) <= 40000
     /\ consecutiveErrors w' = n
     /\ Stats.lastError (stats w') = Some e)
  /\ (MAX_CONSECUTIVE_ERRORS <= n ->
      exists w',
        cycleCatch E e w = (Ok Break, w')
        /\ trace w' = trace w
        /\ consecutiveErrors w' = n
        /\ Stats.lastError (stats w') = Some e).
Proof.
  intros Hnonneg. cbn zeta. rewrite cycleCatch_run. cbn zeta.
  unfold MAX_CONSECUTIVE_ERRORS, ERROR_BACKOFF_BASE.
  split; intros Hn.
  - assert (Hlt : (5 <=? consecutiveErrors w + 1) = false)
      by (apply Z.leb_gt; exact Hn).
    rewrite Hlt.
    assert (Hcase : consecutiveErrors w = 0 \/ consecutiveErrors w = 1
                    \/ consecutiveErrors w = 2 \/ consecutiveErrors w = 3)
      by lia.
    assert (Hpow : 5000 * 2 ^ (consecutiveErrors w + 1 - 1) <= 40000).
    { destruct Hcase as [-> | [-> | [-> | ->]]]; discriminate. }
    eexists. split; [reflexivity|]. cbn [trace awaited withStats
      withConsecutiveErrors consecutiveErrors stats Stats.lastError
      Stats.cycleFailed].
    repeat split; trivial. f_equal. f_equal. lia.
  - assert (Hge : (5 <=? consecutiveErrors w + 1) = true)
      by (apply Z.leb_le; exact Hn).
    rewrite Hge. eexists. split; [reflexivity|]. repeat split.
Qed.

Lemma sameCampaigns_cycleReap (n : Z) :
  respects sameCampaigns (cycleReap E n).
Proof.
  apply (respects_cycleReap E sameCampaigns); sameCampaigns_obligations.
Qed.

(** X16: the worker serves the campaign that was active when it started.
    When the re-check at the head of an iteration finds no active
    campaign, or another one, the iteration ends the loop at once: beyond
    the reaper's pass, if one was due, it makes that one lookup and
    writes nothing. *)
Theorem active_campaign_change_stops_worker (campaign : Campaign.t) (n : Z)
    (w : World) :
  let w1 := snd (cycleReap E n w) in
  dbFails E (ticks w1) = false ->
  match find Campaign.isActive (campaigns w) with
  | Some current => Campaign.id current <> Campaign.id campaign
  | None => True
  end ->
  loopIteration E campaign n w
  = (Ok Break, awaited E EvCampaignFindFirstActive w1).
Proof.
  cbn zeta. intros Hdb Hother.
  destruct (cycleReap_reaperRuns E n w) as [Hreap _].
  pose proof (sameCampaigns_cycleReap n w) as Hsame.
  unfold sameCampaigns in Hsame.
  unfold loopIteration, tryCatch, cycleBody, bind at 1, cycleObserve,
    bind at 1.
  rewrite Hreap. cbn [snd].
  unfold cycleStatus, bind at 1, getActiveCampaign, campaignFindFirstActive,
    db, gets.
  rewrite Hdb. cbn [awaited campaigns]. rewrite Hsame.
  destruct (find Campaign.isActive (campaigns w)) as [current|];
    [|reflexivity].
  apply String.eqb_neq in Hother. rewrite Hother. reflexivity.
Qed.

End Cycle.

Lemma backoff_doubles_below_cap_witness :
  let env := sampleEnv 2 dbUp stillRunning in
  0 <= consecutiveErrors pausedBacklogWorld
  /\ exists w',
       cycleCatch env "timeout" pausedBacklogWorld = (Ok Next, w')
       /\ trace w' = [EvSleep 40000]
       /\ 40000 <= 40000
       /\ consecutiveErrors w' = 4
       /\ Stats.lastError (stats w') = Some "timeout".
Proof.
  cbn zeta.
  assert (Hnonneg : 0 <= consecutiveErrors pausedBacklogWorld)
    by discriminate.
  split; [exact Hnonneg|].
  exact (proj1 (backoff_doubles_below_cap (sampleEnv 2 dbUp stillRunning)
                  "timeout" pausedBacklogWorld Hnonneg)
           eq_refl).
Defined.

Lemma active_campaign_change_stops_worker_witness :
  let env := sampleEnv 2 dbUp stillRunning in
  let other :=
    Campaign.mk "camp-2" "Summer collections" true false "ACTIVE" None None in
  let w := withCampaigns [other] mixedWorld in
  Campaign.id other <> Campaign.id (sampleCampaign false)
  /\ loopIteration env (sampleCampaign false) 7 w
     = (Ok Break, awaited env EvCampaignFindFirstActive w).
Proof.
  cbn zeta.
  assert (Hother : "camp-2" <> "camp-1") by discriminate.
  split; [exact Hother|].
  exact (active_campaign_change_stops_worker (sampleEnv 2 dbUp stillRunning)
           (sampleCampaign false) 7
           (withCampaigns
              [Campaign.mk "camp-2" "Summer collections" true false "ACTIVE"
                 None None] mixedWorld)
           eq_refl Hother).
Defined.

Section StopAndCompletion.

Variable E : Env.

Lemma triggerLoop_stopped (batch : list Call.t) (triggered : Z) (w : World) :
  shouldStop w = true ->
  forOf batch triggered (triggerStep E) w = (Ok triggered, w).
Proof.
  intros Hstop. destruct batch as [|call rest]; [reflexivity|].
  cbn [forOf]. unfold triggerStep, bind, gets. now rewrite Hstop.
Qed.

Lemma pollLoop_stopped (batch : list Call.t) (counts : Z * Z) (w : World) :
  shouldStop w = true ->
  forOf batch counts (pollStep E) w = (Ok counts, w).
Proof.
  intros Hstop. destruct batch as [|call rest]; [reflexivity|].
  cbn [forOf]. destruct counts as [polled completed].
  unfold pollStep, bind, gets. now rewrite Hstop.
Qed.

(** X17: once the stop signal is set, a dispatch and poll cycle only
    runs its queries: it sends no trigger request and no poll, changes no
    call and no statistics, and reports nothing triggered, polled or
    completed. *)
Theorem stop_signal_halts_dispatch (campaignId : string) (paused : bool)
    (w : World) :
  shouldStop w = true ->
  let r := processQueueCycle E campaignId paused w in
  calls (snd r) = calls w
  /\ stats (snd r) = stats w
  /\ triggerFetches (snd r) = triggerFetches w
  /\ pollFetches (snd r) = pollFetches w
  /\ (forall result, fst r = Ok result -> result = mkCycleResult 0 0 0).
Proof.
  intros Hstop. cbn zeta.
  set (halted := fun r : Res CycleResult * World =>
         calls (snd r) = calls w
         /\ stats (snd r) = stats w
         /\ triggerFetches (snd r) = triggerFetches w
         /\ pollFetches (snd r) = pollFetches w
         /\ (forall result, fst r = Ok result ->
                            result = mkCycleResult 0 0 0)).
  change (halted (processQueueCycle E campaignId paused w)).
  assert (Hthrow : forall e w2,
             calls w2 = calls w -> stats w2 = stats w ->
             triggerFetches w2 = triggerFetches w ->
             pollFetches w2 = pollFetches w ->
             halted (Throw e, w2)).
  { intros e w2 Hc Hs Ht Hp. unfold halted. cbn [fst snd].
    repeat apply conj; trivial. intros result H. discriminate H. }
  assert (Hawaited : forall ev w0,
             shouldStop w0 = true -> shouldStop (awaited E ev w0) = true).
  { intros ev w0 H. cbn. now rewrite H. }
  assert (Hpoll : forall w2,
             shouldStop w2 = true ->
             calls w2 = calls w -> stats w2 = stats w ->
             triggerFetches w2 = triggerFetches w ->
             pollFetches w2 = pollFetches w ->
             halted
               ((runningCalls <- callFindRunning E campaignId ;;
                 counts <- forOf runningCalls (0, 0) (pollStep E) ;;
                 ret (mkCycleResult 0 (fst counts) (snd counts))) w2)).
  { intros w2 H2 Hc Hs Ht Hp.
    unfold bind at 1, callFindRunning, db, gets.
    destruct (dbFails E (ticks w2)); [now apply Hthrow|].
    unfold bind at 1.
    rewrite (pollLoop_stopped _ _ _ (Hawaited _ _ H2)).
    unfold halted. cbn [fst snd ret]. repeat apply conj; trivial.
    now intros result [= <-]. }
  unfold processQueueCycle, bind at 1, callCount, db, gets.
  destruct (dbFails E (ticks w)); [now apply Hthrow|].
  set (w1 := awaited E (EvCallCount campaignId CallStatus.RUNNING) w).
  assert (H1 : shouldStop w1 = true) by now apply Hawaited.
  unfold bind at 1.
  destruct (negb paused); [|now apply Hpoll].
  destruct (0 <? _); [|now apply Hpoll].
  unfold bind at 1, gets. unfold bind at 1, callFindPending, db, gets.
  destruct (dbFails E (ticks w1)); [now apply Hthrow|].
  rewrite (triggerLoop_stopped _ _ _ (Hawaited _ _ H1)).
  apply Hpoll; trivial. now apply Hawaited.
Qed.

Lemma sameCampaigns_processQueueCycle (c : string) (paused : bool) :
  respects sameCampaigns (processQueueCycle E c paused).
Proof.
  apply (respects_processQueueCycle E sameCampaigns)
    with (okData := fun _ => True); sameCampaigns_obligations.
Qed.

Lemma sameCampaigns_getWorkStatus (c : string) :
  respects sameCampaigns (getWorkStatus E c).
Proof.
  apply (respects_getWorkStatus E sameCampaigns); sameCampaigns_obligations.
Qed.

Lemma cycleAct_completes (campaign : Campaign.t) (st : WorkStatus)
    (w : World) :
  isPaused st = false -> pending st = 0 -> running st = 0 ->
  cycleAct E campaign st w
  = (Ok Break,
     snd (campaignUpdate E (Campaign.id campaign)
            (dataCampaignCompleted (now E w)) w)).
Proof.
  intros Hp Hpending Hrunning. unfold cycleAct.
  rewrite Hp, Hpending, Hrunning. cbn [andb negb Z.eqb].
  unfold bind at 1. rewrite nonFatal_run. reflexivity.
Qed.

(** X18: within the loop a campaign is completed only when it is not
    paused.  An iteration that observes the campaign paused writes no
    campaign row, whatever it polls; one that observes it not paused
    with nothing PENDING and nothing RUNNING ends the loop without
    touching a call and, when the database works, marks the campaign
    COMPLETED with a completion timestamp, leaving its other columns as
    they are; when that update fails the loop ends all the same and the
    campaign stays as it was. *)
Theorem loop_completes_only_unpaused_campaign (campaign : Campaign.t)
    (st : WorkStatus) (w : World) :
  let r := cycleAct E campaign st w in
  (isPaused st = true -> campaigns (snd r) = campaigns w)
  /\ (isPaused st = false -> pending st = 0 -> running st = 0 ->
      fst r = Ok Break
      /\ calls (snd r) = calls w
      /\ (dbFails E (ticks w) = true -> campaigns (snd r) = campaigns w)
      /\ (dbFails E (ticks w) = false ->
          forall row,
            findCampaign (Campaign.id campaign) (campaigns w) = Some row ->
            exists row',
              findCampaign (Campaign.id campaign) (campaigns (snd r))
              = Some row'
              /\ Campaign.status row' = "COMPLETED"
              /\ Campaign.completedAt row' = Some (clock E (ticks w))
              /\ Campaign.startedAt row' = Campaign.startedAt row
              /\ Campaign.isActive row' = Campaign.isActive row
              /\ Campaign.isQueuePaused row' = Campaign.isQueuePaused row)).
Proof.
  cbn zeta. split.
  - intros Hp. unfold cycleAct. rewrite Hp. cbn [andb negb].
    destruct (running st =? 0); [reflexivity|].
    assert (Hok : respects sameCampaigns
      (result <- processQueueCycle E (Campaign.id campaign) true ;;
       t <- newDate E ;;
       modify (fun w0 =>
         withStats (Stats.cycleDone t (stats w0))
           (withConsecutiveErrors 0 w0)) ;;
       newStatus <- getWorkStatus E (Campaign.id campaign) ;;
       sleep E (if true then POLL_INTERVAL else POLL_INTERVAL) ;;
       ret Next)).
    { repeat first
        [ apply sameCampaigns_processQueueCycle
        | apply sameCampaigns_getWorkStatus
        | (apply (respects_bind sameCampaigns sameCampaigns_trans);
           [|intros])
        | (apply respects_gets; exact (fun w0 => eq_refl))
        | (apply respects_ret; exact (fun w0 => eq_refl))
        | (apply respects_modify; intros; reflexivity) ]. }
    apply Hok.
  - intros Hp Hpending Hrunning.
    rewrite (cycleAct_completes campaign st w Hp Hpending Hrunning).
    cbn [fst snd]. unfold campaignUpdate, db, now.
    destruct (dbFails E (ticks w)) eqn:Hdb.
    + repeat apply conj; try reflexivity. discriminate.
    + cbn [awaited campaigns ticks].
      destruct (updateCampaignById (Campaign.id campaign)
                  (Campaign.apply (dataCampaignCompleted (clock E (ticks w))))
                  (campaigns w)) as [cs|] eqn:Hupdate;
        (repeat apply conj; try reflexivity;
         try (intros H; discriminate H));
        intros _ row Hrow;
        destruct (updateCampaignById_found (Campaign.id campaign)
                    (Campaign.apply
                       (dataCampaignCompleted (clock E (ticks w))))
                    (fun c => eq_refl) _ _ Hrow) as [cs' [Hu Hf]];
        rewrite Hupdate in Hu; [|discriminate Hu].
      injection Hu as <-. eexists. split; [exact Hf|]. repeat split.
Qed.

End StopAndCompletion.

Lemma stop_signal_halts_dispatch_witness :
  let env := sampleEnv 2 dbUp stillRunning in
  let w := withShouldStop true mixedWorld in
  let r := processQueueCycle env "camp-1" false w in
  calls (snd r) = calls w
  /\ stats (snd r) = stats w
  /\ triggerFetches (snd r) = triggerFetches w
  /\ pollFetches (snd r) = pollFetches w
  /\ (forall result, fst r = Ok result -> result = mkCycleResult 0 0 0).
Proof.
  exact (stop_signal_halts_dispatch (sampleEnv 2 dbUp stillRunning) "camp-1"
           false (withShouldStop true mixedWorld) eq_refl).
Defined.

(** ** Access rules and the worker's control route *)

(** X19: the permissions of the three roles are nested: whatever a
    VIEWER may do an OPERATOR may do, and whatever an OPERATOR may do an
    ADMIN may do; operating is open to every role but VIEWER, managing
    users to ADMIN alone, and a permission outside the table is granted
    to nobody. *)
Theorem role_permissions_nested :
  (forall permission,
      Auth.hasPermission Auth.VIEWER permission = true ->
      Auth.hasPermission Auth.OPERATOR permission = true)
  /\ (forall permission,
        Auth.hasPermission Auth.OPERATOR permission = true ->
        Auth.hasPermission Auth.ADMIN permission = true)
  /\ (forall role, Auth.canOperate role = true <-> role <> Auth.VIEWER)
  /\ (forall role, Auth.canManageUsers role = true <-> role = Auth.ADMIN)
  /\ (forall role permission,
        ~ In permission
            ["view"; "operate"; "manage_users"; "manage_settings"] ->
        Auth.hasPermission role permission = false).
Proof.
  unfold Auth.hasPermission.
  split; [|split; [|split; [|split]]].
  - intros permission H. cbn [Auth.ROLE_PERMISSIONS existsb] in *.
    apply orb_true_iff in H as [H|H]; [|discriminate]. now rewrite H.
  - intros permission H. cbn [Auth.ROLE_PERMISSIONS existsb] in *.
    apply orb_true_iff in H as [H|H]; [now rewrite H|].
    apply orb_true_iff in H as [H|H]; [|discriminate].
    rewrite H. now rewrite orb_true_r.
  - intros [ | | ]; split; intros H; try reflexivity; try discriminate.
    now contradiction H.
  - intros [ | | ]; split; intros H; try reflexivity; try discriminate.
  - intros role permission Hout.
    apply not_true_is_false. intros H. apply Hout.
    apply existsb_exists in H as [p [Hin Heq]].
    apply String.eqb_eq in Heq. subst p.
    destruct role; cbn [Auth.ROLE_PERMISSIONS In] in *; tauto.
Qed.

(** X20: the three guards.  Without a session each answers 401; with a
    session [requireAuth] lets the user through, [requireOperator]
    answers 403 to a VIEWER and lets the other roles through, and
    [requireAdmin] answers 403 to every role but ADMIN; so whoever passes
    [requireAdmin] passes [requireOperator], and whoever passes
    [requireOperator] passes [requireAuth]. *)
Theorem guards_by_role (session : option AuthApi.User) :
  match session with
  | None =>
      (exists r, AuthApi.requireAuth session = AuthApi.Unauthenticated r
                 /\ httpStatus r = 401)
      /\ (exists r, AuthApi.requireOperator session
                    = AuthApi.Unauthenticated r /\ httpStatus r = 401)
      /\ (exists r, AuthApi.requireAdmin session
                    = AuthApi.Unauthenticated r /\ httpStatus r = 401)
  | Some user =>
      let known :=
        AuthApi.mkUser (AuthApi.userId user) (AuthApi.email user)
          (AuthApi.role user) in
      AuthApi.requireAuth session = AuthApi.Authenticated known
      /\ match AuthApi.role user with
         | Auth.ADMIN =>
             AuthApi.requireOperator session = AuthApi.Authenticated known
             /\ AuthApi.requireAdmin session = AuthApi.Authenticated known
         | Auth.OPERATOR =>
             AuthApi.requireOperator session = AuthApi.Authenticated known
             /\ exists r, AuthApi.requireAdmin session
                          = AuthApi.Unauthenticated r /\ httpStatus r = 403
         | Auth.VIEWER =>
             (exists r, AuthApi.requireOperator session
                        = AuthApi.Unauthenticated r /\ httpStatus r = 403)
             /\ exists r, AuthApi.requireAdmin session
                          = AuthApi.Unauthenticated r /\ httpStatus r = 403
         end
  end.
Proof.
  destruct session as [[id mail [ | | ]]|]; cbn;
    repeat split; eauto.
Qed.

(** X21: the worker's control route.  POST and DELETE leave the world as
    it is and answer 401 or 403 unless the session belongs to an ADMIN or
    an OPERATOR, in which case they answer 200 and do what [startWorker]
    and [stopWorker] do; GET answers 200 to every signed-in user, reports
    "running" or "idle", and never changes the world; no handler raises,
    so POST never takes its fallback answer 500. *)
Theorem worker_route_access (session : option AuthApi.User) (w : World) :
  (forall r, AuthApi.requireOperator session = AuthApi.Unauthenticated r ->
             WorkerRoute.POST session w = (Ok r, w)
             /\ WorkerRoute.DELETE session w = (Ok r, w)
             /\ (httpStatus r = 401 \/ httpStatus r = 403))
  /\ (forall user,
        AuthApi.requireOperator session = AuthApi.Authenticated user ->
        exists started stopping,
          WorkerRoute.POST session w = (Ok started, snd (startWorker w))
          /\ httpStatus started = 200
          /\ WorkerRoute.DELETE session w = (Ok stopping, snd (stopWorker w))
          /\ httpStatus stopping = 200)
  /\ (exists r, WorkerRoute.GET session w = (Ok r, w)
                /\ match session with
                   | None => httpStatus r = 401
                   | Some _ =>
                       r = mkResponse 200
                             (WorkerState
                                (if isRunning w then "running" else "idle")
                                (isRunning w) (stats w))
                   end).
Proof.
  split; [|split].
  - intros r Hguard. unfold WorkerRoute.POST, WorkerRoute.DELETE.
    rewrite Hguard. repeat split.
    destruct session as [[id mail [ | | ]]|]; cbn in Hguard;
      try discriminate; injection Hguard as <-; cbn; auto.
  - intros user Hguard. unfold WorkerRoute.POST, WorkerRoute.DELETE.
    rewrite Hguard. unfold tryCatch, bind, startWorker, stopWorker, gets,
      modify, ret, bind.
    destruct (isRunning w); cbn; do 2 eexists; repeat split.
  - unfold WorkerRoute.GET.
    destruct session as [user|]; cbn; eexists; split; reflexivity.
Qed.

(** X22: the worker's public API under composition.  A stop signal
    followed by a start, with the worker still running in between, does
    not restart the worker: the start is refused as "already running",
    the signal stays set, and the loop ends at its next check, leaving no
    worker behind.  On an idle worker the same two calls start it with the
    signal cleared, and a stop alone changes nothing. *)
Theorem stop_then_start_leaves_no_worker (w : World) :
  let r := (stopWorker ;; startWorker)%worker w in
  (isRunning w = true ->
   r = (Ok (false, "Worker is already running"), withShouldStop true w)
   /\ forall (E : Env) (fuel : nat) (campaign : Campaign.t),
        runLoop E fuel campaign (snd r)
        = (Ok Finished, withShouldStop false (withIsRunning false w)))
  /\ (isRunning w = false ->
      stopWorker w = (Ok (true, "Worker is not running"), w)
      /\ r = (Ok (true, "Worker started"),
              withShouldStop false (withIsRunning true w))).
Proof.
  cbn zeta. unfold stopWorker, startWorker, bind, gets, modify, ret.
  split; intros Hrun; rewrite Hrun; cbn [negb isRunning withShouldStop].
  - rewrite Hrun. split; [reflexivity|].
    intros E fuel campaign. cbn [snd].
    unfold runLoop, bind. destruct fuel; reflexivity.
  - rewrite Hrun. split; reflexivity.
Qed.

Lemma stop_then_start_leaves_no_worker_witness :
  (stopWorker ;; startWorker)%worker busyWorld
  = (Ok (false, "Worker is already running"), withShouldStop true busyWorld)
  /\ forall (E : Env) (fuel : nat) (campaign : Campaign.t),
       runLoop E fuel campaign
         (snd ((stopWorker ;; startWorker)%worker busyWorld))
       = (Ok Finished, withShouldStop false (withIsRunning false busyWorld)).
Proof.
  exact (proj1 (stop_then_start_leaves_no_worker busyWorld) eq_refl).
Defined.

(** ** The campaign routes that start the worker *)

Section CampaignHandlers.

Variable E : Env.

Import CampaignRoutes.

Lemma query_run {A : Type} (run : M A) (w : World) :
  dbFails E (ticks w) = false -> query E run w = run (elapsed w).
Proof. intros Hdb. unfold query. now rewrite Hdb. Qed.

Lemma tryCatch_ok {A : Type} (m : M A) (h : string -> M A) (w w' : World)
    (a : A) :
  m w = (Ok a, w') -> tryCatch m h w = (Ok a, w').
Proof. intros H. unfold tryCatch. now rewrite H. Qed.

Lemma findFirstActive_run (w : World) :
  dbFails E (ticks w) = false ->
  findFirstActive E w
  = (Ok (find Campaign.isActive (campaigns w)), elapsed w).
Proof. intros Hdb. unfold findFirstActive. now rewrite query_run. Qed.

Lemma findUnique_run (id : string) (w : World) :
  dbFails E (ticks w) = false ->
  findUnique E id w = (Ok (findCampaign id (campaigns w)), elapsed w).
Proof. intros Hdb. unfold findUnique. now rewrite query_run. Qed.

Lemma countOpenCalls_run (campaignId : string) (w : World) :
  dbFails E (ticks w) = false ->
  countOpenCalls E campaignId w
  = (Ok (countCalls campaignId CallStatus.PENDING (calls w),
         countCalls campaignId CallStatus.RUNNING (calls w)), elapsed w).
Proof. intros Hdb. unfold countOpenCalls. now rewrite query_run. Qed.

Lemma update_run (id : string) (f : Campaign.t -> Campaign.t) (w : World)
    (cs : list Campaign.t) :
  dbFails E (ticks w) = false ->
  updateCampaignById id f (campaigns w) = Some cs ->
  update E id f w = (Ok tt, withCampaigns cs (elapsed w)).
Proof.
  intros Hdb Hu. unfold update. rewrite query_run by exact Hdb.
  cbn [elapsed campaigns]. now rewrite Hu.
Qed.

(** X23: the start route.  A request that is not an operator's changes
    nothing.  An operator's request with no active campaign, or with an
    active campaign that has nothing PENDING and nothing RUNNING, is
    answered 400 and neither touches the campaign nor starts the worker;
    otherwise the campaign is resumed (not paused, status ACTIVE, its
    start time kept when it has one and set to the time of the request
    when it has none), the worker is started, and the answer is 200. *)
Theorem start_route_resumes_campaign (session : option AuthApi.User)
    (w : World) :
  (forall r, AuthApi.requireOperator session = AuthApi.Unauthenticated r ->
             start E session w = (Ok r, w))
  /\ (forall user,
        AuthApi.requireOperator session = AuthApi.Authenticated user ->
        dbFails E (ticks w) = false ->
        dbFails E (S (ticks w)) = false ->
        dbFails E (S (S (ticks w))) = false ->
        match find Campaign.isActive (campaigns w) with
        | None =>
            exists r, start E session w = (Ok r, elapsed w)
                      /\ httpStatus r = 400
        | Some campaign =>
            let open :=
              (countCalls (Campaign.id campaign) CallStatus.PENDING (calls w),
               countCalls (Campaign.id campaign) CallStatus.RUNNING (calls w))
            in
            if (fst open =? 0) && (snd open =? 0) then
              exists r, start E session w = (Ok r, elapsed (elapsed w))
                        /\ httpStatus r = 400
            else
              findCampaign (Campaign.id campaign) (campaigns w)
              = Some campaign ->
              exists r w',
                start E session w = (Ok r, w')
                /\ httpStatus r = 200
                /\ findCampaign (Campaign.id campaign) (campaigns w')
                   = Some (resumed
                             (match Campaign.startedAt campaign with
                              | Some s => s
                              | None => clock E (S (S (ticks w)))
                              end) campaign)
                /\ calls w' = calls w
                /\ isRunning w' = true
                /\ (isRunning w = false -> shouldStop w' = false)
        end).
Proof.
  split.
  - intros r Hguard. unfold start. now rewrite Hguard.
  - intros user Hguard Hdb0 Hdb1 Hdb2. unfold start. rewrite Hguard.
    destruct (find Campaign.isActive (campaigns w)) as [campaign|] eqn:Hact.
    + cbn zeta. cbn [fst snd].
      destruct ((countCalls (Campaign.id campaign) CallStatus.PENDING
                   (calls w) =? 0)
                && (countCalls (Campaign.id campaign) CallStatus.RUNNING
                      (calls w) =? 0)) eqn:Hidle.
      * exists (mkResponse 400
                  (messageBody "No calls to process in this campaign.")).
        split; [|reflexivity]. apply tryCatch_ok.
        rewrite (bind_ok _ _ _ _ _ (findFirstActive_run w Hdb0)), Hact.
        rewrite (bind_ok _ _ _ _ _
                   (countOpenCalls_run _ (elapsed w) Hdb1)).
        cbn [fst snd elapsed calls]. rewrite Hidle. reflexivity.
      * intros Hrow.
        set (startedAt := match Campaign.startedAt campaign with
                          | Some s => s
                          | None => clock E (S (S (ticks w)))
                          end).
        destruct (updateCampaignById_found (Campaign.id campaign)
                    (resumed startedAt) (fun c => eq_refl) _ _ Hrow)
          as [cs [Hu Hf]].
        exists (mkResponse 200
                  (Body (JObj
                     [ ("success", JBool true);
                       ("message", JStr "Campaign started");
                       ("campaignId", JStr (Campaign.id campaign));
                       ("campaignName", JStr (Campaign.name campaign));
                       ("pendingCalls",
                        JNum (countCalls (Campaign.id campaign)
                                CallStatus.PENDING (calls w)));
                       ("runningCalls",
                        JNum (countCalls (Campaign.id campaign)
                                CallStatus.RUNNING (calls w))) ]))).
        exists (snd (startWorker
                       (withCampaigns cs (elapsed (elapsed (elapsed w)))))).
        split.
        -- apply tryCatch_ok.
           rewrite (bind_ok _ _ _ _ _ (findFirstActive_run w Hdb0)), Hact.
           rewrite (bind_ok _ _ _ _ _
                      (countOpenCalls_run _ (elapsed w) Hdb1)).
           cbn [fst snd elapsed calls]. rewrite Hidle.
           unfold bind at 1, gets at 1. cbn [ticks elapsed]. fold startedAt.
           rewrite (bind_ok _ _ _ _ _
                      (update_run _ _ (elapsed (elapsed w)) cs Hdb2 Hu)).
           unfold startWorker, bind, gets, modify, ret.
           cbn [isRunning withCampaigns elapsed].
           destruct (isRunning w); reflexivity.
        -- unfold startWorker, bind, gets, modify, ret.
           cbn [isRunning withCampaigns elapsed].
           destruct (isRunning w) eqn:Hrun; cbn; rewrite ?Hrun;
             repeat split; trivial; discriminate.
    + exists (mkResponse 400
                (messageBody
                   "No active campaign. Please upload a CSV first.")).
      split; [|reflexivity]. apply tryCatch_ok.
      rewrite (bind_ok _ _ _ _ _ (findFirstActive_run w Hdb0)), Hact.
      reflexivity.
Qed.

Lemma updateCampaignById_split (id : string) (f : Campaign.t -> Campaign.t) :
  forall cs cs',
    updateCampaignById id f cs = Some cs' ->
    exists before row after,
      cs = (before ++ row :: after)%list
      /\ cs' = (before ++ f row :: after)%list
      /\ Campaign.id row = id
      /\ findCampaign id cs = Some row.
Proof.
  unfold findCampaign.
  induction cs as [|c cs IH]; intros cs' Hu; [discriminate|].
  cbn in Hu |- *. destruct (String.eqb (Campaign.id c) id) eqn:Hc.
  - injection Hu as <-. exists [], c, cs. apply String.eqb_eq in Hc.
    repeat split; trivial.
  - destruct (updateCampaignById id f cs) as [rest|]; [|discriminate].
    injection Hu as <-.
    destruct (IH rest eq_refl) as [before [row [after [H1 [H2 [H3 H4]]]]]].
    exists (c :: before), row, after. subst. repeat split; trivial.
Qed.

Lemma findCampaign_map (id : string) (f : Campaign.t -> Campaign.t)
    (cs : list Campaign.t) :
  (forall c, Campaign.id (f c) = Campaign.id c) ->
  findCampaign id (map f cs) = option_map f (findCampaign id cs).
Proof.
  intros Hid. unfold findCampaign.
  induction cs as [|c cs IH]; [reflexivity|].
  cbn [map find]. rewrite Hid. now destruct (String.eqb (Campaign.id c) id).
Qed.

Lemma deactivated_id (c : Campaign.t) :
  Campaign.id (deactivated c) = Campaign.id c.
Proof. unfold deactivated. now destruct (Campaign.isActive c). Qed.

Lemma deactivated_inactive (c : Campaign.t) :
  Campaign.isActive (deactivated c) = false.
Proof. unfold deactivated. now destruct (Campaign.isActive c) eqn:H. Qed.

Lemma find_first_active (before after : list Campaign.t) (row : Campaign.t) :
  (forall c, In c before -> Campaign.isActive c = false) ->
  Campaign.isActive row = true ->
  find Campaign.isActive (before ++ row :: after) = Some row.
Proof.
  intros Hbefore Hrow. induction before as [|c before IH]; cbn.
  - now rewrite Hrow.
  - rewrite (Hbefore c (or_introl eq_refl)). apply IH.
    intros c' Hin. apply Hbefore. now right.
Qed.

(** X24: the activate action makes the chosen campaign the only active
    one.  For an operator, an existing campaign and a working database it
    answers 200; afterwards, identifiers being distinct, a campaign is
    active exactly when it is the chosen one, which is then what the
    worker's lookup of the active campaign finds, unpaused and with status
    ACTIVE; no call is touched.  The worker is started when it was idle;
    when it was running, it is told to stop and the start is refused, so
    the answer reports [workerStarted: false] and the stop signal stays
    set. *)
Theorem activate_is_exclusive (session : option AuthApi.User)
    (user : AuthApi.User) (id : string) (campaign : Campaign.t) (w : World) :
  AuthApi.requireOperator session = AuthApi.Authenticated user ->
  findCampaign id (campaigns w) = Some campaign ->
  NoDup (map Campaign.id (campaigns w)) ->
  dbFails E (ticks w) = false ->
  dbFails E (S (ticks w)) = false ->
  dbFails E (S (S (ticks w))) = false ->
  exists w',
    act E session id (Some "activate") w
    = (Ok (mkResponse 200
             (Body (JObj
                [ ("success", JBool true);
                  ("message", JStr (campaignMessage campaign "activated"));
                  ("workerStarted", JBool (negb (isRunning w))) ]))),
       w')
    /\ map Campaign.id (campaigns w') = map Campaign.id (campaigns w)
    /\ (forall c, In c (campaigns w') ->
                  (Campaign.isActive c = true <-> Campaign.id c = id))
    /\ find Campaign.isActive (campaigns w') = Some (activated campaign)
    /\ calls w' = calls w
    /\ isRunning w' = true
    /\ shouldStop w' = isRunning w.
Proof.
  intros Hguard Hrow Hnd Hdb0 Hdb1 Hdb2.
  assert (Hrow1 : findCampaign id (map deactivated (campaigns w))
                  = Some (deactivated campaign)).
  { rewrite (findCampaign_map id deactivated _ deactivated_id), Hrow.
    reflexivity. }
  destruct (updateCampaignById_found id activated (fun c => eq_refl) _ _ Hrow1)
    as [cs [Hu Hf]].
  destruct (updateCampaignById_split id activated _ _ Hu)
    as [before [row [after [Hcs1 [Hcs [Hid Hfirst]]]]]].
  assert (Hsame : row = deactivated campaign) by congruence.
  assert (Hactivated : activated row = activated campaign).
  { subst row. unfold activated, deactivated.
    now destruct (Campaign.isActive campaign). }
  assert (Hinactive : forall c,
             In c (before ++ after)%list -> Campaign.isActive c = false).
  { intros c Hin.
    assert (Hin1 : In c (map deactivated (campaigns w))).
    { rewrite Hcs1. apply in_app_iff. apply in_app_iff in Hin.
      destruct Hin; [left | right; right]; assumption. }
    apply in_map_iff in Hin1 as [c0 [<- _]]. apply deactivated_inactive. }
  assert (Hids : map Campaign.id cs = map Campaign.id (campaigns w)).
  { transitivity (map Campaign.id (map deactivated (campaigns w))).
    - rewrite Hcs, Hcs1, !map_app. reflexivity.
    - rewrite map_map. apply map_ext. apply deactivated_id. }
  assert (Hothers : forall c,
             In c (before ++ after)%list -> Campaign.id c <> id).
  { intros c Hin Hc.
    assert (Hnd1 : NoDup (map Campaign.id (before ++ row :: after))).
    { rewrite <- Hcs1, map_map.
      erewrite map_ext; [exact Hnd|]. apply deactivated_id. }
    rewrite map_app in Hnd1. cbn [map] in Hnd1.
    apply NoDup_remove_2 in Hnd1. apply Hnd1.
    rewrite <- map_app, Hid, <- Hc. now apply in_map. }
  exists (snd (startWorker
                 (withCampaigns cs
                    (elapsed (elapsed (elapsed
                       (snd (stopWorker w)))))))).
  split.
  - unfold act. rewrite Hguard. apply tryCatch_ok.
    rewrite (bind_ok _ _ _ _ _ (findUnique_run id w Hdb0)), Hrow.
    cbn zeta. rewrite String.eqb_refl.
    unfold bind at 1.
    assert (Hstop : stopWorker (elapsed w)
                    = (fst (stopWorker (elapsed w)),
                       elapsed (snd (stopWorker w)))).
    { unfold stopWorker, bind, gets, modify, ret.
      cbn [isRunning elapsed]. now destruct (isRunning w). }
    rewrite Hstop.
    assert (Hfst : exists result, fst (stopWorker (elapsed w)) = Ok result).
    { unfold stopWorker, bind, gets, modify, ret.
      destruct (isRunning (elapsed w)); eexists; reflexivity. }
    destruct Hfst as [result ->].
    assert (Hticks : ticks (snd (stopWorker w)) = ticks w).
    { unfold stopWorker, bind, gets, modify, ret.
      now destruct (isRunning w). }
    assert (Hcampaigns : campaigns (snd (stopWorker w)) = campaigns w).
    { unfold stopWorker, bind, gets, modify, ret.
      now destruct (isRunning w). }
    set (w1 := snd (stopWorker w)) in *.
    unfold bind at 1, deactivateAll.
    rewrite query_run by (cbn [elapsed ticks]; now rewrite Hticks).
    unfold modify at 1.
    assert (Hupdate :
      update E id activated
        (withCampaigns (map deactivated (campaigns (elapsed (elapsed w1))))
           (elapsed (elapsed w1)))
      = (Ok tt, withCampaigns cs (elapsed (elapsed (elapsed w1))))).
    { rewrite (update_run id activated _ cs); [reflexivity| |].
      - cbn [withCampaigns elapsed ticks]. now rewrite Hticks.
      - cbn [withCampaigns elapsed campaigns]. now rewrite Hcampaigns. }
    rewrite (bind_ok _ _ _ _ _ Hupdate).
    unfold bind at 1.
    assert (Hstart :
      fst (startWorker (withCampaigns cs (elapsed (elapsed (elapsed w1)))))
      = Ok (negb (isRunning w),
            if isRunning w then "Worker is already running"
            else "Worker started")).
    { subst w1. unfold startWorker, stopWorker, bind, gets, modify, ret.
      destruct (isRunning w) eqn:Hrun; cbn; rewrite ?Hrun; reflexivity. }
    destruct (startWorker (withCampaigns cs (elapsed (elapsed (elapsed w1)))))
      as [started w'] eqn:Hs.
    cbn [fst snd] in Hstart |- *. subst started. reflexivity.
  - assert (Hw' : forall w0,
               campaigns (snd (startWorker (withCampaigns cs w0))) = cs).
    { intros w0. unfold startWorker, bind, gets, modify, ret.
      now destruct (isRunning (withCampaigns cs w0)). }
    rewrite Hw'. split; [exact Hids|]. split; [|split].
    + intros c Hin. rewrite Hcs in Hin. apply in_app_iff in Hin.
      destruct Hin as [Hin|[<-|Hin]].
      * assert (Hc : In c (before ++ after)%list)
          by (apply in_app_iff; now left).
        rewrite (Hinactive c Hc). split; [discriminate|].
        intros Hc'. now apply Hothers in Hc.
      * split; [intros _; exact Hid | reflexivity].
      * assert (Hc : In c (before ++ after)%list)
          by (apply in_app_iff; now right).
        rewrite (Hinactive c Hc). split; [discriminate|].
        intros Hc'. now apply Hothers in Hc.
    + rewrite Hcs, <- Hactivated. apply find_first_active; [|reflexivity].
      intros c Hin. apply Hinactive. apply in_app_iff. now left.
    + unfold startWorker, stopWorker, bind, gets, modify, ret.
      destruct (isRunning w) eqn:Hrun; cbn; rewrite ?Hrun; cbn;
        repeat split; trivial.
Qed.

End CampaignHandlers.

Lemma activate_is_exclusive_witness :
  let env := sampleEnv 2 dbUp stillRunning in
  NoDup (map Campaign.id (campaigns twoCampaignWorld))
  /\ exists w',
       CampaignRoutes.act env (Some operatorUser) "camp-2" (Some "activate")
         twoCampaignWorld
       = (Ok (mkResponse 200
                (Body (JObj
                   [ ("success", JBool true);
                     ("message",
                      JStr (CampaignRoutes.campaignMessage spareCampaign
                              "activated"));
                     ("workerStarted",
                      JBool (negb (isRunning twoCampaignWorld))) ]))),
          w')
       /\ map Campaign.id (campaigns w')
          = map Campaign.id (campaigns twoCampaignWorld)
       /\ (forall c, In c (campaigns w') ->
                     (Campaign.isActive c = true <-> Campaign.id c = "camp-2"))
       /\ find Campaign.isActive (campaigns w')
          = Some (CampaignRoutes.activated spareCampaign)
       /\ calls w' = calls twoCampaignWorld
       /\ isRunning w' = true
       /\ shouldStop w' = isRunning twoCampaignWorld.
Proof.
  cbn zeta.
  assert (Hnd : NoDup (map Campaign.id (campaigns twoCampaignWorld))).
  { repeat constructor; cbn; intros H;
      repeat (destruct H as [H|H]; [discriminate H|]); exact H. }
  split; [exact Hnd|].
  exact (activate_is_exclusive (sampleEnv 2 dbUp stillRunning)
           (Some operatorUser) operatorUser "camp-2" spareCampaign
           twoCampaignWorld eq_refl eq_refl Hnd eq_refl eq_refl eq_refl).
Defined.

Example start_route_on_backlog :
  let env := sampleEnv 2 dbUp stillRunning in
  let w := withIsRunning false pausedBacklogWorld in
  let r := CampaignRoutes.start env (Some operatorUser) w in
  option_map httpStatus
    (match fst r with Ok response => Some response | Throw _ => None end)
  = Some 200
  /\ map Campaign.isQueuePaused (campaigns (snd r)) = [false]
  /\ map Campaign.status (campaigns (snd r)) = ["ACTIVE"]
  /\ isRunning (snd r) = true.
Proof. repeat split. Qed.

Example start_route_refuses_settled_campaign :
  let env := sampleEnv 2 dbUp stillRunning in
  let w := withIsRunning false pausedSettledWorld in
  let r := CampaignRoutes.start env (Some operatorUser) w in
  option_map httpStatus
    (match fst r with Ok response => Some response | Throw _ => None end)
  = Some 400
  /\ campaigns (snd r) = campaigns w
  /\ isRunning (snd r) = false.
Proof. repeat split. Qed.

(** ** The CSV reader of the upload route *)

Lemma append_empty_r (s : string) : s ++ "" = s.
Proof. induction s as [|c s IH]; cbn; [reflexivity | now rewrite IH]. Qed.

Lemma append_assoc (a b c : string) : (a ++ b) ++ c = a ++ (b ++ c).
Proof. induction a as [|x a IH]; cbn; [reflexivity | now rewrite IH]. Qed.

Lemma joinWith_cons (sep p q : string) (parts : list string) :
  Json.joinWith sep (p :: q :: parts)
  = p ++ sep ++ Json.joinWith sep (q :: parts).
Proof. reflexivity. Qed.

Lemma joinWith_last_two (sep a b : string) (parts : list string) :
  Json.joinWith sep (parts ++ [a; b])
  = Json.joinWith sep (parts ++ [a ++ sep ++ b]).
Proof.
  induction parts as [|p parts IH]; [reflexivity|].
  cbn [app]. destruct parts as [|q parts]; [reflexivity|].
  cbn [app] in IH |- *. now rewrite !joinWith_cons, IH.
Qed.

Lemma parseFrom_unquoted (line : string) :
  hasQuote line = false ->
  forall current result,
    Json.joinWith "," (Csv.parseFrom line false current result)
    = Json.joinWith "," (result ++ [current ++ line]).
Proof.
  induction line as [|c rest IH]; intros Hq current result.
  - cbn [Csv.parseFrom]. now rewrite append_empty_r.
  - cbn [hasQuote] in Hq. apply orb_false_iff in Hq as [Hc Hrest].
    cbn [Csv.parseFrom]. rewrite Hc. cbn [negb andb].
    rewrite andb_true_r.
    destruct (Csv.isComma c) eqn:Hcomma.
    + rewrite (IH Hrest). rewrite <- app_assoc. cbn [app append].
      rewrite joinWith_last_two.
      unfold Csv.isComma in Hcomma. apply Ascii.eqb_eq in Hcomma.
      subst c. reflexivity.
    + rewrite (IH Hrest). rewrite append_assoc. reflexivity.
Qed.

(** X25: on a line without double quotes the reader splits at the
    commas and loses nothing: joining the fields it returns with commas
    gives the line back, and it always returns at least one field. *)
Theorem parseCSVLine_unquoted_join (line : string) :
  hasQuote line = false ->
  Json.joinWith "," (Csv.parseCSVLine line) = line
  /\ Csv.parseCSVLine line <> [].
Proof.
  intros Hq. split.
  - unfold Csv.parseCSVLine. now rewrite (parseFrom_unquoted line Hq).
  - unfold Csv.parseCSVLine. generalize (@nil string) at 1.
    generalize EmptyString. generalize false.
    induction line as [|c rest IH]; intros inQuotes current result.
    + cbn. now destruct result.
    + cbn [hasQuote] in Hq. apply orb_false_iff in Hq as [Hc Hrest].
      cbn [Csv.parseFrom]. rewrite Hc.
      destruct (Csv.isComma c && negb inQuotes); now apply IH.
Qed.

Lemma parseCSVLine_unquoted_join_witness :
  Json.joinWith "," (Csv.parseCSVLine "Acme,,+1 555 0100, 42.50") 
  = "Acme,,+1 555 0100, 42.50"
  /\ Csv.parseCSVLine "Acme,,+1 555 0100, 42.50" <> [].
Proof.
  exact (parseCSVLine_unquoted_join "Acme,,+1 555 0100, 42.50" eq_refl).
Defined.

Lemma parseFrom_quoted_field (field : string) :
  forall tail current result,
    match tail with
    | EmptyString => True
    | String next _ => Csv.isQuote next = false
    end ->
    Csv.parseFrom (escapeQuotes field ++ String doubleQuote tail) true
      current result
    = Csv.parseFrom tail false (current ++ field) result.
Proof.
  induction field as [|c field IH]; intros tail current result Htail.
  - cbn [escapeQuotes append Csv.parseFrom].
    replace (Csv.isQuote doubleQuote) with true by reflexivity.
    rewrite append_empty_r.
    destruct tail as [|next tail']; [reflexivity|].
    rewrite Htail. reflexivity.
  - cbn [escapeQuotes]. destruct (Csv.isQuote c) eqn:Hc.
    + cbn [append Csv.parseFrom].
      replace (Csv.isQuote doubleQuote) with true by reflexivity.
      cbn [andb]. rewrite (IH tail _ result Htail).
      rewrite append_assoc. unfold Csv.isQuote in Hc.
      apply Ascii.eqb_eq in Hc. subst c. reflexivity.
    + cbn [append Csv.parseFrom]. rewrite Hc. cbn [negb andb].
      rewrite andb_false_r. rewrite (IH tail _ result Htail).
      now rewrite append_assoc.
Qed.

Lemma parseFrom_quoted_line (fields : list string) :
  forall field result,
    Csv.parseFrom (quotedLine (field :: fields)) false EmptyString result
    = (result ++ field :: fields)%list.
Proof.
  induction fields as [|next fields IH]; intros field result.
  - unfold quotedLine. cbn [map Json.joinWith]. unfold quoteField.
    cbn [Csv.parseFrom].
    replace (Csv.isQuote doubleQuote) with true by reflexivity.
    cbn [andb negb].
    assert (Hopen : forall body,
               match body ++ String doubleQuote EmptyString with
               | String _ _ =>
                   Csv.parseFrom (body ++ String doubleQuote EmptyString)
                     true EmptyString result
               | EmptyString =>
                   Csv.parseFrom (body ++ String doubleQuote EmptyString)
                     true EmptyString result
               end
               = Csv.parseFrom (body ++ String doubleQuote EmptyString) true
                   EmptyString result).
    { intros body. now destruct (body ++ String doubleQuote EmptyString). }
    rewrite Hopen. rewrite parseFrom_quoted_field by exact I. reflexivity.
  - unfold quotedLine. cbn [map].
    rewrite joinWith_cons.
    change (quoteField next :: map quoteField fields)
      with (map quoteField (next :: fields)).
    fold (quotedLine (next :: fields)).
    unfold quoteField at 1. cbn [append Csv.parseFrom].
    replace (Csv.isQuote doubleQuote) with true by reflexivity.
    cbn [andb negb]. rewrite append_assoc. cbn [append].
    assert (Hopen : forall body : string,
               match body with
               | String _ _ => Csv.parseFrom body true EmptyString result
               | EmptyString => Csv.parseFrom body true EmptyString result
               end
               = Csv.parseFrom body true EmptyString result).
    { intros body. now destruct body. }
    rewrite Hopen. rewrite parseFrom_quoted_field by reflexivity.
    cbn [append Csv.parseFrom].
    replace (Csv.isQuote ","%char) with false by reflexivity.
    replace (Csv.isComma ","%char) with true by reflexivity.
    cbn [andb negb]. rewrite IH. now rewrite <- app_assoc.
Qed.

(** X26: the reader undoes the quoting of a CSV writer: a line made of
    fields put between double quotes, with the double quotes inside them
    doubled, and separated by commas, is read back as exactly those
    fields, whatever commas, quotes and spaces they hold. *)
Theorem parseCSVLine_reads_quoted_fields (fields : list string) :
  fields <> [] ->
  Csv.parseCSVLine (quotedLine fields) = fields.
Proof.
  destruct fields as [|field fields]; [contradiction|]. intros _.
  unfold Csv.parseCSVLine. now rewrite parseFrom_quoted_line.
Qed.

Lemma parseCSVLine_reads_quoted_fields_witness :
  let nickname := "Bob " ++ String doubleQuote ("Bobtail" ++ String doubleQuote "") in
  [ "Acme, Inc."; nickname; "" ] <> []
  /\ Csv.parseCSVLine (quotedLine [ "Acme, Inc."; nickname; "" ])
     = [ "Acme, Inc."; nickname; "" ].
Proof.
  cbn zeta.
  assert (Hfields :
    [ "Acme, Inc.";
      "Bob " ++ String doubleQuote ("Bobtail" ++ String doubleQuote "");
      "" ] <> []) by discriminate.
  split; [exact Hfields|].
  exact (parseCSVLine_reads_quoted_fields _ Hfields).
Defined.

Lemma keepDialable_dialable (phone : string) :
  dialable (Csv.keepDialable phone) = true.
Proof.
  induction phone as [|c rest IH]; [reflexivity|].
  cbn [Csv.keepDialable].
  destruct (Csv.isDigit c || Csv.isPlus c) eqn:Hc; [|exact IH].
  cbn [dialable]. now rewrite Hc, IH.
Qed.

Lemma keepDialable_fixed (phone : string) :
  dialable phone = true -> Csv.keepDialable phone = phone.
Proof.
  induction phone as [|c rest IH]; [reflexivity|].
  cbn [dialable Csv.keepDialable]. intros H.
  apply andb_true_iff in H as [Hc Hrest]. now rewrite Hc, IH.
Qed.

Lemma keepDialable_length (phone : string) :
  (String.length (Csv.keepDialable phone) <= String.length phone)%nat.
Proof.
  induction phone as [|c rest IH]; [reflexivity|].
  cbn [Csv.keepDialable].
  destruct (Csv.isDigit c || Csv.isPlus c); cbn [String.length]; lia.
Qed.

Lemma formatPhone_keeps (phone : string) :
  Csv.formatPhone phone = Csv.keepDialable phone.
Proof.
  unfold Csv.formatPhone. cbn zeta.
  now destruct (Csv.keepDialable phone).
Qed.

(** X27: [formatPhone] returns digits and plus signs only and never
    lengthens its input; a number that already consists of digits and
    plus signs comes back unchanged, so formatting twice is formatting
    once; and the result is the empty string exactly when the input
    holds no digit and no plus sign. *)
Theorem formatPhone_dialable (phone : string) :
  dialable (Csv.formatPhone phone) = true
  /\ (String.length (Csv.formatPhone phone) <= String.length phone)%nat
  /\ (dialable phone = true -> Csv.formatPhone phone = phone)
  /\ Csv.formatPhone (Csv.formatPhone phone) = Csv.formatPhone phone
  /\ (Csv.formatPhone phone = ""
      <-> forall c, occurrences c phone <> O ->
                    Csv.isDigit c || Csv.isPlus c = false).
Proof.
  rewrite !formatPhone_keeps.
  split; [apply keepDialable_dialable|].
  split; [apply keepDialable_length|].
  split; [apply keepDialable_fixed|].
  split; [apply keepDialable_fixed, keepDialable_dialable|].
  induction phone as [|a rest IH].
  - split; [|reflexivity]. intros _ c Hc. now contradiction Hc.
  - cbn [Csv.keepDialable occurrences].
    destruct (Csv.isDigit a || Csv.isPlus a) eqn:Ha.
    + split; [discriminate|]. intros H. specialize (H a).
      rewrite Ascii.eqb_refl in H. rewrite H in Ha; [discriminate|].
      discriminate.
    + rewrite IH. split.
      * intros H c Hc. destruct (Ascii.eqb a c) eqn:Hac.
        -- apply Ascii.eqb_eq in Hac. now subst c.
        -- apply H. exact Hc.
      * intros H c Hc. apply H. destruct (Ascii.eqb a c); [discriminate|].
        exact Hc.
Qed.

Example formatPhone_example :
  Csv.formatPhone "+1 (555) 010-0199 ext" = "+15550100199"
  /\ Csv.formatPhone "n/a" = "".
Proof. split; reflexivity. Qed.

(** ** The database URL *)

Lemma occurrences_append (c : ascii) (a b : string) :
  occurrences c (a ++ b) = (occurrences c a + occurrences c b)%nat.
Proof.
  induction a as [|x a IH]; cbn [append occurrences]; [reflexivity|].
  rewrite IH. lia.
Qed.

Lemma includes_char (c : ascii) (s : string) :
  Js.includes s (String c EmptyString) = negb (occurrences c s =? 0)%nat.
Proof.
  induction s as [|a s IH]; [reflexivity|].
  cbn [Js.includes occurrences]. rewrite prefix_cons, prefix_empty_l.
  rewrite andb_true_r, Ascii.eqb_sym.
  destruct (Ascii.eqb a c); [reflexivity | exact IH].
Qed.

(** X28: [appendPoolParams] leaves an empty URL empty; to any other URL
    it appends the two pool settings after a "?" when the URL has no
    query yet and after a "&" when it has one, so the result starts with
    the URL and holds as many question marks as the URL did, or one when
    it had none. *)
Theorem appendPoolParams_query (url : string) :
  (url = "" -> Prisma.appendPoolParams url = "")
  /\ (url <> "" ->
      exists separator,
        Prisma.appendPoolParams url
        = url ++ separator ++ "connection_limit=5&pool_timeout=10"
        /\ separator = (if (occurrences "?" url =? 0)%nat then "?" else "&")
        /\ occurrences "?" (Prisma.appendPoolParams url)
           = Nat.max 1 (occurrences "?" url)).
Proof.
  unfold Prisma.appendPoolParams. split.
  - intros ->. reflexivity.
  - intros Hne. destruct url as [|c url]; [contradiction|].
    cbn [Js.isEmpty]. cbn zeta.
    rewrite (includes_char "?" (String c url)).
    destruct (occurrences "?" (String c url) =? 0)%nat eqn:Hq; cbn [negb];
      eexists; (split; [reflexivity|]); (split; [reflexivity|]);
      rewrite !occurrences_append.
    + apply Nat.eqb_eq in Hq. rewrite Hq. reflexivity.
    + apply Nat.eqb_neq in Hq.
      replace (occurrences "?" "&") with O by reflexivity.
      replace (occurrences "?" "connection_limit=5&pool_timeout=10")
        with O by reflexivity.
      lia.
Qed.

Example appendPoolParams_examples :
  Prisma.appendPoolParams "postgres://db/bobtail"
  = "postgres://db/bobtail?connection_limit=5&pool_timeout=10"
  /\ Prisma.appendPoolParams "postgres://db/bobtail?sslmode=require"
     = "postgres://db/bobtail?sslmode=require&connection_limit=5&pool_timeout=10".
Proof. split; reflexivity. Qed.

(** ** Calls of other campaigns *)

Lemma othersKept_refl (cid : string) (w : World) : othersKept cid w w.
Proof. split; auto. Qed.

Lemma othersKept_trans (cid : string) (a b c : World) :
  othersKept cid a b -> othersKept cid b c -> othersKept cid a c.
Proof.
  intros [Hk1 Hn1] [Hk2 Hn2]. split; [congruence|].
  intros i row Hnth Hother. apply Hn2; [|exact Hother]. now apply Hn1.
Qed.

Lemma othersKept_calls (cid : string) (w w' : World) :
  calls w' = calls w -> othersKept cid w w'.
Proof.
  intros H. unfold othersKept, callKeys. rewrite H. split; auto.
Qed.

(** Updating by primary key a call of the campaign leaves the calls of
    the other campaigns alone. *)
Lemma updateById_othersKept (cid id : string) (f : Call.t -> Call.t) :
  (forall c, Call.id (f c) = Call.id c) ->
  (forall c, Call.campaignId (f c) = Call.campaignId c) ->
  forall cs cs',
    NoDup (map Call.id cs) ->
    In (id, cid) (map (fun c => (Call.id c, Call.campaignId c)) cs) ->
    updateById id f cs = Some cs' ->
    map (fun c => (Call.id c, Call.campaignId c)) cs'
    = map (fun c => (Call.id c, Call.campaignId c)) cs
    /\ forall i c,
         nth_error cs i = Some c -> Call.campaignId c <> cid ->
         nth_error cs' i = Some c.
Proof.
  intros Hid Hcamp.
  induction cs as [|row cs IH]; intros cs' Hnd Hown Hu; [discriminate|].
  cbn [updateById] in Hu. cbn [map] in Hnd.
  inversion Hnd as [|x xs Hnotin Hnd' Heq]; subst.
  destruct (String.eqb (Call.id row) id) eqn:Hrow.
  - injection Hu as <-. apply String.eqb_eq in Hrow.
    assert (Hmine : Call.campaignId row = cid).
    { cbn [map In] in Hown. destruct Hown as [Hhead|Htail].
      - now injection Hhead.
      - exfalso. apply Hnotin. rewrite Hrow.
        apply in_map_iff in Htail as [c [Hc Hin]]. injection Hc as Hc _.
        rewrite <- Hc. now apply in_map. }
    split; [cbn [map]; now rewrite Hid, Hcamp|].
    intros [|i] c Hnth Hother; cbn in Hnth |- *; [|exact Hnth].
    injection Hnth as <-. contradiction.
  - destruct (updateById id f cs) as [rest|] eqn:Hrest; [|discriminate].
    injection Hu as <-.
    assert (Hown' : In (id, cid)
                      (map (fun c => (Call.id c, Call.campaignId c)) cs)).
    { cbn [map In] in Hown. destruct Hown as [Hhead|Htail]; [|exact Htail].
      injection Hhead as Hhead _. apply String.eqb_neq in Hrow.
      contradiction. }
    destruct (IH rest Hnd' Hown' eq_refl) as [Hkeys Hkept].
    split; [cbn [map]; now rewrite Hkeys|].
    intros [|i] c Hnth Hother; cbn in Hnth |- *; [exact Hnth|].
    now apply Hkept.
Qed.

Lemma callKeys_ids (w : World) :
  map fst (callKeys w) = map Call.id (calls w).
Proof. unfold callKeys. rewrite map_map. reflexivity. Qed.

Section Isolation.

Variable E : Env.
Variable campaignId : string.

Lemma isolated_quiet {A : Type} (P : World -> Prop) (m : M A) :
  (forall w, calls (snd (m w)) = calls w) -> isolated campaignId P m.
Proof. intros H w _ _. apply othersKept_calls, H. Qed.

Lemma isolated_bind {A B : Type} (P : World -> Prop) (m : M A)
    (f : A -> M B) :
  (forall w w', callKeys w' = callKeys w -> P w -> P w') ->
  isolated campaignId P m ->
  (forall a, isolated campaignId P (f a)) ->
  isolated campaignId P (bind m f).
Proof.
  intros Hstable Hm Hf w Hnd HP. unfold bind.
  specialize (Hm w Hnd HP).
  destruct (m w) as [[a|e] w1]; cbn [snd] in *; [|exact Hm].
  eapply othersKept_trans; [exact Hm|].
  destruct Hm as [Hkeys _].
  apply Hf; [now rewrite Hkeys | now apply (Hstable w)].
Qed.

Lemma isolated_weaken {A : Type} (P Q : World -> Prop) (m : M A) :
  (forall w, Q w -> P w) -> isolated campaignId P m ->
  isolated campaignId Q m.
Proof. intros HQP Hm w Hnd HQ. apply Hm; auto. Qed.

Lemma ownedBy_stable (id : string) (w w' : World) :
  callKeys w' = callKeys w ->
  ownedBy campaignId id w -> ownedBy campaignId id w'.
Proof. unfold ownedBy. now intros ->. Qed.

Lemma isolated_callUpdate (id : string) (d : Call.data) :
  isolated campaignId (ownedBy campaignId id) (callUpdate E id d).
Proof.
  intros w Hnd Hown. unfold callUpdate, db.
  destruct (dbFails E (ticks w)); [now apply othersKept_calls|].
  cbn [calls awaited].
  destruct (updateById id _ (calls w)) as [cs|] eqn:Hu;
    [|now apply othersKept_calls].
  rewrite callKeys_ids in Hnd.
  destruct (updateById_othersKept campaignId id (Call.apply d _)
              (fun c => eq_refl) (fun c => eq_refl) _ _ Hnd Hown Hu)
    as [Hkeys Hkept].
  split; [exact Hkeys | exact Hkept].
Qed.

Ltac isolated_quiet_step :=
  apply isolated_quiet; intros; reflexivity.

Lemma isolated_triggerCall (P : World -> Prop) (call : Call.t) :
  isolated campaignId P (triggerCall E call).
Proof.
  apply isolated_quiet. intros w. unfold triggerCall.
  destruct (triggerFetch E (ticks w) call) as [message|st errorText|data];
    try reflexivity.
  destruct data; try reflexivity.
  now destruct (Json.truthyProp _).
Qed.

Lemma isolated_pollRunStatus (P : World -> Prop) (runId : string) :
  isolated campaignId P (pollRunStatus E runId).
Proof.
  apply isolated_quiet. intros w. unfold pollRunStatus.
  destruct (pollFetch E (ticks w) runId) as [|st body]; [reflexivity|].
  destruct (st =? 404); [reflexivity|].
  destruct (negb _); [reflexivity|]. now destruct body.
Qed.

(** A bind whose continuation relies on what the first part returned. *)
Lemma isolated_bind_with {A B : Type} (P : World -> Prop)
    (Q : A -> World -> Prop) (m : M A) (f : A -> M B) :
  isolated campaignId P m ->
  (forall w a w1, P w -> m w = (Ok a, w1) -> Q a w1) ->
  (forall a, isolated campaignId (Q a) (f a)) ->
  isolated campaignId P (bind m f).
Proof.
  intros Hm HQ Hf w Hnd HP. unfold bind.
  specialize (Hm w Hnd HP). specialize (HQ w).
  destruct (m w) as [[a|e] w1]; cbn [snd] in *; [|exact Hm].
  eapply othersKept_trans; [exact Hm|].
  destruct Hm as [Hkeys _].
  apply Hf; [now rewrite Hkeys | now apply (HQ a w1)].
Qed.

Ltac isolated_step :=
  first
    [ apply isolated_callUpdate
    | apply isolated_triggerCall
    | apply isolated_pollRunStatus
    | (apply isolated_bind; [apply ownedBy_stable | | intros ])
    | match goal with
      | |- isolated _ _ (if ?b then _ else _) => destruct b
      | |- isolated _ _ (match ?x with _ => _ end) => destruct x
      end
    | (apply isolated_quiet; intros; reflexivity) ].

Lemma isolated_triggerStep (call : Call.t) (triggered : Z) :
  isolated campaignId (ownedBy campaignId (Call.id call))
    (triggerStep E call triggered).
Proof. unfold triggerStep, newDate. repeat isolated_step. Qed.

Lemma isolated_pollStep (call : Call.t) (counts : Z * Z) :
  isolated campaignId (ownedBy campaignId (Call.id call))
    (pollStep E call counts).
Proof.
  unfold pollStep, pollSettle, newDate. destruct counts as [polled completed].
  repeat isolated_step.
Qed.

Lemma batchOwned_stable (batch : list Call.t) (w w' : World) :
  callKeys w' = callKeys w ->
  batchOwned campaignId batch w -> batchOwned campaignId batch w'.
Proof.
  intros Hkeys Hbatch call Hin. eapply ownedBy_stable; eauto.
Qed.

Lemma isolated_forOf {S : Type} (body : Call.t -> S -> M (LoopCtl * S))
    (batch : list Call.t) :
  (forall call s,
      isolated campaignId (ownedBy campaignId (Call.id call)) (body call s)) ->
  forall s, isolated campaignId (batchOwned campaignId batch)
              (forOf batch s body).
Proof.
  intros Hbody. induction batch as [|call rest IH]; intros s.
  - apply isolated_quiet. reflexivity.
  - cbn [forOf]. apply isolated_bind.
    + apply batchOwned_stable.
    + eapply isolated_weaken; [|apply Hbody].
      intros w Hbatch. apply Hbatch. now left.
    + intros [[|] s'].
      * eapply isolated_weaken; [|apply IH].
        intros w Hbatch c Hin. apply Hbatch. now right.
      * apply isolated_quiet. reflexivity.
Qed.

Lemma owned_of_row (c : Call.t) (w : World) :
  In c (calls w) ->
  String.eqb (Call.campaignId c) campaignId = true ->
  ownedBy campaignId (Call.id c) w.
Proof.
  intros Hin Hcamp. apply String.eqb_eq in Hcamp.
  unfold ownedBy, callKeys. apply in_map_iff. exists c.
  split; [now rewrite Hcamp | exact Hin].
Qed.

Lemma pendingOf_owned (take : Z) (w : World) :
  batchOwned campaignId (pendingOf campaignId take (calls w)) w.
Proof.
  intros c Hin. unfold pendingOf in Hin.
  apply In_firstn, In_orderByCreatedAt, filter_In in Hin as [Hin Hsel].
  apply andb_true_iff in Hsel as [Hcamp _]. now apply owned_of_row.
Qed.

Lemma runningOf_owned (w : World) :
  batchOwned campaignId (runningOf campaignId (calls w)) w.
Proof.
  intros c Hin. unfold runningOf in Hin.
  apply filter_In in Hin as [Hin Hsel].
  apply andb_true_iff in Hsel as [Hsel _].
  apply andb_true_iff in Hsel as [Hcamp _]. now apply owned_of_row.
Qed.

Lemma isolated_processQueueCycle (paused : bool) :
  isolated campaignId (fun _ => True)
    (processQueueCycle E campaignId paused).
Proof.
  assert (Htrue : forall w w' : World,
             callKeys w' = callKeys w -> True -> True) by trivial.
  assert (Hquery : forall (A : Type) (ev : Event) (f : World -> A),
             isolated campaignId (fun _ => True) (db E ev (gets f))).
  { intros A ev f. apply isolated_quiet. intros w. unfold db, gets.
    now destruct (dbFails E (ticks w)). }
  unfold processQueueCycle.
  apply isolated_bind; [exact Htrue | apply Hquery |]. intros runningCount.
  apply isolated_bind; [exact Htrue | |].
  - destruct (negb paused); [|apply isolated_quiet; reflexivity].
    destruct (0 <? _); [|apply isolated_quiet; reflexivity].
    apply isolated_bind;
      [exact Htrue | apply isolated_quiet; reflexivity |].
    intros errors.
    apply isolated_bind_with
      with (Q := fun batch => batchOwned campaignId batch);
      [apply Hquery | |].
    + intros w batch w1 _. unfold callFindPending, db, gets.
      destruct (dbFails E (ticks w)); [discriminate|].
      intros [= <- <-]. exact (pendingOf_owned _ (awaited E _ w)).
    + intros batch. apply isolated_forOf. apply isolated_triggerStep.
  - intros nTriggered.
    apply isolated_bind_with
      with (Q := fun batch => batchOwned campaignId batch);
      [apply Hquery | |].
    + intros w batch w1 _. unfold callFindRunning, db, gets.
      destruct (dbFails E (ticks w)); [discriminate|].
      intros [= <- <-]. exact (runningOf_owned (awaited E _ w)).
    + intros batch.
      apply isolated_bind; [apply batchOwned_stable | |].
      * apply isolated_forOf. apply isolated_pollStep.
      * intros counts. apply isolated_quiet. reflexivity.
Qed.

(** X29: a dispatch and poll cycle stays within its campaign.  With
    distinct call identifiers, whatever the database and the provider
    do, the cycle adds and removes no call, moves none to another
    campaign, and leaves every call of every other campaign exactly as it
    was; unlike the reaper, which reaps the stale calls of all
    campaigns. *)
Theorem cycle_keeps_other_campaigns (paused : bool) (w : World) :
  NoDup (map Call.id (calls w)) ->
  let w' := snd (processQueueCycle E campaignId paused w) in
  map Call.id (calls w') = map Call.id (calls w)
  /\ map Call.campaignId (calls w') = map Call.campaignId (calls w)
  /\ forall i c,
       nth_error (calls w) i = Some c ->
       Call.campaignId c <> campaignId ->
       nth_error (calls w') i = Some c.
Proof.
  intros Hnd. cbn zeta.
  destruct (isolated_processQueueCycle paused w) as [Hkeys Hkept];
    [now rewrite callKeys_ids | exact I |].
  split; [|split; [|exact Hkept]].
  - rewrite <- !callKeys_ids. now rewrite Hkeys.
  - unfold callKeys in Hkeys.
    apply (f_equal (map snd)) in Hkeys. now rewrite !map_map in Hkeys.
Qed.

End Isolation.

Lemma cycle_keeps_other_campaigns_witness :
  let env := providerEnv (TriggerHttpError 500 "down")
               (PollResponse 404 None) false in
  let w' := snd (processQueueCycle env "camp-1" false sharedWorld) in
  NoDup (map Call.id (calls sharedWorld))
  /\ map Call.status (calls w')
     = [CallStatus.FAILED; CallStatus.RUNNING; CallStatus.FAILED]
  /\ map Call.id (calls w') = map Call.id (calls sharedWorld)
  /\ map Call.campaignId (calls w') = map Call.campaignId (calls sharedWorld)
  /\ forall i c,
       nth_error (calls sharedWorld) i = Some c ->
       Call.campaignId c <> "camp-1" ->
       nth_error (calls w') i = Some c.
Proof.
  cbn zeta.
  assert (Hnd : NoDup (map Call.id (calls sharedWorld))).
  { repeat constructor; cbn; intros H;
      repeat (destruct H as [H|H]; [discriminate H|]); exact H. }
  split; [exact Hnd|]. split; [reflexivity|].
  exact (cycle_keeps_other_campaigns
           (providerEnv (TriggerHttpError 500 "down") (PollResponse 404 None)
              false)
           "camp-1" false sharedWorld Hnd).
Defined.

(** ** The cycle's counts and the statistics *)

Lemma post_ret {A : Type} (a : A) (Q : World -> A -> World -> Prop) :
  (forall w, Q w a w) -> post (ret a) Q.
Proof. intros H w. apply H. Qed.

Lemma post_bind {A B : Type} (m : M A) (f : A -> M B)
    (Q1 : World -> A -> World -> Prop)
    (Q2 : A -> World -> B -> World -> Prop)
    (Q : World -> B -> World -> Prop) :
  post m Q1 -> (forall a, post (f a) (Q2 a)) ->
  (forall w a w1 b w2, Q1 w a w1 -> Q2 a w1 b w2 -> Q w b w2) ->
  post (bind m f) Q.
Proof.
  intros Hm Hf Hq w. unfold bind. specialize (Hm w).
  destruct (m w) as [[a|e] w1]; [|exact I].
  specialize (Hf a w1). destruct (f a w1) as [[b|e] w2]; [|exact I].
  eapply Hq; eassumption.
Qed.

Lemma post_respects {A : Type} (Rel : World -> World -> Prop) (m : M A) :
  respects Rel m -> post m (fun w _ w' => Rel w w').
Proof.
  intros H w. specialize (H w). now destruct (m w) as [[a|e] w1].
Qed.

Lemma post_weaken {A : Type} (m : M A) (Q Q' : World -> A -> World -> Prop) :
  post m Q -> (forall w a w', Q w a w' -> Q' w a w') -> post m Q'.
Proof.
  intros Hm Himp w. specialize (Hm w).
  destruct (m w) as [[a|e] w1]; [now apply Himp | exact I].
Qed.

Lemma steady_refl (w : World) : steady w w.
Proof. repeat split. Qed.

Lemma steady_trans (a b c : World) : steady a b -> steady b c -> steady a c.
Proof.
  unfold steady. intros [? [? [? ?]]] [? [? [? ?]]].
  repeat split; congruence.
Qed.

Ltac steady_obligations :=
  first
    [ exact steady_refl
    | exact steady_trans
    | (intros; exact I)
    | (intros; repeat split) ].

Section Accounting.

Variable E : Env.

Lemma steady_callUpdate (id : string) (d : Call.data) :
  respects steady (callUpdate E id d).
Proof.
  apply (respects_callUpdate E steady) with (okData := fun _ => True);
    steady_obligations.
Qed.

Lemma steady_query {A : Type} (ev : Event) (f : World -> A) :
  isTriggerFetch ev = false -> isPollFetch ev = false ->
  respects steady (db E ev (gets f)).
Proof.
  intros Ht Hp w. unfold db, gets.
  destruct (dbFails E (ticks w)); cbn [snd];
    unfold steady, triggeredTotal, settledTotal, triggerFetches, pollFetches;
    cbn [awaited stats trace filter]; rewrite Ht, Hp; repeat split.
Qed.

Ltac account :=
  unfold bind, modify, ret;
  unfold steady, advanced, triggeredTotal, settledTotal, triggerFetches,
    pollFetches in *;
  cbn [awaited withStats stats trace filter isTriggerFetch isPollFetch
       length Stats.incTriggered Stats.incFailed Stats.incCompleted
       Stats.totalTriggered Stats.totalCompleted Stats.totalFailed
       fst snd] in *;
  repeat split; lia.

(** One step of the trigger loop: each trigger request is accounted for,
    as a triggered call or as a failed one. *)
Lemma post_triggerStep (call : Call.t) (n : Z) :
  post (triggerStep E call n)
    (fun w r w' =>
       exists df,
         0 <= snd r - n <= df
         /\ df <= 1
         /\ advanced (snd r - n) (df - (snd r - n)) df 0 w w').
Proof.
  intros w. unfold triggerStep, bind at 1, gets.
  destruct (shouldStop w); [exists 0; cbn [ret snd]; account|].
  unfold bind at 1, newDate, gets. unfold bind at 1.
  pose proof (steady_callUpdate (Call.id call)
                (dataTriggeredAt (now E w)) w) as H1.
  destruct (callUpdate E (Call.id call) (dataTriggeredAt (now E w)) w)
    as [[[]|e] w1]; [|exact I].
  cbn [snd] in H1. unfold bind at 1.
  destruct (triggerCall_run E call w1) as [result ->].
  set (w2 := awaited E (EvTriggerFetch (Call.id call)) w1).
  destruct (success result && Json.truthyProp (resultRunId result)).
  - destruct (resultRunId result) as [[ | | |runId| | ]|]; try exact I.
    unfold bind at 1.
    pose proof (steady_callUpdate (Call.id call) (dataRunning runId) w2)
      as H3.
    destruct (callUpdate E (Call.id call) (dataRunning runId) w2)
      as [[[]|e] w3]; [|exact I].
    cbn [snd] in H3. subst w2. exists 1. account.
  - unfold bind at 1, newDate, gets. unfold bind at 1.
    pose proof (steady_callUpdate (Call.id call)
                  (dataTriggerFailed (error result) (now E w2)) w2) as H3.
    destruct (callUpdate E (Call.id call)
                (dataTriggerFailed (error result) (now E w2)) w2)
      as [[[]|e] w3]; [|exact I].
    cbn [snd] in H3. subst w2. exists 1. account.
Qed.

(** One step of the poll loop: each poll is counted, and each call it
    settles is accounted for, as completed or as failed. *)
Lemma post_pollStep (call : Call.t) (counts : Z * Z) :
  post (pollStep E call counts)
    (fun w r w' =>
       0 <= snd (snd r) - snd counts <= fst (snd r) - fst counts
       /\ fst (snd r) - fst counts <= 1
       /\ advanced 0 (snd (snd r) - snd counts) 0
            (fst (snd r) - fst counts) w w').
Proof.
  intros w. destruct counts as [polled completed].
  unfold pollStep, bind at 1, gets.
  destruct (shouldStop w); [cbn [ret fst snd]; account|].
  destruct (Call.runId call) as [runId|]; [|cbn [ret fst snd]; account].
  destruct (Js.isEmpty runId); [cbn [ret fst snd]; account|].
  unfold bind at 1.
  destruct (pollRunStatus_run E runId w) as [status ->].
  set (w1 := awaited E (EvPollFetch runId) w).
  destruct (negb (Json.truthy status));
    [subst w1; cbn [ret fst snd]; account|].
  unfold pollSettle.
  destruct (runStatusOf status) as [runStatus|]; [|exact I].
  destruct (String.eqb runStatus "not_found").
  { unfold bind at 1, newDate, gets. unfold bind at 1.
    pose proof (steady_callUpdate (Call.id call)
                  (dataLost runId (now E w1)) w1) as H2.
    destruct (callUpdate E (Call.id call) (dataLost runId (now E w1)) w1)
      as [[[]|e] w2]; [|exact I].
    cbn [snd] in H2. subst w1. account. }
  destruct (statusMap runStatus) as [[newStatus|]|];
    [| |subst w1; cbn [ret fst snd]; account].
  - destruct (extractOutcome status runStatus) as [x|e] eqn:Hx.
    + destruct newStatus; try (subst w1; cbn [ret fst snd]; account);
        rewrite ?Hx;
        unfold bind at 1, newDate, gets;
        destruct (completedAtOf E status (now E w1)) as [[completedAt|]|e];
        try exact I;
        unfold bind at 1;
        match goal with
        | |- context [callUpdate E ?id ?d w1] =>
            pose proof (steady_callUpdate id d w1) as H2;
            destruct (callUpdate E id d w1) as [[[]|e] w2]; [|exact I]
        end;
        cbn [snd] in H2; subst w1; account.
    + destruct newStatus; try (subst w1; cbn [ret fst snd]; account);
        rewrite ?Hx; exact I.
  - destruct (extractOutcome status runStatus) as [x|e];
      [|exact I].
    unfold bind at 1, newDate, gets.
    destruct (completedAtOf E status (now E w1)) as [[completedAt|]|e];
      exact I.
Qed.

Lemma post_triggerLoop (batch : list Call.t) :
  forall n,
    post (forOf batch n (triggerStep E))
      (fun w n' w' =>
         exists df,
           0 <= n' - n <= df
           /\ df <= Z.of_nat (length batch)
           /\ advanced (n' - n) (df - (n' - n)) df 0 w w').
Proof.
  induction batch as [|call rest IH]; intros n.
  - intros w. exists 0. cbn [forOf ret length]. account.
  - cbn [forOf]. eapply post_bind; [apply post_triggerStep | |].
    + intros [ctl n1].
      instantiate (1 := fun r w1 n' w' =>
        exists df,
          0 <= n' - snd r <= df
          /\ df <= Z.of_nat (length rest)
          /\ advanced (n' - snd r) (df - (n' - snd r)) df 0 w1 w').
      destruct ctl; [apply IH|].
      intros w1. exists 0. cbn [ret snd]. account.
    + intros w [ctl n1] w1 n' w2 [df1 [H1 [L1 A1]]] [df2 [H2 [L2 A2]]].
      cbn [snd] in *. exists (df1 + df2).
      cbn [length]. account.
Qed.

Lemma post_pollLoop (batch : list Call.t) :
  forall counts,
    post (forOf batch counts (pollStep E))
      (fun w counts' w' =>
         0 <= snd counts' - snd counts <= fst counts' - fst counts
         /\ fst counts' - fst counts <= Z.of_nat (length batch)
         /\ advanced 0 (snd counts' - snd counts) 0
              (fst counts' - fst counts) w w').
Proof.
  induction batch as [|call rest IH]; intros counts.
  - intros w. cbn [forOf ret length]. account.
  - cbn [forOf]. eapply post_bind; [apply post_pollStep | |].
    + intros [ctl counts1].
      instantiate (1 := fun r w1 counts' w' =>
        0 <= snd counts' - snd (snd r) <= fst counts' - fst (snd r)
        /\ fst counts' - fst (snd r) <= Z.of_nat (length rest)
        /\ advanced 0 (snd counts' - snd (snd r)) 0
             (fst counts' - fst (snd r)) w1 w').
      destruct ctl; [apply IH|].
      intros w1. cbn [ret snd]. account.
    + intros w [ctl counts1] w1 counts' w2 [H1 [L1 A1]] [H2 [L2 A2]].
      cbn [snd] in *. cbn [length]. account.
Qed.

Lemma post_query {A : Type} (ev : Event) (f : World -> A) :
  isTriggerFetch ev = false -> isPollFetch ev = false ->
  post (db E ev (gets f)) (fun w _ w' => steady w w').
Proof. intros Ht Hp. apply post_respects. now apply steady_query. Qed.

(** X30: the counts a cycle returns agree with the statistics and with
    the requests sent.  When a cycle returns, the total of triggered
    calls has grown by its [triggered], the number of polls sent is its
    [polled], and the total of completed and failed calls has grown by
    its [completed] plus the trigger requests that did not lead to a
    triggered call; [completed] never exceeds [polled], and a paused
    cycle sends no trigger request. *)
Theorem cycle_counts_match_statistics (campaignId : string) (paused : bool)
    (w w' : World) (result : CycleResult) :
  processQueueCycle E campaignId paused w = (Ok result, w') ->
  let requests := triggerFetches w' - triggerFetches w in
  Stats.totalTriggered (stats w')
  = Stats.totalTriggered (stats w) + triggered result
  /\ pollFetches w' = pollFetches w + polled result
  /\ Stats.totalCompleted (stats w') + Stats.totalFailed (stats w')
     = Stats.totalCompleted (stats w) + Stats.totalFailed (stats w)
       + completed result + (requests - triggered result)
  /\ 0 <= triggered result <= requests
  /\ 0 <= completed result <= polled result
  /\ (paused = true -> requests = 0).
Proof.
  intros Hrun. cbn zeta.
  assert (Hpost : post (processQueueCycle E campaignId paused)
    (fun w r w' =>
       exists df,
         0 <= triggered r <= df
         /\ 0 <= completed r <= polled r
         /\ (paused = true -> df = 0)
         /\ advanced (triggered r) (df - triggered r + completed r) df
              (polled r) w w')).
  { unfold processQueueCycle.
    eapply post_bind; [apply post_query; reflexivity | |].
    - intros runningCount.
      eapply post_bind
        with (Q1 := fun w0 n w1 =>
                      exists df, 0 <= n <= df
                                 /\ (paused = true -> df = 0)
                                 /\ advanced n (df - n) df 0 w0 w1).
      + destruct (negb paused) eqn:Hpaused;
          [|intros w0; exists 0; cbn [ret]; account].
        destruct (0 <? _); [|intros w0; exists 0; cbn [ret]; account].
        eapply post_bind
          with (Q1 := fun w0 (_ : Z) w1 => steady w0 w1);
          [intros w0; apply steady_refl | |].
        * intros errors.
          eapply post_bind; [apply post_query; reflexivity | |].
          -- intros batch. apply post_triggerLoop.
          -- intros w0 batch w1 n w2 Hs [df [Hn [_ Ha]]].
             instantiate (1 := fun _ w0 n w2 =>
               exists df, 0 <= n <= df
                          /\ (paused = true -> df = 0)
                          /\ advanced n (df - n) df 0 w0 w2).
             cbv beta. exists df. rewrite Z.sub_0_r in *.
             split; [exact Hn|]. split.
             ++ intros ->. discriminate.
             ++ account.
        * intros w0 errors w1 n w2 Hs [df [Hn [Hp Ha]]].
          exists df. split; [exact Hn|]. split; [exact Hp|]. account.
      + intros nTriggered.
        eapply post_bind; [apply post_query; reflexivity | |].
        * intros batch.
          eapply post_bind; [apply post_pollLoop | |].
          -- intros counts. apply post_ret.
             instantiate (1 := fun counts w1 r w2 =>
               w2 = w1
               /\ r = mkCycleResult nTriggered (fst counts) (snd counts)).
             intros w1. split; reflexivity.
          -- intros w0 counts w1 r w2 [Hc [_ Ha]] [-> ->].
             instantiate (1 := fun _ w0 r w2 =>
               triggered r = nTriggered
               /\ 0 <= completed r <= polled r
               /\ advanced 0 (completed r) 0 (polled r) w0 w2).
             cbv beta. cbn [triggered polled completed fst snd] in *.
             rewrite !Z.sub_0_r in *.
             split; [reflexivity|]. split; [lia | exact Ha].
        * intros w0 batch w1 r w2 Hs [Ht [Hc Ha]].
          instantiate (1 := fun n w0 r w2 =>
            triggered r = n
            /\ 0 <= completed r <= polled r
            /\ advanced 0 (completed r) 0 (polled r) w0 w2).
          cbv beta. split; [exact Ht|]. split; [exact Hc|]. account.
      + intros w0 n w1 r w2 [df [Hn [Hp Ha]]] [Ht [Hc Hb]].
        instantiate (1 := fun _ w0 r w2 =>
          exists df,
            0 <= triggered r <= df
            /\ 0 <= completed r <= polled r
            /\ (paused = true -> df = 0)
            /\ advanced (triggered r) (df - triggered r + completed r) df
                 (polled r) w0 w2).
        cbv beta. exists df. rewrite Ht.
        split; [exact Hn|]. split; [exact Hc|]. split; [exact Hp|]. account.
    - intros w0 runningCount w1 r w2 Hs [df [Hn [Hc [Hp Ha]]]].
      exists df. split; [exact Hn|]. split; [exact Hc|].
      split; [exact Hp|]. account. }
  specialize (Hpost w). rewrite Hrun in Hpost.
  destruct Hpost as [df [Hn [Hc [Hp Ha]]]].
  unfold advanced, triggeredTotal, settledTotal in Ha.
  destruct Ha as [Ht [Hs [Hf Hpoll]]].
  repeat split; try lia. intros Hpaused. specialize (Hp Hpaused). lia.
Qed.

End Accounting.

Lemma cycle_counts_match_statistics_witness :
  let env := providerEnv (TriggerHttpError 500 "down")
               (PollResponse 404 None) false in
  let w := sharedWorld in
  let w' := snd (processQueueCycle env "camp-1" false w) in
  let result := mkCycleResult 0 1 1 in
  let requests := triggerFetches w' - triggerFetches w in
  processQueueCycle env "camp-1" false w = (Ok result, w')
  /\ Stats.totalTriggered (stats w')
     = Stats.totalTriggered (stats w) + triggered result
  /\ pollFetches w' = pollFetches w + polled result
  /\ Stats.totalCompleted (stats w') + Stats.totalFailed (stats w')
     = Stats.totalCompleted (stats w) + Stats.totalFailed (stats w)
       + completed result + (requests - triggered result)
  /\ 0 <= triggered result <= requests
  /\ 0 <= completed result <= polled result
  /\ (false = true -> requests = 0).
Proof.
  cbv zeta.
  assert (Hrun : processQueueCycle
                   (providerEnv (TriggerHttpError 500 "down")
                      (PollResponse 404 None) false)
                   "camp-1" false sharedWorld
                 = (Ok (mkCycleResult 0 1 1),
                    snd (processQueueCycle
                           (providerEnv (TriggerHttpError 500 "down")
                              (PollResponse 404 None) false)
                           "camp-1" false sharedWorld)))
    by (vm_compute; reflexivity).
  split; [exact Hrun|].
  exact (cycle_counts_match_statistics _ _ _ _ _ _ Hrun).
Defined.
